(** * msc.mods: manifest / filesystem reconciliation

    A shallow embedding of [src/msc/mods.py]: the manifest data model, the
    directory layout, the inventory (reconciliation) engine, the
    compatibility check and the manifest operations (init, add, enable /
    disable, remove, purge), together with the properties the specification
    states about them.

    Conventions of the embedding.
    - Python [str] is [string], the text as bytes; the methods that work
      character by character on given ASCII characters ([startswith],
      [split], [replace], [strip] of a given character, the substitution of
      [[^a-zA-Z0-9]+]) are defined on it. The methods that follow the Unicode
      tables ([lower], [title], [strip] of white space) belong to Python and
      are variables of the development.
    - [Optional[T]] is [option T]; Python truthiness of an optional string
      ([if x:], [x or y]) is [truthy]: [None] and the empty string are false.
    - [pathlib.Path] is the list of its [parts] (pure POSIX flavour).
    - The filesystem is a finite map from paths to nodes; the in-memory
      manifest object, the filesystem and the clock form the [Store] that
      the operations thread through, with Python exceptions as [Raise].
    - What lives outside the repository (hashlib, pydantic's JSON codec, the
      network behind the resolvers, [shutil.move], [expanduser], the
      Unicode-aware string methods) is a [Variable] of the section. *)

From Stdlib Require Import Ascii.
From stdpp Require Import gmap strings list fin_maps pretty.


(** ** Python string primitives *)

Module PyStr.

Definition code (c : ascii) : N := N_of_ascii c.

Definition is_upper (c : ascii) : bool := ((65 <=? code c) && (code c <=? 90))%N.
Definition is_lower (c : ascii) : bool := ((97 <=? code c) && (code c <=? 122))%N.
Definition is_digit (c : ascii) : bool := ((48 <=? code c) && (code c <=? 57))%N.
Definition is_alnum (c : ascii) : bool := is_upper c || is_lower c || is_digit c.

(** [str.isspace] on the ASCII range: TAB..CR, FS..US and the space. *)
Definition is_space (c : ascii) : bool :=
  (((9 <=? code c) && (code c <=? 13)) || ((28 <=? code c) && (code c <=? 32)))%N.

Definition lower_char (c : ascii) : ascii :=
  if is_upper c then ascii_of_N (code c + 32) else c.
Definition upper_char (c : ascii) : ascii :=
  if is_lower c then ascii_of_N (code c - 32) else c.

(** What [s.lower()] gives on ASCII text: a stand-in for running the model *)
Fixpoint ascii_lower (s : string) : string :=
  match s with
  | EmptyString => EmptyString
  | String c s' => String (lower_char c) (ascii_lower s')
  end.

(** [s.startswith(p)] *)
Fixpoint startswith (p s : string) : bool :=
  match p, s with
  | EmptyString, _ => true
  | String a p', String b s' => if decide (a = b) then startswith p' s' else false
  | String _ _, EmptyString => false
  end.

(** [c in s] for a one-character needle *)
Fixpoint contains_char (c : ascii) (s : string) : bool :=
  match s with
  | EmptyString => false
  | String a s' => if decide (a = c) then true else contains_char c s'
  end.

(** [s.split(sep)] for a one-character separator: always a non-empty list *)
Fixpoint split (sep : ascii) (s : string) : list string :=
  match s with
  | EmptyString => [EmptyString]
  | String c s' =>
      if decide (c = sep) then EmptyString :: split sep s'
      else match split sep s' with
           | seg :: rest => String c seg :: rest
           | [] => [String c EmptyString]
           end
  end.

(** [s.split(sep, 1)]: [(head, None)] when [sep] does not occur, otherwise
    the text before and after its first occurrence. *)
Fixpoint split1 (sep : ascii) (s : string) : string * option string :=
  match s with
  | EmptyString => (EmptyString, None)
  | String c s' =>
      if decide (c = sep) then (EmptyString, Some s')
      else let '(h, t) := split1 sep s' in (String c h, t)
  end.

(** [s.lstrip(chars)], [s.rstrip(chars)], [s.strip(chars)] for a character class *)
Fixpoint lstrip (p : ascii -> bool) (s : string) : string :=
  match s with
  | EmptyString => EmptyString
  | String c s' => if p c then lstrip p s' else s
  end.

Fixpoint rstrip (p : ascii -> bool) (s : string) : string :=
  match s with
  | EmptyString => EmptyString
  | String c s' =>
      match rstrip p s' with
      | EmptyString => if p c then EmptyString else String c EmptyString
      | r => String c r
      end
  end.

Definition strip (p : ascii -> bool) (s : string) : string := rstrip p (lstrip p s).

(** What [s.strip()] gives on ASCII text: a stand-in for running the model *)
Definition ascii_strip (s : string) : string := strip is_space s.

Definition is_char (c : ascii) : ascii -> bool := fun a => bool_decide (a = c).

(** [s.replace(a, b)] for one-character [a] and [b] *)
Fixpoint replace_char (a b : ascii) (s : string) : string :=
  match s with
  | EmptyString => EmptyString
  | String c s' => String (if decide (c = a) then b else c) (replace_char a b s')
  end.

(** What [s.title()] gives on ASCII text (a cased character is upper-cased
    after an uncased one and lower-cased after a cased one): a stand-in for
    running the model *)
Fixpoint title_from (prev_cased : bool) (s : string) : string :=
  match s with
  | EmptyString => EmptyString
  | String c s' =>
      let cased := is_upper c || is_lower c in
      String (if prev_cased then lower_char c else upper_char c) (title_from cased s')
  end.
Definition ascii_title (s : string) : string := title_from false s.

(** [sep.join(items)] *)
Fixpoint join (sep : string) (items : list string) : string :=
  match items with
  | [] => EmptyString
  | [x] => x
  | x :: rest => x +:+ sep +:+ join sep rest
  end.

(** [re.sub(r"[^a-zA-Z0-9]+", "-", s)]: every maximal run of characters
    outside [a-zA-Z0-9] becomes one hyphen. *)
Fixpoint sub_non_alnum_runs (in_run : bool) (s : string) : string :=
  match s with
  | EmptyString => EmptyString
  | String c s' =>
      if is_alnum c then String c (sub_non_alnum_runs false s')
      else if in_run then sub_non_alnum_runs true s'
      else String "-"%char (sub_non_alnum_runs true s')
  end.

(** [s.rfind(".")] as the text before and from the last dot, when there is one *)
Fixpoint rsplit_dot (s : string) : option (string * string) :=
  match s with
  | EmptyString => None
  | String c s' =>
      match rsplit_dot s' with
      | Some (pre, suf) => Some (String c pre, suf)
      | None => if decide (c = "."%char) then Some (EmptyString, s) else None
      end
  end.

(** Truthiness of a string and of an optional string *)
Definition nonempty (s : string) : bool := negb (bool_decide (s = EmptyString)).

Definition truthy (o : option string) : bool :=
  match o with Some s => nonempty s | None => false end.

(** [a or b] on optional strings *)
Definition or_else (a b : option string) : option string :=
  if truthy a then a else b.

End PyStr.

(** ** pathlib.PurePosixPath, as the list of its parts *)

Module PurePath.

Abbreviation Path := (list string).

Definition valid_segment (s : string) : bool :=
  negb (bool_decide (s = EmptyString)) && negb (bool_decide (s = ".")).

(** The root of a POSIX path text: exactly two leading slashes are kept as
    ["//"], any other positive number collapses to ["/"]. *)
Definition root_of (s : string) : list string :=
  if PyStr.startswith "///" s then ["/"]
  else if PyStr.startswith "//" s then ["//"]
  else if PyStr.startswith "/" s then ["/"]
  else [].

(** [Path(s).parts] *)
Definition parse (s : string) : Path :=
  root_of s ++ filter (fun seg => Is_true (valid_segment seg)) (PyStr.split "/"%char s).

Definition is_root (seg : string) : bool :=
  bool_decide (seg = "/") || bool_decide (seg = "//").

Definition has_root (p : Path) : bool :=
  match p with
  | r :: _ => is_root r
  | [] => false
  end.

(** [p / s]: an absolute right operand replaces the left one *)
Definition joinpath (p : Path) (s : string) : Path :=
  let q := parse s in
  if has_root q then q else p ++ q.

(** [p.name]: the final component, empty for a bare root or the empty path *)
Definition name (p : Path) : string :=
  match last p with
  | Some seg => if is_root seg && bool_decide (length p = 1) then "" else seg
  | None => ""
  end.

(** [p.suffix] and [p.stem]: the last dot splits the name unless it is the
    first or the last character. *)
Definition split_name (n : string) : string * string :=
  match PyStr.rsplit_dot n with
  | Some (pre, suf) =>
      if PyStr.nonempty pre && negb (bool_decide (suf = ".")) then (pre, suf) else (n, "")
  | None => (n, "")
  end.

Definition suffix (p : Path) : string := snd (split_name (name p)).
Definition stem (p : Path) : string := fst (split_name (name p)).

(** [p.parent] *)
Definition parent (p : Path) : Path :=
  match p with
  | [r] => if is_root r then p else []
  | _ => removelast p
  end.

(** [str(p)] *)
Definition to_string (p : Path) : string :=
  match p with
  | [] => "."
  | r :: rest => if is_root r then r +:+ PyStr.join "/" rest else PyStr.join "/" p
  end.

End PurePath.

(** ** Python's insertion-ordered [dict] with string keys *)

Module PyDict.

Section Dict.
Context {V : Type}.

Definition t := list (string * V).

(** [d[k]] / [d.get(k)] *)
Fixpoint getitem (k : string) (d : t) : option V :=
  match d with
  | [] => None
  | (k', v) :: d' => if decide (k = k') then Some v else getitem k d'
  end.

(** [d[k] = v]: an existing key keeps its position, a new one is appended *)
Fixpoint setitem (k : string) (v : V) (d : t) : t :=
  match d with
  | [] => [(k, v)]
  | (k', v') :: d' => if decide (k = k') then (k', v) :: d' else (k', v') :: setitem k v d'
  end.

(** [del d[k]] where the key may be absent *)
Fixpoint delitem (k : string) (d : t) : t :=
  match d with
  | [] => []
  | (k', v) :: d' => if decide (k = k') then d' else (k', v) :: delitem k d'
  end.

(** [d.pop(k, None)] *)
Definition pop (k : string) (d : t) : option V * t := (getitem k d, delitem k d).

(** [list(d.keys())], [list(d.values())] *)
Definition keys (d : t) : list string := d.*1.
Definition values (d : t) : list V := d.*2.

End Dict.

Arguments t : clear implicits.

End PyDict.

(** ** Exceptions, the filesystem and the store *)

Import PurePath.

Inductive exn : Type :=
| ManifestError (msg : string)
| FileExistsError (p : Path)
| FileNotFoundError (p : Path)
| NotADirectoryError (p : Path)
| IsADirectoryError (p : Path)
| IndexError
| ForeignError (msg : string).

Inductive res (A : Type) : Type :=
| Ok (a : A)
| Raise (e : exn).
Arguments Ok {A} a.
Arguments Raise {A} e.

Definition is_ok {A} (r : res A) : bool :=
  match r with Ok _ => true | Raise _ => false end.

(** A node of the filesystem: a regular file with its content, or a directory. *)
Inductive node : Type :=
| File (content : string)
| Dir.

#[global] Instance node_eq_dec : EqDecision node.
Proof. solve_decision. Defined.

Abbreviation FS := (gmap Path node).

Module Fs.

(** [os.stat]: the current directory (the empty path) and the roots always
    exist as directories. *)
Definition stat (fs : FS) (p : Path) : option node :=
  match p with
  | [] => Some Dir
  | [r] => if is_root r then Some Dir else fs !! p
  | _ => fs !! p
  end.

(** [p.exists()], [p.is_file()], [p.is_dir()] *)
Definition exists_ (fs : FS) (p : Path) : bool := bool_decide (is_Some (stat fs p)).
Definition is_file (fs : FS) (p : Path) : bool :=
  match stat fs p with Some (File _) => true | _ => false end.
Definition is_dir (fs : FS) (p : Path) : bool :=
  match stat fs p with Some Dir => true | _ => false end.

(** [p.mkdir(parents=True, exist_ok=True)]: walk down from the top, creating
    each missing directory; a regular file on the way is an error. [pre] is
    the part already known to be a directory. *)
Fixpoint mkdirs (pre : Path) (rest : list string) (fs : FS) : res unit * FS :=
  match rest with
  | [] => (Ok tt, fs)
  | c :: rest' =>
      let q := pre ++ [c] in
      match stat fs q with
      | Some Dir => mkdirs q rest' fs
      | Some (File _) =>
          (Raise (match rest' with [] => FileExistsError q | _ => NotADirectoryError q end), fs)
      | None => mkdirs q rest' (<[q := Dir]> fs)
      end
  end.

Definition mkdir_parents (p : Path) (fs : FS) : res unit * FS := mkdirs [] p fs.

(** [p] is an entry of the directory [d] *)
Definition is_child (d p : Path) : bool :=
  bool_decide (length p = S (length d)) && bool_decide (take (length d) p = d).

(** [list(d.iterdir())], in the (arbitrary but fixed) order of the map *)
Definition iterdir (d : Path) (fs : FS) : res (list Path) :=
  match stat fs d with
  | None => Raise (FileNotFoundError d)
  | Some (File _) => Raise (NotADirectoryError d)
  | Some Dir => Ok (filter (fun p => Is_true (is_child d p)) (map_to_list fs).*1)
  end.

(** [p.read_text()] / reading [p.open("rb")] to the end *)
Definition read (p : Path) (fs : FS) : res string :=
  match stat fs p with
  | None => Raise (FileNotFoundError p)
  | Some Dir => Raise (IsADirectoryError p)
  | Some (File c) => Ok c
  end.

(** [p.write_text(text)] *)
Definition write_text (p : Path) (text : string) (fs : FS) : res unit * FS :=
  match stat fs (parent p) with
  | None => (Raise (FileNotFoundError p), fs)
  | Some (File _) => (Raise (NotADirectoryError p), fs)
  | Some Dir =>
      match stat fs p with
      | Some Dir => (Raise (IsADirectoryError p), fs)
      | _ => (Ok tt, <[p := File text]> fs)
      end
  end.

(** [p.unlink()] *)
Definition unlink (p : Path) (fs : FS) : res unit * FS :=
  match stat fs p with
  | None => (Raise (FileNotFoundError p), fs)
  | Some Dir => (Raise (IsADirectoryError p), fs)
  | Some (File _) => (Ok tt, delete p fs)
  end.

(** No regular file sits at [pre ++ rest] or at one of its ancestors below [pre]:
    the condition under which [mkdirs] succeeds. *)
Fixpoint clear_path (pre : Path) (rest : list string) (fs : FS) : bool :=
  match rest with
  | [] => true
  | c :: rest' =>
      match stat fs (pre ++ [c]) with
      | Some (File _) => false
      | _ => clear_path (pre ++ [c]) rest' fs
      end
  end.

(** Every ancestor of [pre ++ rest] below [pre], and the path itself, is a directory:
    then [mkdirs] changes nothing. *)
Fixpoint all_dirs (pre : Path) (rest : list string) (fs : FS) : bool :=
  match rest with
  | [] => true
  | c :: rest' => is_dir fs (pre ++ [c]) && all_dirs (pre ++ [c]) rest' fs
  end.

(** The filesystem only grew, by directories on the way to one of [ds]. *)
Definition grows_under (ds : list Path) (fs fs' : FS) : Prop :=
  (∀ p x, fs !! p = Some x → fs' !! p = Some x) ∧
  (∀ p x, fs !! p = None → fs' !! p = Some x → x = Dir ∧ ∃ d, d ∈ ds ∧ p `prefix_of` d).

Definition same_files (fs fs' : FS) : Prop :=
  ∀ p c, stat fs p = Some (File c) ↔ stat fs' p = Some (File c).

End Fs.

(** ** The data model *)

Definition MANIFEST_FILENAME : string := ".mscmods.json".
Definition DEFAULT_MODS_DIR : string := "mods".
Definition DEFAULT_DISABLED_DIR_SUFFIX : string := "-disabled".
Definition SUPPORTED_SCHEMA_VERSION : Z := 1.

(** [ModSourceType]: the values of the enumeration *)
Definition LOCAL : string := "local".
Definition URL : string := "url".
Definition MODRINTH : string := "modrinth".
Definition CURSEFORGE : string := "curseforge".
Definition CUSTOM : string := "custom".
Definition ModSourceType_values : list string := [LOCAL; URL; MODRINTH; CURSEFORGE; CUSTOM].

Record ModHashes : Type := mkModHashes {
  sha256 : option string;
  sha512 : option string;
  sha1 : option string;
  md5 : option string }.

Record ModSource : Type := mkModSource {
  src_type : string;
  src_path : option string;
  src_url : option string;
  src_project_id : option string;
  src_version_id : option string;
  src_slug : option string;
  src_download_url : option string;
  src_notes : option string }.

(** [ModSource()] with its defaults *)
Definition ModSource_default : ModSource :=
  mkModSource LOCAL None None None None None None None.

Record ModEntry : Type := mkModEntry {
  e_id : string;
  e_name : option string;
  e_side : string;
  e_enabled : bool;
  e_filename : string;
  e_source : ModSource;
  e_version : option string;
  e_mc_version : option string;
  e_loader : option string;
  e_installed_at : option string;
  e_hashes : option ModHashes;
  e_notes : option string }.

Record ModManifest : Type := mkModManifest {
  m_schema_version : Z;
  m_loader : option string;
  m_minecraft_version : option string;
  m_mods_dir : string;
  m_mods : list ModEntry }.

Definition set_enabled_flag (b : bool) (e : ModEntry) : ModEntry :=
  mkModEntry (e_id e) (e_name e) (e_side e) b (e_filename e) (e_source e) (e_version e)
    (e_mc_version e) (e_loader e) (e_installed_at e) (e_hashes e) (e_notes e).

Definition with_mods (l : list ModEntry) (m : ModManifest) : ModManifest :=
  mkModManifest (m_schema_version m) (m_loader m) (m_minecraft_version m) (m_mods_dir m) l.
Definition with_loader (x : option string) (m : ModManifest) : ModManifest :=
  mkModManifest (m_schema_version m) x (m_minecraft_version m) (m_mods_dir m) (m_mods m).
Definition with_minecraft_version (x : option string) (m : ModManifest) : ModManifest :=
  mkModManifest (m_schema_version m) (m_loader m) x (m_mods_dir m) (m_mods m).

#[global] Instance ModHashes_eq_dec : EqDecision ModHashes.
Proof. solve_decision. Defined.
#[global] Instance ModSource_eq_dec : EqDecision ModSource.
Proof. solve_decision. Defined.
#[global] Instance ModEntry_eq_dec : EqDecision ModEntry.
Proof. solve_decision. Defined.
#[global] Instance ModManifest_eq_dec : EqDecision ModManifest.
Proof. solve_decision. Defined.

Record ModFile : Type := mkModFile {
  mf_filename : string;
  mf_path : Path;
  mf_location : string;
  mf_sha256 : option string }.

#[global] Instance ModFile_eq_dec : EqDecision ModFile.
Proof. solve_decision. Defined.

Record ManifestEntryStatus : Type := mkStatus {
  s_entry : ModEntry;
  s_location : option string;
  s_present : bool;
  s_hash_ok : option bool }.

(** [ManifestEntryStatus.status] *)
Definition status (s : ManifestEntryStatus) : string :=
  if negb (s_present s) then "missing"
  else if e_enabled (s_entry s) && negb (bool_decide (s_location s = Some "mods")) then "moved"
  else if negb (e_enabled (s_entry s)) && negb (bool_decide (s_location s = Some "mods-disabled"))
       then "moved"
  else if bool_decide (s_hash_ok s = Some false) then "hash-mismatch"
  else "ok".

Record Inventory : Type := mkInventory {
  entries : list ManifestEntryStatus;
  extras : list ModFile }.

(** The dictionary [Inventory.summary] returns, one field per key *)
Record Summary : Type := mkSummary {
  total : nat;
  ok : nat;
  missing : nat;
  moved : nat;
  hash_mismatch : nat;
  n_extras : nat }.

(** [sum(1 for e in self.entries if e.status == label)] *)
Definition count_status (label : string) (l : list ManifestEntryStatus) : nat :=
  length (filter (fun e => status e = label) l).

(** [Inventory.summary] *)
Definition summary (inv : Inventory) : Summary :=
  {| total := length (entries inv);
     ok := count_status "ok" (entries inv);
     missing := count_status "missing" (entries inv);
     moved := count_status "moved" (entries inv);
     hash_mismatch := count_status "hash-mismatch" (entries inv);
     n_extras := length (extras inv) |}.

Record RconConfig : Type := mkRconConfig {
  rcon_enabled : bool;
  rcon_host : string;
  rcon_port : Z;
  rcon_password : string }.

Record MscConfig : Type := mkMscConfig {
  server_root : Path;
  data_dir : Path;
  log_file : Path;
  docker_service : string;
  rcon : RconConfig;
  cfg_name : string;
  server_type : string;
  minecraft_version : string;
  api_user_agent : string;
  curseforge_api_key : option string }.

Record SourceRequest : Type := mkSourceRequest {
  rq_cfg : MscConfig;
  rq_manifest : ModManifest;
  rq_source : string;
  rq_mods_directory : Path;
  rq_filename_override : option string;
  rq_suggested_mod_id : option string;
  rq_suggested_name : option string;
  rq_preferred_loader : option string;
  rq_preferred_mc_version : option string;
  rq_version_hint : option string;
  rq_project_id : option string;
  rq_metadata : list (string * string) }.

Record ResolvedMod : Type := mkResolvedMod {
  r_filename : string;
  r_source : ModSource;
  r_hashes : option ModHashes;
  r_mod_id : option string;
  r_name : option string;
  r_version : option string;
  r_loader : option string;
  r_mc_version : option string;
  r_mc_versions : option (list string) }.

(** A resolver turns a request into an artifact on disk plus metadata. The
    four registered implementations read the request and touch the
    filesystem and the network only; none of them writes to
    [request.manifest]. *)
Definition SourceResolver : Type := SourceRequest -> FS -> res ResolvedMod * FS.

(** ** The store and the monad of the operations *)

Record Store : Type := mkStore {
  st_fs : FS;
  st_manifest : ModManifest;
  st_clock : nat }.

Definition M (A : Type) : Type := Store -> res A * Store.

#[global] Instance M_ret : MRet M := fun A a st => (Ok a, st).
#[global] Instance M_bind : MBind M := fun A B f c st =>
  match c st with
  | (Ok a, st') => f a st'
  | (Raise e, st') => (Raise e, st')
  end.

Definition raise {A} (e : exn) : M A := fun st => (Raise e, st).
Definition get_manifest : M ModManifest := fun st => (Ok (st_manifest st), st).
Definition put_manifest (m : ModManifest) : M unit :=
  fun st => (Ok tt, mkStore (st_fs st) m (st_clock st)).
Definition get_fs : M FS := fun st => (Ok (st_fs st), st).
Definition lift_fs {A} (f : FS -> res A * FS) : M A :=
  fun st => let '(r, fs') := f (st_fs st) in (r, mkStore fs' (st_manifest st) (st_clock st)).
Definition lift_res {A} (r : res A) : M A := fun st => (r, st).

(** [try: body except ManifestError: handler] *)
Definition except_ManifestError {A} (body handler : M A) : M A := fun st =>
  match body st with
  | (Raise (ManifestError _), st') => handler st'
  | out => out
  end.

(** ** The module [msc.mods] *)

Section Mods.

(** [hashlib.sha256(content).hexdigest()] *)
Variable sha256_hexdigest : string -> string.
(** [manifest.model_dump_json(indent=2, exclude_none=True)] and
    [ModManifest.model_validate(json.loads(text))] *)
Variable model_dump_json : ModManifest -> string.
Variable model_validate_json : string -> res ModManifest.
(** [datetime.now(timezone.utc).isoformat()] at the n-th reading of the clock *)
Variable clock : nat -> string.
(** The registry [_SOURCE_RESOLVERS] as populated when the module is loaded *)
Variable SOURCE_RESOLVERS : gmap string SourceResolver.
(** [shutil.move(src, dst)] and [Path.expanduser] *)
Variable shutil_move : Path -> Path -> FS -> res unit * FS.
Variable expanduser : Path -> Path.
(** [s.lower()], [s.title()] and [s.strip()] of Python's [str] *)
Variable str_lower : string -> string.
Variable str_title : string -> string.
Variable str_strip : string -> string.

(** [ModManifest.find]: the first entry with the id *)
Definition find_entry (mod_id : string) (l : list ModEntry) : option ModEntry :=
  List.find (fun mod_ => bool_decide (e_id mod_ = mod_id)) l.

Definition find (mod_id : string) : M ModEntry :=
  m ← get_manifest;
  match find_entry mod_id (m_mods m) with
  | Some mod_ => mret mod_
  | None => raise (ManifestError ("Mod '" +:+ mod_id +:+ "' not found in manifest"))
  end.

(** [ModManifest.add] *)
Definition add (entry : ModEntry) : M unit :=
  m ← get_manifest;
  if existsb (fun mod_ => bool_decide (e_id mod_ = e_id entry)) (m_mods m)
  then raise (ManifestError ("Mod '" +:+ e_id entry +:+ "' already exists in manifest"))
  else put_manifest (with_mods (m_mods m ++ [entry]) m).

(** [ModManifest.remove] *)
Definition remove (mod_id : string) : M unit :=
  m ← get_manifest;
  let before := length (m_mods m) in
  let kept := filter (fun mod_ => e_id mod_ <> mod_id) (m_mods m) in
  put_manifest (with_mods kept m);;
  if bool_decide (length kept = before)
  then raise (ManifestError ("Mod '" +:+ mod_id +:+ "' not found in manifest"))
  else mret tt.

(** [manifest_path]: always under the default directory name *)
Definition manifest_path (cfg : MscConfig) : Path :=
  let mods_dir := joinpath (data_dir cfg) DEFAULT_MODS_DIR in
  joinpath mods_dir MANIFEST_FILENAME.

Definition dir_name (manifest : option ModManifest) : string :=
  match manifest with
  | Some m => m_mods_dir m
  | None => DEFAULT_MODS_DIR
  end.

Definition mods_dir (cfg : MscConfig) (manifest : option ModManifest) : Path :=
  joinpath (data_dir cfg) (dir_name manifest).

Definition disabled_dir (cfg : MscConfig) (manifest : option ModManifest) : Path :=
  joinpath (data_dir cfg) (dir_name manifest +:+ DEFAULT_DISABLED_DIR_SUFFIX).

Definition ensure_directories (cfg : MscConfig) (manifest : option ModManifest) : M unit :=
  lift_fs (Fs.mkdir_parents (mods_dir cfg manifest));;
  lift_fs (Fs.mkdir_parents (disabled_dir cfg manifest)).

(** The argument of [_normalize_version_list]: a list, a string or nothing *)
Inductive versions_arg : Type :=
| VersionList (l : list string)
| VersionStr (s : string)
| VersionNone.

Definition _normalize_version_list (value : versions_arg) : list string :=
  match value with
  | VersionNone => []
  | VersionStr s => if PyStr.nonempty s then [s] else []
  | VersionList l => filter (fun item => Is_true (PyStr.nonempty item)) l
  end.

Definition loader_mismatch_message (mod_identifier resolved_loader preferred_loader : string)
  : string :=
  mod_identifier +:+ " targets loader '" +:+ resolved_loader +:+
  "' which does not match the server loader '" +:+ preferred_loader +:+ "'.".

Definition version_mismatch_message (mod_identifier : string)
  (resolved_mc_versions : list string) (preferred_mc_version : string) : string :=
  let readable_supported := PyStr.join ", " resolved_mc_versions in
  mod_identifier +:+ " is tagged for Minecraft " +:+ readable_supported +:+
  " but the server is " +:+ preferred_mc_version +:+ ".".

Definition check_loader (mod_identifier : string)
  (resolved_loader preferred_loader : option string) : res unit :=
  match preferred_loader, resolved_loader with
  | Some p, Some r =>
      if PyStr.nonempty p && PyStr.nonempty r
         && negb (bool_decide (str_lower p = str_lower r))
      then Raise (ManifestError (loader_mismatch_message mod_identifier r p))
      else Ok tt
  | _, _ => Ok tt
  end.

Definition check_mc_version (mod_identifier : string)
  (resolved_mc_versions : list string) (preferred_mc_version : option string) : res unit :=
  match preferred_mc_version with
  | Some p =>
      if PyStr.nonempty p then
        let normalized_target := str_lower p in
        let normalized_supported := str_lower <$> resolved_mc_versions in
        if negb (bool_decide (resolved_mc_versions = []))
           && negb (bool_decide (normalized_target ∈ normalized_supported))
        then Raise (ManifestError
                      (version_mismatch_message mod_identifier resolved_mc_versions p))
        else Ok tt
      else Ok tt
  | None => Ok tt
  end.

(** [_assert_version_compatibility]: the loader comparison, then the
    Minecraft version comparison *)
Definition _assert_version_compatibility (mod_identifier : string)
  (resolved_loader : option string) (resolved_mc_versions : list string)
  (preferred_loader preferred_mc_version : option string) : res unit :=
  match check_loader mod_identifier resolved_loader preferred_loader with
  | Raise e => Raise e
  | Ok _ => check_mc_version mod_identifier resolved_mc_versions preferred_mc_version
  end.

Definition load_manifest (cfg : MscConfig) : M ModManifest :=
  let path := manifest_path cfg in
  fs ← get_fs;
  if negb (Fs.exists_ fs path)
  then raise (ManifestError "Mods manifest not found. Run 'msc mods init' first.")
  else
    data ← lift_res (Fs.read path fs);
    manifest ← lift_res (model_validate_json data);
    if bool_decide (m_schema_version manifest <> SUPPORTED_SCHEMA_VERSION)
    then raise (ManifestError ("Unsupported manifest schema version " +:+
                               pretty (m_schema_version manifest) +:+ "."))
    else mret manifest.

Definition save_manifest (cfg : MscConfig) : M unit :=
  let path := manifest_path cfg in
  manifest ← get_manifest;
  lift_fs (Fs.mkdir_parents (parent path));;
  lift_fs (Fs.write_text path (model_dump_json manifest)).

Definition _sha256 (path : Path) : M string :=
  fs ← get_fs;
  content ← lift_res (Fs.read path fs);
  mret (sha256_hexdigest content).

Definition _now_iso : M string := fun st =>
  (Ok (clock (st_clock st)), mkStore (st_fs st) (st_manifest st) (S (st_clock st))).

Definition _derive_mod_id (filename : string) : string :=
  let stem := PurePath.stem (parse filename) in
  let slug :=
    str_lower (PyStr.strip (PyStr.is_char "-") (PyStr.sub_non_alnum_runs false stem)) in
  if PyStr.nonempty slug then slug else "mod".

Definition _humanize_name (mod_id : string) : string :=
  let parts := PyStr.replace_char "_" " " (PyStr.replace_char "-" " " mod_id) in
  str_title parts.

Definition is_mod_suffix (suffix : string) : bool :=
  bool_decide (suffix = ".jar") || bool_decide (suffix = ".zip").

Definition _iter_mod_files (directory : Path) : M (list Path) :=
  fs ← get_fs;
  if negb (Fs.exists_ fs directory) then mret []
  else
    listing ← lift_res (Fs.iterdir directory fs);
    mret (filter (fun f => Is_true (Fs.is_file fs f && is_mod_suffix (suffix f))) listing).

(** One of the two loops of [_scan_files]:
    [for file in listing: files[file.name] = ModFile(...)] *)
Fixpoint scan_into (location : string) (listing : list Path) (files : PyDict.t ModFile)
  : M (PyDict.t ModFile) :=
  match listing with
  | [] => mret files
  | file :: rest =>
      digest ← _sha256 file;
      scan_into location rest
        (PyDict.setitem (name file)
           {| mf_filename := name file; mf_path := file; mf_location := location;
              mf_sha256 := Some digest |} files)
  end.

Definition _scan_files (cfg : MscConfig) (manifest : ModManifest) : M (PyDict.t ModFile) :=
  let mods_directory := mods_dir cfg (Some manifest) in
  let disabled_directory := disabled_dir cfg (Some manifest) in
  enabled_listing ← _iter_mod_files mods_directory;
  files ← scan_into "mods" enabled_listing [];
  disabled_listing ← _iter_mod_files disabled_directory;
  scan_into "mods-disabled" disabled_listing files.

(** The expected digest the hash comparison uses: [entry.hashes] is set and
    its [sha256] is a non-empty string. *)
Definition expected_sha256 (entry : ModEntry) : option string :=
  match e_hashes entry with
  | Some h => if PyStr.truthy (sha256 h) then sha256 h else None
  | None => None
  end.

(** The body of the loop of [inventory] for one entry *)
Definition match_entry (entry : ModEntry) (remaining_files : PyDict.t ModFile)
  : ManifestEntryStatus * PyDict.t ModFile :=
  let '(file_info, remaining_files) := PyDict.pop (e_filename entry) remaining_files in
  let present := bool_decide (is_Some file_info) in
  let location := mf_location <$> file_info in
  let hash_ok :=
    match file_info, expected_sha256 entry with
    | Some info, Some expected => Some (bool_decide (mf_sha256 info = Some expected))
    | _, _ => None
    end in
  ({| s_entry := entry; s_location := location; s_present := present; s_hash_ok := hash_ok |},
   remaining_files).

Fixpoint match_entries (mods : list ModEntry) (statuses : list ManifestEntryStatus)
  (remaining_files : PyDict.t ModFile) : list ManifestEntryStatus * PyDict.t ModFile :=
  match mods with
  | [] => (statuses, remaining_files)
  | entry :: rest =>
      let '(st, remaining_files) := match_entry entry remaining_files in
      match_entries rest (statuses ++ [st]) remaining_files
  end.

Definition inventory (cfg : MscConfig) : M Inventory :=
  manifest ← get_manifest;
  ensure_directories cfg (Some manifest);;
  files ← _scan_files cfg manifest;
  let '(statuses, remaining_files) := match_entries (m_mods manifest) [] files in
  mret {| entries := statuses; extras := PyDict.values remaining_files |}.

Definition _loader_from_config (cfg : MscConfig) : option string :=
  if negb (PyStr.nonempty (server_type cfg)) then None
  else
    let key := str_lower (str_strip (server_type cfg)) in
    if bool_decide (key ∈ ["fabric"; "quilt"; "forge"; "neoforge"; "paper"; "vanilla"])
    then Some key
    else if bool_decide (key ∈ ["purpur"; "spigot"]) then Some "paper"
    else if PyStr.nonempty key then Some key else None.

Definition _infer_source_type (source : string) : M string :=
  let lowered := str_lower source in
  if PyStr.startswith "modrinth:" lowered || PyStr.startswith "mr:" lowered then mret MODRINTH
  else if PyStr.startswith "curseforge:" lowered || PyStr.startswith "cf:" lowered
  then mret CURSEFORGE
  else if PyStr.startswith "http://" source || PyStr.startswith "https://" source then mret URL
  else
    fs ← get_fs;
    if Fs.exists_ fs (expanduser (parse source)) then mret LOCAL else mret CUSTOM.

Definition _normalize_source_identifier (source source_type : string)
  : res (string * option string) :=
  let lowered := str_lower source in
  let prefixes :=
    if bool_decide (source_type = MODRINTH) then ["modrinth:"; "mr:"]
    else if bool_decide (source_type = CURSEFORGE) then ["curseforge:"; "cf:"]
    else [] in
  let target :=
    if existsb (fun prefix => PyStr.startswith prefix lowered) prefixes
    then match PyStr.split1 ":" source with
         | (_, Some after) => Ok after
         | (_, None) => Raise IndexError
         end
    else Ok source in
  match target with
  | Raise e => Raise e
  | Ok target =>
      if bool_decide (source_type ∈ [MODRINTH; CURSEFORGE]) && PyStr.contains_char "@" target
      then match PyStr.split1 "@" target with
           | (before, Some after) => Ok (before, Some after)
           | (_, None) => Raise IndexError
           end
      else Ok (target, None)
  end.

Definition get_source_resolver (source_type : string) : res SourceResolver :=
  match SOURCE_RESOLVERS !! source_type with
  | Some resolver => Ok resolver
  | None => Raise (ManifestError ("Source type '" +:+ source_type +:+ "' is not yet supported."))
  end.

(** What [add_mod] has in hand once the source is resolved (or skipped, for
    a manifest-only entry) and the compatibility check has passed *)
Record Resolution : Type := mkResolution {
  target_filename : option string;
  res_hashes : option ModHashes;
  mod_source : ModSource;
  resolved_name : option string;
  resolved_mod_id : option string;
  resolved_version : option string;
  resolved_loader : option string;
  resolved_mc_version : option string;
  preferred_loader : option string;
  preferred_mc_version : option string }.

(** [resolved.mc_versions or resolved.mc_version] *)
Definition versions_of (resolved : ResolvedMod) : versions_arg :=
  match r_mc_versions resolved with
  | Some (v :: l) => VersionList (v :: l)
  | _ => match r_mc_version resolved with
         | Some s => VersionStr s
         | None => VersionNone
         end
  end.

(** [mod_id or resolved.mod_id or normalized_source] *)
Definition mod_identifier (mod_id : option string) (resolved : ResolvedMod)
  (normalized_source : string) : string :=
  default normalized_source (PyStr.or_else (PyStr.or_else mod_id (r_mod_id resolved))
                                           (Some normalized_source)).

(** [add_mod], from its first line to the end of the [if manifest_only / else] *)
Definition add_mod_resolve (cfg : MscConfig) (source : string) (mod_id name : option string)
  (source_type : option string) (manifest_only : bool)
  (filename_override loader_hint mc_version_hint version_hint project_id : option string)
  : M Resolution :=
  manifest ← get_manifest;
  ensure_directories cfg (Some manifest);;
  let mods_directory := mods_dir cfg (Some manifest) in
  if manifest_only && negb (PyStr.truthy filename_override)
  then raise (ManifestError "--manifest-only requires --filename to be provided.")
  else
  inferred_source_type ←
    match source_type with
    | None => _infer_source_type source
    | Some t => mret t
    end;
  if negb (bool_decide (inferred_source_type ∈ ModSourceType_values))
  then raise (ManifestError ("Unsupported source type '" +:+ inferred_source_type +:+ "'."))
  else
  '(normalized_source, inline_version) ←
    lift_res (_normalize_source_identifier source inferred_source_type);
  let version_hint :=
    if bool_decide (version_hint = None) && PyStr.truthy inline_version
    then inline_version else version_hint in
  let default_loader := PyStr.or_else (m_loader manifest) (_loader_from_config cfg) in
  (if bool_decide (m_loader manifest = None) && PyStr.truthy default_loader
   then m ← get_manifest; put_manifest (with_loader default_loader m)
   else mret tt);;
  let default_mc_version :=
    PyStr.or_else (m_minecraft_version manifest) (Some (minecraft_version cfg)) in
  (if bool_decide (m_minecraft_version manifest = None) && PyStr.nonempty (minecraft_version cfg)
   then m ← get_manifest; put_manifest (with_minecraft_version (Some (minecraft_version cfg)) m)
   else mret tt);;
  let preferred_loader := PyStr.or_else loader_hint default_loader in
  let preferred_mc_version := PyStr.or_else mc_version_hint default_mc_version in
  if manifest_only then
    mret {| target_filename := filename_override;
            res_hashes := None;
            mod_source := mkModSource inferred_source_type None None None None None None
                            (Some "Manifest entry only");
            resolved_name := None; resolved_mod_id := None; resolved_version := None;
            resolved_loader := None; resolved_mc_version := None;
            preferred_loader := preferred_loader;
            preferred_mc_version := preferred_mc_version |}
  else
    resolver ← lift_res (get_source_resolver inferred_source_type);
    manifest ← get_manifest;
    let request :=
      {| rq_cfg := cfg; rq_manifest := manifest; rq_source := normalized_source;
         rq_mods_directory := mods_directory; rq_filename_override := filename_override;
         rq_suggested_mod_id := mod_id; rq_suggested_name := name;
         rq_preferred_loader := preferred_loader;
         rq_preferred_mc_version := preferred_mc_version;
         rq_version_hint := version_hint; rq_project_id := project_id;
         rq_metadata := [] |} in
    resolved ← lift_fs (resolver request);
    let resolved_versions := _normalize_version_list (versions_of resolved) in
    lift_res (_assert_version_compatibility
                (mod_identifier mod_id resolved normalized_source)
                (r_loader resolved) resolved_versions preferred_loader preferred_mc_version);;
    mret {| target_filename := Some (r_filename resolved);
            res_hashes := r_hashes resolved;
            mod_source := r_source resolved;
            resolved_name := r_name resolved; resolved_mod_id := r_mod_id resolved;
            resolved_version := r_version resolved;
            resolved_loader := r_loader resolved; resolved_mc_version := r_mc_version resolved;
            preferred_loader := preferred_loader;
            preferred_mc_version := preferred_mc_version |}.

(** The id [add_mod] settles on: [mod_id or resolved_mod_id or derived_mod_id] *)
Definition final_mod_id (mod_id : option string) (x : Resolution) (filename : string) : string :=
  let derived_mod_id := _derive_mod_id filename in
  default derived_mod_id
    (PyStr.or_else (PyStr.or_else mod_id (resolved_mod_id x)) (Some derived_mod_id)).

(** [add_mod], from the target-filename check to the end *)
Definition add_mod_commit (cfg : MscConfig) (mod_id name : option string) (enabled : bool)
  (x : Resolution) : M ModEntry :=
  match target_filename x with
  | Some filename =>
      if negb (PyStr.nonempty filename)
      then raise (ManifestError "Unable to determine target filename for mod.")
      else
        let mod_id := final_mod_id mod_id x filename in
        manifest ← get_manifest;
        if existsb (fun mod_ => bool_decide (e_id mod_ = mod_id)) (m_mods manifest)
        then raise (ManifestError ("Mod '" +:+ mod_id +:+ "' already exists in manifest."))
        else
          let entry_name :=
            PyStr.or_else (PyStr.or_else name (resolved_name x)) (Some (_humanize_name mod_id)) in
          let entry_loader := PyStr.or_else (resolved_loader x) (preferred_loader x) in
          let entry_mc_version := PyStr.or_else (resolved_mc_version x) (preferred_mc_version x) in
          let entry_version := resolved_version x in
          installed_at ← _now_iso;
          let entry :=
            {| e_id := mod_id; e_name := entry_name; e_side := "server"; e_enabled := enabled;
               e_filename := filename; e_source := mod_source x; e_version := entry_version;
               e_mc_version := entry_mc_version; e_loader := entry_loader;
               e_installed_at := Some installed_at; e_hashes := res_hashes x;
               e_notes := None |} in
          add entry;;
          save_manifest cfg;;
          mret entry
  | None => raise (ManifestError "Unable to determine target filename for mod.")
  end.

Definition add_mod (cfg : MscConfig) (source : string) (mod_id name : option string)
  (enabled : bool) (source_type : option string) (manifest_only : bool)
  (filename_override loader_hint mc_version_hint version_hint project_id : option string)
  : M ModEntry :=
  x ← add_mod_resolve cfg source mod_id name source_type manifest_only filename_override
        loader_hint mc_version_hint version_hint project_id;
  add_mod_commit cfg mod_id name enabled x.

(** [entry.enabled = enabled] on the object [manifest.find] returned: the
    entry is shared with the list, so the first entry with the id changes. *)
Fixpoint assign_enabled (mod_id : string) (enabled : bool) (l : list ModEntry) : list ModEntry :=
  match l with
  | [] => []
  | e :: l' =>
      if bool_decide (e_id e = mod_id) then set_enabled_flag enabled e :: l'
      else e :: assign_enabled mod_id enabled l'
  end.

Definition set_enabled (cfg : MscConfig) (mod_id : string) (enabled move_files : bool)
  : M ModEntry :=
  manifest ← get_manifest;
  ensure_directories cfg (Some manifest);;
  entry ← find mod_id;
  if bool_decide (e_enabled entry = enabled) then mret entry
  else
    let src_dir :=
      if enabled then disabled_dir cfg (Some manifest) else mods_dir cfg (Some manifest) in
    let dst_dir :=
      if enabled then mods_dir cfg (Some manifest) else disabled_dir cfg (Some manifest) in
    let src_path := joinpath src_dir (e_filename entry) in
    let dst_path := joinpath dst_dir (e_filename entry) in
    (if move_files then
       fs ← get_fs;
       if Fs.exists_ fs src_path then
         lift_fs (Fs.mkdir_parents (parent dst_path));;
         lift_fs (shutil_move src_path dst_path)
       else mret tt
     else mret tt);;
    m ← get_manifest;
    put_manifest (with_mods (assign_enabled mod_id enabled (m_mods m)) m);;
    save_manifest cfg;;
    mret (set_enabled_flag enabled entry).

(** The loop of [remove_mod] over the two candidate paths *)
Fixpoint unlink_existing (candidate_paths deleted_files : list Path) : M (list Path) :=
  match candidate_paths with
  | [] => mret deleted_files
  | path :: rest =>
      fs ← get_fs;
      if Fs.exists_ fs path then
        lift_fs (Fs.unlink path);;
        unlink_existing rest (deleted_files ++ [path])
      else unlink_existing rest deleted_files
  end.

Definition remove_mod (cfg : MscConfig) (mod_id : string) (remove_files : bool)
  : M (ModEntry * list Path) :=
  manifest ← get_manifest;
  ensure_directories cfg (Some manifest);;
  entry ← find mod_id;
  deleted_files ←
    (if remove_files then
       unlink_existing
         [joinpath (mods_dir cfg (Some manifest)) (e_filename entry);
          joinpath (disabled_dir cfg (Some manifest)) (e_filename entry)] []
     else mret []);
  remove mod_id;;
  save_manifest cfg;;
  mret (entry, deleted_files).

(** The loop of [purge_mods] over the snapshot [list(manifest.mods)] *)
Fixpoint purge_loop (cfg : MscConfig) (remove_files : bool) (snapshot : list ModEntry)
  (removed_count : nat) (deleted : list Path) : M (nat * list Path) :=
  match snapshot with
  | [] => mret (removed_count, deleted)
  | entry :: rest =>
      '(_, removed_paths) ← remove_mod cfg (e_id entry) remove_files;
      purge_loop cfg remove_files rest (removed_count + 1) (deleted ++ removed_paths)
  end.

Definition purge_mods (cfg : MscConfig) (remove_files : bool) : M (nat * list Path) :=
  manifest ← get_manifest;
  ensure_directories cfg (Some manifest);;
  purge_loop cfg remove_files (m_mods manifest) 0 [].

(** The loop of [_adopt_existing_mods] *)
Fixpoint adopt_loop (files : list Path) (adopted : list ModEntry) : M (list ModEntry) :=
  match files with
  | [] => mret adopted
  | file :: rest =>
      manifest ← get_manifest;
      installed_at ← _now_iso;
      digest ← _sha256 file;
      let entry :=
        {| e_id := _derive_mod_id (name file); e_name := Some (stem file); e_side := "server";
           e_enabled := true; e_filename := name file;
           e_source := mkModSource LOCAL (Some (to_string file)) None None None None None None;
           e_version := None; e_mc_version := m_minecraft_version manifest;
           e_loader := m_loader manifest; e_installed_at := Some installed_at;
           e_hashes := Some (mkModHashes (Some digest) None None None); e_notes := None |} in
      adopted ← except_ManifestError (add entry;; mret (adopted ++ [entry])) (mret adopted);
      adopt_loop rest adopted
  end.

Definition _adopt_existing_mods (cfg : MscConfig) : M (list ModEntry) :=
  manifest ← get_manifest;
  let mods_directory := mods_dir cfg (Some manifest) in
  files ← _iter_mod_files mods_directory;
  adopt_loop files [].

Definition init_manifest (cfg : MscConfig) (force adopt_existing : bool)
  : M (ModManifest * nat) :=
  let path := manifest_path cfg in
  fs ← get_fs;
  if Fs.exists_ fs path && negb force
  then raise (ManifestError "Mods manifest already exists. Use --force to overwrite.")
  else
    let manifest :=
      {| m_schema_version := SUPPORTED_SCHEMA_VERSION;
         m_loader := if PyStr.nonempty (server_type cfg)
                     then Some (str_lower (server_type cfg)) else None;
         m_minecraft_version := Some (minecraft_version cfg);
         m_mods_dir := DEFAULT_MODS_DIR;
         m_mods := [] |} in
    put_manifest manifest;;
    ensure_directories cfg (Some manifest);;
    adopted ← (if adopt_existing then _adopt_existing_mods cfg else mret []);
    save_manifest cfg;;
    manifest ← get_manifest;
    mret (manifest, length adopted).

(** ** Vocabulary of the specification *)

(** The content of the mod file named [n] in directory [d], when there is
    one: a regular file with extension [.jar] or [.zip]. *)
Definition mod_file_at (fs : FS) (d : Path) (n : string) : option string :=
  match Fs.stat fs (d ++ [n]) with
  | Some (File content) => if is_mod_suffix (suffix (d ++ [n])) then Some content else None
  | _ => None
  end.

(** The record the scan keeps for a filename: the disabled directory's file
    when there is one, otherwise the enabled directory's. *)
Definition scan_lookup (fs : FS) (enabled_directory disabled_directory : Path) (n : string)
  : option ModFile :=
  match mod_file_at fs disabled_directory n with
  | Some content =>
      Some (mkModFile n (disabled_directory ++ [n]) "mods-disabled"
              (Some (sha256_hexdigest content)))
  | None =>
      match mod_file_at fs enabled_directory n with
      | Some content =>
          Some (mkModFile n (enabled_directory ++ [n]) "mods" (Some (sha256_hexdigest content)))
      | None => None
      end
  end.

Definition expected_location (entry : ModEntry) : string :=
  if e_enabled entry then "mods" else "mods-disabled".

(** The classification in the order missing > moved > hash-mismatch > ok,
    from the file matched to the entry (if any). *)
Definition classify (file_info : option ModFile) (entry : ModEntry) : string :=
  match file_info with
  | None => "missing"
  | Some info =>
      if negb (bool_decide (mf_location info = expected_location entry)) then "moved"
      else match expected_sha256 entry with
           | Some expected =>
               if negb (bool_decide (mf_sha256 info = Some expected)) then "hash-mismatch"
               else "ok"
           | None => "ok"
           end
  end.

(** The file the [i]-th entry is matched to: what the scan recorded for its
    filename, unless an earlier entry with the same filename consumed it. *)
Definition matched_file (fs : FS) (cfg : MscConfig) (manifest : ModManifest) (i : nat)
  (entry : ModEntry) : option ModFile :=
  if bool_decide (e_filename entry ∈ e_filename <$> take i (m_mods manifest)) then None
  else scan_lookup fs (mods_dir cfg (Some manifest)) (disabled_dir cfg (Some manifest))
         (e_filename entry).

(** The record one loop of the scan stores for a filename found in [d] *)
Definition scanned (fs : FS) (d : Path) (location n : string) (listing : list Path)
  (otherwise : option ModFile) : option ModFile :=
  if bool_decide (d ++ [n] ∈ listing) then
    match mod_file_at fs d n with
    | Some content => Some (mkModFile n (d ++ [n]) location (Some (sha256_hexdigest content)))
    | None => otherwise
    end
  else otherwise.

(** The two directories can exist: no regular file sits in their place or
    in the place of one of their ancestors. *)
Definition dirs_available (cfg : MscConfig) (manifest : ModManifest) (fs : FS) : bool :=
  Fs.clear_path [] (mods_dir cfg (Some manifest)) fs
  && Fs.clear_path [] (disabled_dir cfg (Some manifest)) fs.

(** The two directories exist, with all their ancestors. *)
Definition dirs_exist (cfg : MscConfig) (manifest : ModManifest) (fs : FS) : bool :=
  Fs.all_dirs [] (mods_dir cfg (Some manifest)) fs
  && Fs.all_dirs [] (disabled_dir cfg (Some manifest)) fs.

Definition ids (manifest : ModManifest) : list string := e_id <$> m_mods manifest.
Definition filenames (manifest : ModManifest) : list string := e_filename <$> m_mods manifest.



(** [needle] occurs in [text] *)
Definition occurs_in (needle text : string) : Prop :=
  exists before after, text = before +:+ needle +:+ after.

(** Entry ids are pairwise distinct. *)
Definition ids_unique (manifest : ModManifest) : Prop := NoDup (ids manifest).

(** The dictionary left after the entries named [names] were popped in turn *)
Definition consumed (names : list string) (files : PyDict.t ModFile) : PyDict.t ModFile :=
  foldl (fun d n => PyDict.delitem n d) files names.

(** A computation keeps the relation [R] between the store it starts from
    and the store it leaves, whether it returns or raises. *)
Definition keeps {A} (R : Store -> Store -> Prop) (c : M A) (st : Store) : Prop :=
  R st (c st).2.
Definition maintains {A} (R : Store -> Store -> Prop) (c : M A) : Prop :=
  forall st, keeps R c st.

Definition same_mods (st st' : Store) : Prop :=
  m_mods (st_manifest st') = m_mods (st_manifest st).
Definition keeps_ids_unique (st st' : Store) : Prop :=
  ids_unique (st_manifest st) -> ids_unique (st_manifest st').

(** Only directories on the way to one of [ds] were created; nothing else
    in the store changed. *)
Definition only_mkdirs (ds : list Path) (st st' : Store) : Prop :=
  st_manifest st' = st_manifest st /\ st_clock st' = st_clock st /\
  Fs.grows_under ds (st_fs st) (st_fs st').

End Mods.

(** ** Vocabulary for the outcomes of the operations *)

(** The directory a location label of the inventory stands for *)
Definition directory_of (cfg : MscConfig) (manifest : ModManifest) (location : string) : Path :=
  if bool_decide (location = "mods") then mods_dir cfg (Some manifest)
  else disabled_dir cfg (Some manifest).

(** The two places where [remove_mod] looks for the file of an entry *)
Definition candidate_paths (cfg : MscConfig) (manifest : ModManifest) (entry : ModEntry)
  : list Path :=
  [joinpath (mods_dir cfg (Some manifest)) (e_filename entry);
   joinpath (disabled_dir cfg (Some manifest)) (e_filename entry)].

(** The tree the operations work in is in place: the two mod directories and
    the directory of the manifest file exist, and no directory sits where
    the manifest file goes. *)
Definition manifest_ready (cfg : MscConfig) (fs : FS) : bool :=
  Fs.all_dirs [] (parent (manifest_path cfg)) fs && negb (Fs.is_dir fs (manifest_path cfg)).

Definition healthy (cfg : MscConfig) (manifest : ModManifest) (fs : FS) : bool :=
  dirs_exist cfg manifest fs && manifest_ready cfg fs.

(** [fs] and [fs'] have the same directories. *)
Definition same_dirs (fs fs' : FS) : Prop := ∀ p, Fs.is_dir fs' p = Fs.is_dir fs p.

(** ** A sample world, for running the model *)

Module Sample.

(** Stand-ins for what lives outside the repository *)
Definition sha (content : string) : string := "sha256:" +:+ content.
Definition dump (m : ModManifest) : string :=
  "{" +:+ PyStr.join "," ((fun e => e_id e +:+ (if e_enabled e then "+" else "-")) <$> m_mods m)
  +:+ "}".
Definition validate (text : string) : res ModManifest :=
  Ok (mkModManifest 1 None None text []).
Definition clock (n : nat) : string := "tick-" +:+ pretty n.
Definition move (src dst : Path) (fs : FS) : res unit * FS :=
  match fs !! src with
  | Some x => (Ok tt, <[dst := x]> (delete src fs))
  | None => (Raise (FileNotFoundError src), fs)
  end.
Definition expand (p : Path) : Path := p.
(** The string methods, on ASCII text *)
Definition lower : string -> string := PyStr.ascii_lower.
Definition title : string -> string := PyStr.ascii_title.
Definition strip : string -> string := PyStr.ascii_strip.

Definition cfg : MscConfig :=
  mkMscConfig ["/"; "srv"] ["/"; "srv"; "data"] ["/"; "srv"; "data"; "logs"; "latest.log"]
    "minecraft" (mkRconConfig true "127.0.0.1" 25575 "rconpw") "default-server" "FABRIC"
    "1.21.1" "msc" None.

Definition entry (id_ filename : string) (enabled : bool) (digest : option string) : ModEntry :=
  mkModEntry id_ None "server" enabled filename ModSource_default None None None None
    ((fun d => mkModHashes (Some d) None None None) <$> digest) None.

Definition manifest (mods_dir_name : string) (l : list ModEntry) : ModManifest :=
  mkModManifest 1 (Some "fabric") (Some "1.21.1") mods_dir_name l.

Definition enabled_dir : Path := ["/"; "srv"; "data"; "mods"].
Definition disabled_dir : Path := ["/"; "srv"; "data"; "mods-disabled"].

(** The data directory with both mod directories and the given files *)
Definition tree (files : list (Path * string)) : FS :=
  list_to_map ([(["/"; "srv"], Dir); (["/"; "srv"; "data"], Dir);
                (enabled_dir, Dir); (disabled_dir, Dir)]
               ++ ((fun '(p, content) => (p, File content)) <$> files)).

(** Two entries name [a.jar] and one copy of it sits in the enabled
    directory; [b.jar] is not what its entry expects; [c.zip] sits in the
    disabled directory though its entry is enabled; the entry of [d.jar]
    records an empty sha256. *)
Definition dup_store : Store :=
  mkStore (tree [(enabled_dir ++ ["a.jar"], "AAA"); (enabled_dir ++ ["b.jar"], "BBB");
                 (disabled_dir ++ ["c.zip"], "CCC"); (enabled_dir ++ ["d.jar"], "DDD");
                 (enabled_dir ++ ["notes.txt"], "hello")])
    (manifest "mods" [entry "a" "a.jar" true None; entry "a-again" "a.jar" true None;
                      entry "b" "b.jar" true (Some "sha256:other");
                      entry "c" "c.zip" true (Some "sha256:other");
                      entry "d" "d.jar" true (Some "")])
    0.

(** [a.jar] sits in both directories and no entry names it. *)
Definition both_store : Store :=
  mkStore (tree [(enabled_dir ++ ["a.jar"], "AAA"); (disabled_dir ++ ["a.jar"], "BBB")])
    (manifest "mods" []) 0.

(** The entry [e] is disabled and no file of it is on disk. *)
Definition off_store : Store :=
  mkStore (tree []) (manifest "mods" [entry "a" "a.jar" true None; entry "e" "e.jar" false None])
    0.

(** An empty disk. *)
Definition blank_store : Store := mkStore ∅ (manifest "mods" [entry "a" "a.jar" true None]) 0.

(** A manifest whose enabled directory is [plugins]. *)
Definition plugins_store : Store :=
  mkStore (tree []) (manifest "plugins" [entry "a" "a.jar" true None]) 0.

(** Two stand-in resolvers: each "downloads" [lithium.jar], tagged for
    Minecraft 1.21 and 1.21.1 and for the given loader. *)
Definition lithium (kind loader : string) : SourceResolver := fun request fs =>
  (Ok (mkResolvedMod "lithium.jar"
         (mkModSource kind None (Some (rq_source request)) None None None None None)
         None (Some "lithium") None None (Some loader) None (Some ["1.21"; "1.21.1"])),
   <[rq_mods_directory request ++ ["lithium.jar"] := File "LITHIUM"]> fs).
Definition resolvers : gmap string SourceResolver :=
  <[URL := lithium URL "forge"]> {[ MODRINTH := lithium MODRINTH "Fabric" ]}.

End Sample.

(** * Properties *)

(** ** The dictionary primitives *)

Module PyDictFacts.
Import PyDict.
Section Facts.
Context {V : Type}.
Implicit Types (d : PyDict.t V) (k : string) (v : V).

Lemma getitem_setitem_eq k v d : getitem k (setitem k v d) = Some v.
Proof.
  induction d as [|[k' v'] d IH]; csimpl.
  - by rewrite decide_True.
  - destruct (decide (k = k')) as [->|Hne]; csimpl.
    + by rewrite decide_True.
    + by rewrite decide_False.
Qed.

Lemma getitem_setitem_ne k k' v d : k ≠ k' → getitem k (setitem k' v d) = getitem k d.
Proof.
  intros Hne. induction d as [|[k0 v0] d IH]; csimpl.
  - by rewrite decide_False.
  - destruct (decide (k' = k0)) as [->|Hne0]; csimpl.
    + by rewrite !decide_False.
    + destruct (decide (k = k0)); done.
Qed.

Lemma keys_setitem k v d :
  keys (setitem k v d) = if bool_decide (k ∈ keys d) then keys d else keys d ++ [k].
Proof.
  unfold keys. induction d as [|[k0 v0] d IH]; csimpl; [done|].
  destruct (decide (k = k0)) as [->|Hne]; csimpl.
  - rewrite bool_decide_eq_true_2; [done|]. apply list_elem_of_here.
  - rewrite IH. destruct (bool_decide_reflect (k ∈ d.*1)) as [Hin|Hin].
    + rewrite bool_decide_eq_true_2; [done|]. by apply list_elem_of_further.
    + rewrite bool_decide_eq_false_2; [done|]. rewrite elem_of_cons. by intros [?|?].
Qed.

Lemma NoDup_keys_setitem k v d : NoDup (keys d) → NoDup (keys (setitem k v d)).
Proof.
  intros Hnd. rewrite keys_setitem. case_bool_decide as Hin; [done|].
  apply NoDup_app. split_and!; [done| |apply NoDup_singleton].
  intros x Hx Hx'. apply list_elem_of_singleton in Hx'. by subst.
Qed.

Lemma getitem_None k d : getitem k d = None ↔ k ∉ keys d.
Proof.
  unfold keys. induction d as [|[k0 v0] d IH]; csimpl.
  - split; [intros _; apply not_elem_of_nil|done].
  - rewrite not_elem_of_cons. destruct (decide (k = k0)); [|tauto].
    split; [done|]. by intros [? _].
Qed.

Lemma getitem_Some_elem k v d : getitem k d = Some v → (k, v) ∈ d.
Proof.
  induction d as [|[k0 v0] d IH]; csimpl; [done|].
  destruct (decide (k = k0)) as [->|]; intros H.
  - injection H as ->. apply list_elem_of_here.
  - apply list_elem_of_further. auto.
Qed.

Lemma elem_getitem k v d : NoDup (keys d) → (k, v) ∈ d → getitem k d = Some v.
Proof.
  unfold keys. induction d as [|[k0 v0] d IH]; csimpl; intros Hnd Hin.
  - by apply elem_of_nil in Hin.
  - apply NoDup_cons in Hnd as [Hk0 Hnd]. apply elem_of_cons in Hin as [Heq|Hin].
    + injection Heq as -> ->. by rewrite decide_True.
    + destruct (decide (k = k0)) as [->|]; [|by auto].
      exfalso. apply Hk0. apply list_elem_of_fmap. by exists (k0, v).
Qed.

Lemma keys_delitem_subset k d x : x ∈ keys (delitem k d) → x ∈ keys d.
Proof.
  unfold keys. induction d as [|[k0 v0] d IH]; csimpl; [done|].
  destruct (decide (k = k0)); csimpl.
  - apply list_elem_of_further.
  - rewrite !elem_of_cons. intros [?|?]; [by left|right; auto].
Qed.

Lemma NoDup_keys_delitem k d : NoDup (keys d) → NoDup (keys (delitem k d)).
Proof.
  unfold keys. induction d as [|[k0 v0] d IH]; csimpl; [done|].
  intros [Hk0 Hnd]%NoDup_cons. destruct (decide (k = k0)); csimpl; [done|].
  apply NoDup_cons. split; [|by auto].
  intros Hin. apply Hk0. by apply (keys_delitem_subset k).
Qed.

Lemma getitem_delitem k k' d :
  NoDup (keys d) → getitem k (delitem k' d) = if decide (k = k') then None else getitem k d.
Proof.
  unfold keys. induction d as [|[k0 v0] d IH]; csimpl; intros Hnd.
  - by destruct (decide (k = k')).
  - apply NoDup_cons in Hnd as [Hk0 Hnd].
    destruct (decide (k' = k0)) as [->|Hne]; csimpl.
    + destruct (decide (k = k0)) as [->|]; [|done]. by apply getitem_None.
    + rewrite IH by done. destruct (decide (k = k0)) as [->|]; [|done].
      by rewrite decide_False.
Qed.

End Facts.
End PyDictFacts.

(** ** The filesystem primitives *)

Module FsFacts.
Import Fs.


Lemma grows_under_refl ds fs : grows_under ds fs fs.
Proof. split; [done|]. intros p x Hn Hs. congruence. Qed.

Lemma grows_under_trans ds fs1 fs2 fs3 :
  grows_under ds fs1 fs2 → grows_under ds fs2 fs3 → grows_under ds fs1 fs3.
Proof.
  intros [Ha Hb] [Hc Hd]. split; [by auto|].
  intros p x Hn Hs. destruct (fs2 !! p) as [y|] eqn:E.
  - apply Hc in E as E'. rewrite E' in Hs. injection Hs as <-. by apply Hb.
  - by apply Hd.
Qed.

Lemma grows_under_weaken ds ds' fs fs' :
  ds ⊆ ds' → grows_under ds fs fs' → grows_under ds' fs fs'.
Proof.
  intros Hsub [Ha Hb]. split; [done|]. intros p x Hn Hs.
  destruct (Hb p x Hn Hs) as (-> & d & Hd & Hp). split; [done|]. exists d. auto.
Qed.

Lemma stat_lookup fs p x : stat fs p = Some (File x) → fs !! p = Some (File x).
Proof.
  destruct p as [|r [|]]; simpl; try done. by destruct (is_root r).
Qed.

Lemma stat_None fs p : stat fs p = None → fs !! p = None.
Proof.
  destruct p as [|r [|]]; simpl; try done. by destruct (is_root r).
Qed.

Lemma stat_grows ds fs fs' p x :
  grows_under ds fs fs' → stat fs p = Some x → stat fs' p = Some x.
Proof.
  intros [Ha _]. destruct p as [|r [|]]; simpl; auto. destruct (is_root r); auto.
Qed.

Lemma grows_same_files ds fs fs' : grows_under ds fs fs' → same_files fs fs'.
Proof.
  intros Hg p c. split; [by apply (stat_grows ds)|].
  destruct Hg as [Ha Hb]. intros Hs.
  destruct (fs !! p) as [y|] eqn:E.
  - apply stat_lookup in Hs as Hl. apply Ha in E as E'. rewrite E' in Hl. injection Hl as ->.
    clear -Hs E. destruct p as [|r [|]]; simpl in *; try done. by destruct (is_root r).
  - apply stat_lookup in Hs. by destruct (Hb _ _ E Hs).
Qed.

Lemma stat_insert_Dir fs q : stat (<[q := Dir]> fs) q = Some Dir.
Proof.
  destruct q as [|r [|]]; simpl; try done; try apply lookup_insert_eq.
  destruct (is_root r); [done|apply lookup_insert_eq].
Qed.

Lemma mkdirs_grows pre rest fs r fs' :
  mkdirs pre rest fs = (r, fs') → grows_under [pre ++ rest] fs fs'.
Proof.
  revert pre fs. induction rest as [|c rest IH]; intros pre fs; simpl.
  - intros [= _ <-]. apply grows_under_refl.
  - assert (Heq : (pre ++ [c]) ++ rest = pre ++ c :: rest) by by rewrite <-app_assoc.
    destruct (stat fs (pre ++ [c])) as [[content|]|] eqn:E.
    + intros [= _ <-]. apply grows_under_refl.
    + intros H. apply IH in H. by rewrite Heq in H.
    + intros H. apply IH in H. rewrite Heq in H.
      eapply grows_under_trans; [|exact H]. apply stat_None in E. split.
      * intros p x Hp. rewrite lookup_insert_ne; [done|]. intros <-. congruence.
      * intros p x Hn Hs. destruct (decide (pre ++ [c] = p)) as [<-|Hne].
        -- rewrite lookup_insert_eq in Hs. injection Hs as <-. split; [done|].
           exists (pre ++ c :: rest). split; [apply list_elem_of_here|].
           exists rest. by rewrite <-app_assoc.
        -- rewrite lookup_insert_ne in Hs by done. congruence.
Qed.

Lemma mkdirs_is_dir pre rest fs fs' :
  stat fs pre = Some Dir → mkdirs pre rest fs = (Ok tt, fs') → stat fs' (pre ++ rest) = Some Dir.
Proof.
  revert pre fs. induction rest as [|c rest IH]; intros pre fs Hpre; simpl.
  - intros [= <-]. by rewrite app_nil_r.
  - assert (Heq : (pre ++ [c]) ++ rest = pre ++ c :: rest) by by rewrite <-app_assoc.
    destruct (stat fs (pre ++ [c])) as [[content|]|] eqn:E.
    + by destruct rest.
    + intros H. apply IH in H; [|done]. by rewrite Heq in H.
    + intros H. apply IH in H; [|apply stat_insert_Dir]. by rewrite Heq in H.
Qed.

Lemma clear_path_ext pre rest fs fs' :
  same_files fs fs' → clear_path pre rest fs = clear_path pre rest fs'.
Proof.
  intros Hsf. revert pre. induction rest as [|c rest IH]; intros pre; simpl; [done|].
  destruct (stat fs (pre ++ [c])) as [[content|]|] eqn:E.
  - apply Hsf in E. by rewrite E.
  - rewrite IH. destruct (stat fs' (pre ++ [c])) as [[content|]|] eqn:E'; [|done..].
    apply Hsf in E'. congruence.
  - rewrite IH. destruct (stat fs' (pre ++ [c])) as [[content|]|] eqn:E'; [|done..].
    apply Hsf in E'. congruence.
Qed.

Lemma mkdirs_total pre rest fs :
  clear_path pre rest fs = true → ∃ fs', mkdirs pre rest fs = (Ok tt, fs').
Proof.
  revert pre fs. induction rest as [|c rest IH]; intros pre fs; simpl; [by eauto|].
  destruct (stat fs (pre ++ [c])) as [[content|]|] eqn:E; [done|by auto|].
  intros Hc. apply IH. rewrite <-Hc. symmetry. apply clear_path_ext.
  apply (grows_same_files [pre ++ [c]]). apply stat_None in E. split.
  - intros p x Hp. rewrite lookup_insert_ne; [done|]. intros <-. congruence.
  - intros p x Hn Hs. destruct (decide (pre ++ [c] = p)) as [<-|Hne].
    + rewrite lookup_insert_eq in Hs. injection Hs as <-. split; [done|].
      exists (pre ++ [c]). split; [apply list_elem_of_here|done].
    + rewrite lookup_insert_ne in Hs by done. congruence.
Qed.

Lemma mkdirs_clear pre rest fs fs' :
  mkdirs pre rest fs = (Ok tt, fs') → clear_path pre rest fs = true.
Proof.
  revert pre fs. induction rest as [|c rest IH]; intros pre fs; simpl; [done|].
  destruct (stat fs (pre ++ [c])) as [[content|]|] eqn:E; [done|by eauto|].
  intros H. pose proof (mkdirs_grows _ _ _ _ _ H) as Hg. apply IH in H. rewrite <-H.
  apply clear_path_ext. apply (grows_same_files [pre ++ [c]]). apply stat_None in E. split.
  - intros p x Hp. rewrite lookup_insert_ne; [done|]. intros <-. congruence.
  - intros p x Hn Hs. destruct (decide (pre ++ [c] = p)) as [<-|Hne].
    + rewrite lookup_insert_eq in Hs. injection Hs as <-. split; [done|].
      exists (pre ++ [c]). split; [apply list_elem_of_here|done].
    + rewrite lookup_insert_ne in Hs by done. congruence.
Qed.


Lemma mkdirs_all_dirs pre rest fs :
  all_dirs pre rest fs = true → mkdirs pre rest fs = (Ok tt, fs).
Proof.
  revert pre. induction rest as [|c rest IH]; intros pre; simpl; [done|].
  unfold is_dir. destruct (stat fs (pre ++ [c])) as [[content|]|]; simpl; try done.
  apply IH.
Qed.

Lemma is_child_spec d p : Is_true (is_child d p) ↔ ∃ c, p = d ++ [c].
Proof.
  unfold is_child. rewrite andb_True, !bool_decide_spec. split.
  - intros [Hlen Htake]. rewrite <-(take_drop (length d) p), Htake.
    assert (Hd : length (drop (length d) p) = 1) by (rewrite length_drop; lia).
    destruct (drop (length d) p) as [|c [|]]; simpl in Hd; try lia. by exists c.
  - intros [c ->]. rewrite length_app, take_app_length. simpl. split; [lia|done].
Qed.

Lemma iterdir_spec d fs l :
  iterdir d fs = Ok l →
  NoDup l ∧ ∀ p, p ∈ l ↔ (∃ c, p = d ++ [c]) ∧ is_Some (fs !! p).
Proof.
  unfold iterdir. destruct (stat fs d) as [[content|]|]; try done. intros [= <-]. split.
  - apply NoDup_filter, NoDup_fst_map_to_list.
  - intros p. rewrite list_elem_of_filter, is_child_spec, list_elem_of_fmap.
    split; intros [Hc Hin]; (split; [done|]).
    + destruct Hin as ([p' x] & -> & Hin). apply elem_of_map_to_list in Hin. by exists x.
    + destruct Hin as [x Hx]. exists (p, x). split; [done|]. by apply elem_of_map_to_list.
Qed.

Lemma name_child fs d c x : stat fs (d ++ [c]) = Some (File x) → name (d ++ [c]) = c.
Proof.
  unfold name. rewrite last_snoc. intros Hs.
  destruct (is_root c) eqn:Hr; [|done]. rewrite length_app. simpl.
  case_bool_decide as Hlen; [|done]. destruct d; simpl in Hlen; [|lia].
  simpl in Hs. by rewrite Hr in Hs.
Qed.

End FsFacts.

(** ** The monad *)

Lemma bind_ok {A B} (c : M A) (k : A → M B) st a st1 :
  c st = (Ok a, st1) → (c ≫= k) st = k a st1.
Proof. intros H. unfold mbind, M_bind. by rewrite H. Qed.

Lemma bind_raise {A B} (c : M A) (k : A → M B) st e st1 :
  c st = (Raise e, st1) → (c ≫= k) st = (Raise e, st1).
Proof. intros H. unfold mbind, M_bind. by rewrite H. Qed.

Lemma bind_inv {A B} (c : M A) (k : A → M B) st r st' :
  (c ≫= k) st = (r, st') →
  (∃ a st1, c st = (Ok a, st1) ∧ k a st1 = (r, st')) ∨
  (∃ e, c st = (Raise e, st') ∧ r = Raise e).
Proof.
  unfold mbind, M_bind. destruct (c st) as [[a|e] st1]; intros H.
  - left. eauto.
  - right. injection H as <- <-. eauto.
Qed.

Section Maintains.
Context (R : Store → Store → Prop) `{!PreOrder R}.

Lemma maintains_ret {A} (a : A) : maintains R (mret a).
Proof. intros st. unfold keeps. simpl. reflexivity. Qed.

Lemma maintains_raise {A} e : maintains R (raise (A:=A) e).
Proof. intros st. unfold keeps. simpl. reflexivity. Qed.

Lemma maintains_lift_res {A} (r : res A) : maintains R (lift_res r).
Proof. intros st. unfold keeps. simpl. reflexivity. Qed.

Lemma maintains_get_manifest : maintains R get_manifest.
Proof. intros st. unfold keeps. simpl. reflexivity. Qed.

Lemma maintains_get_fs : maintains R get_fs.
Proof. intros st. unfold keeps. simpl. reflexivity. Qed.

Lemma maintains_bind {A B} (c : M A) (k : A → M B) :
  maintains R c → (∀ a, maintains R (k a)) → maintains R (c ≫= k).
Proof.
  intros Hc Hk st. specialize (Hc st). unfold keeps, mbind, M_bind in *.
  destruct (c st) as [[a|e] st1]; simpl in *; [|done].
  etrans; [exact Hc|apply Hk].
Qed.

Lemma maintains_except {A} (body handler : M A) :
  maintains R body → maintains R handler → maintains R (except_ManifestError body handler).
Proof.
  intros Hb Hh st. specialize (Hb st). unfold keeps, except_ManifestError in *.
  destruct (body st) as [[a|[]] st1]; simpl in *; try done.
  etrans; [exact Hb|apply Hh].
Qed.

End Maintains.

(** Relations that look at the manifest only are kept by every step that
    leaves the manifest alone. *)
Section ManifestOnly.
Context (R : Store → Store → Prop) `{!PreOrder R}.
Hypothesis R_manifest : ∀ st st', st_manifest st' = st_manifest st → R st st'.

Lemma maintains_lift_fs {A} (f : FS → res A * FS) : maintains R (lift_fs f).
Proof.
  intros st. unfold keeps, lift_fs. destruct (f (st_fs st)) as [r fs']. simpl.
  by apply R_manifest.
Qed.

Lemma maintains_now_iso clock : maintains R (_now_iso clock).
Proof. intros st. unfold keeps, _now_iso. simpl. by apply R_manifest. Qed.

End ManifestOnly.

#[global] Instance same_mods_preorder : PreOrder same_mods.
Proof. split; [done|]. unfold same_mods. intros x y z H1 H2. congruence. Qed.

#[global] Instance keeps_ids_unique_preorder : PreOrder keeps_ids_unique.
Proof.
  split; unfold keeps_ids_unique.
  - intros x H. exact H.
  - intros x y z H1 H2. auto.
Qed.

#[global] Instance only_mkdirs_preorder ds : PreOrder (only_mkdirs ds).
Proof.
  split.
  - intros st. split_and!; [done..|apply FsFacts.grows_under_refl].
  - intros x y z (Hm1 & Hc1 & Hg1) (Hm2 & Hc2 & Hg2). split_and!; [congruence..|].
    by eapply FsFacts.grows_under_trans.
Qed.

#[global] Instance eq_store_preorder : PreOrder (@eq Store).
Proof. split; [done|]. intros x y z. congruence. Qed.

Lemma maintains_weaken {A} (R R' : Store → Store → Prop) (c : M A) :
  (∀ st st', R st st' → R' st st') → maintains R c → maintains R' c.
Proof. intros Hsub Hc st. apply Hsub, Hc. Qed.

Lemma readonly_run {A} (c : M A) st : maintains eq c → (c st).2 = st.
Proof. intros H. symmetry. apply H. Qed.

(** ** Directory layout and scanning *)

Section Layout.
Variable sha256_hexdigest : string → string.

Lemma ensure_directories_only_mkdirs cfg manifest :
  maintains (only_mkdirs [mods_dir cfg manifest; disabled_dir cfg manifest])
    (ensure_directories cfg manifest).
Proof.
  unfold ensure_directories. apply maintains_bind; [apply _| |intros _].
  - intros st. unfold keeps, lift_fs, Fs.mkdir_parents.
    destruct (Fs.mkdirs [] (mods_dir cfg manifest) (st_fs st)) as [r fs'] eqn:E. simpl.
    split_and!; [done..|]. apply FsFacts.mkdirs_grows in E.
    eapply FsFacts.grows_under_weaken; [|exact E].
    intros x ->%list_elem_of_singleton. apply list_elem_of_here.
  - intros st. unfold keeps, lift_fs, Fs.mkdir_parents.
    destruct (Fs.mkdirs [] (disabled_dir cfg manifest) (st_fs st)) as [r fs'] eqn:E. simpl.
    split_and!; [done..|]. apply FsFacts.mkdirs_grows in E.
    eapply FsFacts.grows_under_weaken; [|exact E].
    intros x ->%list_elem_of_singleton. apply list_elem_of_further, list_elem_of_here.
Qed.

Lemma ensure_directories_ok cfg m st st' :
  ensure_directories cfg (Some m) st = (Ok tt, st') →
  Fs.stat (st_fs st') (mods_dir cfg (Some m)) = Some Dir ∧
  Fs.stat (st_fs st') (disabled_dir cfg (Some m)) = Some Dir.
Proof.
  unfold ensure_directories. intros H.
  apply bind_inv in H as [([] & st1 & H1 & H2)|(e & _ & ?)]; [|done].
  unfold lift_fs, Fs.mkdir_parents in H1, H2.
  destruct (Fs.mkdirs [] (mods_dir cfg (Some m)) (st_fs st)) as [r1 fs1] eqn:E1.
  injection H1 as -> <-. simpl in H2.
  destruct (Fs.mkdirs [] (disabled_dir cfg (Some m)) fs1) as [r2 fs2] eqn:E2.
  injection H2 as -> <-. simpl.
  apply FsFacts.mkdirs_is_dir in E1 as D1; [|done].
  apply FsFacts.mkdirs_is_dir in E2 as D2; [|done]. split; [|done].
  eapply FsFacts.stat_grows; [by eapply FsFacts.mkdirs_grows|done].
Qed.

Lemma ensure_directories_total cfg m st :
  dirs_available cfg m (st_fs st) = true → ∃ st', ensure_directories cfg (Some m) st = (Ok tt, st').
Proof.
  unfold dirs_available. intros [H1 H2]%andb_true_iff.
  destruct (FsFacts.mkdirs_total _ _ _ H1) as [fs1 E1].
  assert (H2' : Fs.clear_path [] (disabled_dir cfg (Some m)) fs1 = true).
  { rewrite <-H2. symmetry. apply FsFacts.clear_path_ext.
    eapply FsFacts.grows_same_files, FsFacts.mkdirs_grows, E1. }
  destruct (FsFacts.mkdirs_total _ _ _ H2') as [fs2 E2].
  exists (mkStore fs2 (st_manifest st) (st_clock st)).
  unfold ensure_directories. erewrite bind_ok.
  2:{ unfold lift_fs, Fs.mkdir_parents. by rewrite E1. }
  unfold lift_fs, Fs.mkdir_parents. simpl. by rewrite E2.
Qed.

Lemma ensure_directories_exist cfg m st :
  dirs_exist cfg m (st_fs st) = true → ensure_directories cfg (Some m) st = (Ok tt, st).
Proof.
  unfold dirs_exist. intros [H1 H2]%andb_true_iff.
  apply FsFacts.mkdirs_all_dirs in H1, H2.
  unfold ensure_directories. erewrite bind_ok.
  2:{ unfold lift_fs, Fs.mkdir_parents. by rewrite H1. }
  unfold lift_fs, Fs.mkdir_parents. simpl. rewrite H2. by destruct st.
Qed.

Lemma sha256_run fs m k p content :
  Fs.stat fs p = Some (File content) →
  _sha256 sha256_hexdigest p (mkStore fs m k) = (Ok (sha256_hexdigest content), mkStore fs m k).
Proof.
  intros H. unfold _sha256, mbind, M_bind, get_fs, lift_res, Fs.read. simpl. by rewrite H.
Qed.

Lemma iter_mod_files_spec d st :
  Fs.stat (st_fs st) d = Some Dir →
  ∃ l, _iter_mod_files d st = (Ok l, st) ∧ NoDup l ∧
       ∀ p, p ∈ l ↔ ∃ n content, p = d ++ [n] ∧ mod_file_at (st_fs st) d n = Some content.
Proof.
  intros Hd. unfold _iter_mod_files, mbind, M_bind, get_fs, lift_res. simpl.
  unfold Fs.exists_. rewrite Hd. rewrite bool_decide_eq_true_2 by eauto. simpl.
  destruct (Fs.iterdir d (st_fs st)) as [l|e] eqn:E.
  2:{ unfold Fs.iterdir in E. by rewrite Hd in E. }
  apply FsFacts.iterdir_spec in E as [Hnd Hin]. eexists. split; [done|]. split.
  - by apply NoDup_filter.
  - intros p. rewrite list_elem_of_filter, Hin, andb_True. unfold mod_file_at, Fs.is_file. split.
    + intros ([Hf Hs] & [n ->] & _). exists n.
      destruct (Fs.stat (st_fs st) (d ++ [n])) as [[content|]|]; simpl in Hf; try done.
      exists content. split; [done|]. by destruct (is_mod_suffix _).
    + intros (n & content & -> & H).
      destruct (Fs.stat (st_fs st) (d ++ [n])) as [[content'|]|] eqn:Hs; try done.
      destruct (is_mod_suffix _); [|done]. split_and!; [done..|by eauto|].
      apply FsFacts.stat_lookup in Hs. eauto.
Qed.

Lemma mod_file_at_name fs d n content :
  mod_file_at fs d n = Some content → name (d ++ [n]) = n.
Proof.
  unfold mod_file_at. destruct (Fs.stat fs (d ++ [n])) as [[c|]|] eqn:E; try done.
  intros _. by eapply FsFacts.name_child.
Qed.

Lemma scan_into_spec d location listing files st :
  NoDup listing →
  (∀ p, p ∈ listing → ∃ n content, p = d ++ [n] ∧ mod_file_at (st_fs st) d n = Some content) →
  ∃ files', scan_into sha256_hexdigest location listing files st = (Ok files', st) ∧
    (NoDup (PyDict.keys files) → NoDup (PyDict.keys files')) ∧
    ∀ n, PyDict.getitem n files' =
         scanned sha256_hexdigest (st_fs st) d location n listing (PyDict.getitem n files).
Proof.
  destruct st as [fs m k]. simpl. revert files.
  induction listing as [|p rest IH]; intros files Hnd Hall.
  - exists files. split_and!; [done..|]. intros n. unfold scanned.
    rewrite bool_decide_eq_false_2; [done|apply not_elem_of_nil].
  - apply NoDup_cons in Hnd as [Hp Hnd].
    destruct (Hall p) as (c & content & -> & Hc); [apply list_elem_of_here|].
    assert (Hstat : Fs.stat fs (d ++ [c]) = Some (File content)).
    { unfold mod_file_at in Hc. destruct (Fs.stat fs (d ++ [c])) as [[x|]|]; try done.
      destruct (is_mod_suffix _); by simplify_eq. }
    simpl. erewrite bind_ok; [|by apply sha256_run].
    rewrite (mod_file_at_name _ _ _ _ Hc).
    edestruct (IH (PyDict.setitem c
                     (mkModFile c (d ++ [c]) location (Some (sha256_hexdigest content))) files))
      as (files' & Hrun & Hkeys & Hget); [done| |].
    { intros p Hin. apply Hall. by apply list_elem_of_further. }
    exists files'. split; [exact Hrun|]. split.
    + intros H. by apply Hkeys, PyDictFacts.NoDup_keys_setitem.
    + intros n. rewrite Hget. unfold scanned.
      destruct (decide (n = c)) as [->|Hne].
      * rewrite (bool_decide_eq_false_2 (d ++ [c] ∈ rest)) by done.
        rewrite bool_decide_eq_true_2 by apply list_elem_of_here.
        by rewrite Hc, PyDictFacts.getitem_setitem_eq.
      * rewrite PyDictFacts.getitem_setitem_ne by done.
        assert (Hiff : d ++ [n] ∈ (d ++ [c]) :: rest ↔ d ++ [n] ∈ rest).
        { rewrite elem_of_cons. split; [|by auto]. intros [Heq|?]; [|done].
          apply app_inj_1 in Heq as [_ Heq]; [|done]. congruence. }
        by rewrite (bool_decide_ext _ _ Hiff).
Qed.

Lemma scan_files_spec cfg m st :
  Fs.stat (st_fs st) (mods_dir cfg (Some m)) = Some Dir →
  Fs.stat (st_fs st) (disabled_dir cfg (Some m)) = Some Dir →
  ∃ files, _scan_files sha256_hexdigest cfg m st = (Ok files, st) ∧
    NoDup (PyDict.keys files) ∧
    ∀ n, PyDict.getitem n files =
         scan_lookup sha256_hexdigest (st_fs st)
           (mods_dir cfg (Some m)) (disabled_dir cfg (Some m)) n.
Proof.
  intros Hen Hdis. unfold _scan_files.
  destruct (iter_mod_files_spec _ _ Hen) as (l1 & E1 & Hnd1 & Hin1).
  destruct (iter_mod_files_spec _ _ Hdis) as (l2 & E2 & Hnd2 & Hin2).
  erewrite bind_ok; [|exact E1].
  destruct (scan_into_spec (mods_dir cfg (Some m)) "mods" l1 [] st Hnd1)
    as (f1 & R1 & K1 & G1); [by intros p ?%Hin1|].
  erewrite bind_ok; [|exact R1]. erewrite bind_ok; [|exact E2].
  destruct (scan_into_spec (disabled_dir cfg (Some m)) "mods-disabled" l2 f1 st Hnd2)
    as (f2 & R2 & K2 & G2); [by intros p ?%Hin2|].
  exists f2. split; [exact R2|]. split; [apply K2, K1, NoDup_nil_2|].
  intros n. rewrite G2, G1. unfold scanned, scan_lookup. simpl.
  destruct (mod_file_at (st_fs st) (disabled_dir cfg (Some m)) n) as [c2|] eqn:M2.
  - rewrite bool_decide_eq_true_2; [done|]. apply Hin2. eauto.
  - destruct (mod_file_at (st_fs st) (mods_dir cfg (Some m)) n) as [c1|] eqn:M1.
    + rewrite (bool_decide_eq_true_2 (_ ∈ l1)); [by case_bool_decide|]. apply Hin1. eauto.
    + by repeat case_bool_decide.
Qed.

End Layout.

(** ** The inventory *)

Section InventoryFacts.
Variable sha256_hexdigest : string → string.

Lemma NoDup_keys_consumed names (files : PyDict.t ModFile) :
  NoDup (PyDict.keys files) → NoDup (PyDict.keys (consumed names files)).
Proof.
  revert files. induction names as [|n names IH]; intros files Hnd; simpl; [done|].
  by apply IH, PyDictFacts.NoDup_keys_delitem.
Qed.

Lemma getitem_consumed names (files : PyDict.t ModFile) n :
  NoDup (PyDict.keys files) →
  PyDict.getitem n (consumed names files) =
  if bool_decide (n ∈ names) then None else PyDict.getitem n files.
Proof.
  revert files. induction names as [|k names IH]; intros files Hnd.
  - rewrite bool_decide_eq_false_2; [done|apply not_elem_of_nil].
  - change (consumed (k :: names) files) with (consumed names (PyDict.delitem k files)).
    rewrite IH by by apply PyDictFacts.NoDup_keys_delitem.
    rewrite PyDictFacts.getitem_delitem by done.
    destruct (decide (n = k)) as [->|Hne].
    + rewrite (bool_decide_eq_true_2 (k ∈ k :: names)) by apply list_elem_of_here.
      by case_bool_decide.
    + assert (Hiff : n ∈ k :: names ↔ n ∈ names).
      { rewrite elem_of_cons. split; [by intros [?|?]|by auto]. }
      by rewrite (bool_decide_ext _ _ Hiff).
Qed.

Lemma consumed_snoc names n (files : PyDict.t ModFile) :
  consumed (names ++ [n]) files = PyDict.delitem n (consumed names files).
Proof. unfold consumed. by rewrite foldl_app. Qed.

Lemma match_entry_remaining e (d : PyDict.t ModFile) :
  (match_entry e d).2 = PyDict.delitem (e_filename e) d.
Proof. done. Qed.

Lemma match_entries_cons e mods acc (files : PyDict.t ModFile) :
  match_entries (e :: mods) acc files =
  match_entries mods (acc ++ [(match_entry e files).1]) (PyDict.delitem (e_filename e) files).
Proof. done. Qed.

Lemma match_entries_spec mods acc files :
  ∃ sts, match_entries mods acc files = (acc ++ sts, consumed (e_filename <$> mods) files) ∧
    length sts = length mods ∧
    ∀ i e, mods !! i = Some e →
      sts !! i = Some (match_entry e (consumed (e_filename <$> take i mods) files)).1.
Proof.
  revert acc files. induction mods as [|e0 mods IH]; intros acc files.
  - exists []. by rewrite app_nil_r.
  - destruct (IH (acc ++ [(match_entry e0 files).1]) (PyDict.delitem (e_filename e0) files))
      as (sts & Hrun & Hlen & Hith).
    exists ((match_entry e0 files).1 :: sts). split_and!.
    + rewrite match_entries_cons, Hrun. by rewrite <-app_assoc.
    + simpl. by rewrite Hlen.
    + intros [|i] e Hi; simpl in *; [by injection Hi as <-|]. by apply Hith.
Qed.

Lemma status_match_entry e (d : PyDict.t ModFile) :
  status (match_entry e d).1 = classify (PyDict.getitem (e_filename e) d) e.
Proof.
  unfold match_entry, PyDict.pop, status, classify, expected_location. simpl.
  destruct (PyDict.getitem (e_filename e) d) as [info|]; simpl; [|done].
  destruct (e_enabled e); simpl; destruct (expected_sha256 e); simpl;
    repeat case_bool_decide; simplify_eq; try done; congruence.
Qed.

Lemma status_cases s :
  status s = "missing" ∨ status s = "moved" ∨ status s = "hash-mismatch" ∨ status s = "ok".
Proof. unfold status. repeat (case_match; auto). Qed.

Lemma count_status_total l :
  count_status "ok" l + count_status "missing" l + count_status "moved" l
  + count_status "hash-mismatch" l = length l.
Proof.
  unfold count_status. induction l as [|s l IH]; [done|].
  rewrite !filter_cons. simpl length at 5.
  destruct (status_cases s) as [H|[H|[H|H]]]; rewrite H;
    repeat (case_decide; [try discriminate|try done]); simpl; lia.
Qed.

Lemma mod_file_at_same_files fs fs' d n :
  Fs.same_files fs fs' → mod_file_at fs' d n = mod_file_at fs d n.
Proof.
  intros Hsf. unfold mod_file_at.
  destruct (Fs.stat fs (d ++ [n])) as [[c|]|] eqn:E.
  - apply Hsf in E. by rewrite E.
  - destruct (Fs.stat fs' (d ++ [n])) as [[c|]|] eqn:E'; try done. apply Hsf in E'. congruence.
  - destruct (Fs.stat fs' (d ++ [n])) as [[c|]|] eqn:E'; try done. apply Hsf in E'. congruence.
Qed.

Lemma scan_lookup_same_files fs fs' en dis n :
  Fs.same_files fs fs' →
  scan_lookup sha256_hexdigest fs' en dis n = scan_lookup sha256_hexdigest fs en dis n.
Proof.
  intros Hsf. unfold scan_lookup. by rewrite !(mod_file_at_same_files fs fs').
Qed.

Lemma scan_lookup_filename fs en dis n f :
  scan_lookup sha256_hexdigest fs en dis n = Some f → mf_filename f = n.
Proof.
  unfold scan_lookup. repeat case_match; intros; by simplify_eq.
Qed.

Lemma values_filenames (d : PyDict.t ModFile) :
  (∀ k f, (k, f) ∈ d → mf_filename f = k) → mf_filename <$> PyDict.values d = PyDict.keys d.
Proof.
  unfold PyDict.values, PyDict.keys. induction d as [|[k f] d IH]; intros H; csimpl; [done|].
  rewrite (H k f) by apply list_elem_of_here. f_equal. apply IH.
  intros k' f' Hin. apply H. by apply list_elem_of_further.
Qed.

Lemma filter_unique {A B} `{EqDecision B} (g : A → B) (l : list A) x :
  NoDup (g <$> l) → x ∈ l → filter (λ y, g y = g x) l = [x].
Proof.
  induction l as [|a l IH]; csimpl; intros Hnd Hin; [by apply elem_of_nil in Hin|].
  apply NoDup_cons in Hnd as [Ha Hnd]. rewrite filter_cons.
  apply elem_of_cons in Hin as [->|Hin].
  - rewrite decide_True by done. f_equal.
    apply elem_of_nil_inv. intros y [Hy Hyl]%list_elem_of_filter.
    apply Ha. rewrite <-Hy. by apply list_elem_of_fmap_2.
  - rewrite decide_False; [by apply IH|].
    intros Heq. apply Ha. rewrite Heq. by apply list_elem_of_fmap_2.
Qed.

Lemma filter_absent {A B} `{EqDecision B} (g : A → B) (l : list A) b :
  b ∉ g <$> l → filter (λ y, g y = b) l = [].
Proof.
  intros Hb. apply elem_of_nil_inv. intros y [Hy Hyl]%list_elem_of_filter.
  apply Hb. rewrite <-Hy. by apply list_elem_of_fmap_2.
Qed.

(** What a run of [inventory] returns and leaves behind *)
Lemma inventory_spec cfg st :
  let m := st_manifest st in
  let lookup := scan_lookup sha256_hexdigest (st_fs st)
                  (mods_dir cfg (Some m)) (disabled_dir cfg (Some m)) in
  dirs_available cfg m (st_fs st) = true →
  ∃ inv st', inventory sha256_hexdigest cfg st = (Ok inv, st') ∧
    ensure_directories cfg (Some m) st = (Ok tt, st') ∧
    length (entries inv) = length (m_mods m) ∧
    (∀ i e, m_mods m !! i = Some e →
       ∃ s, entries inv !! i = Some s ∧ s_entry s = e ∧
            s_present s = bool_decide (is_Some (matched_file sha256_hexdigest (st_fs st) cfg m i e)) ∧
            s_location s = mf_location <$> matched_file sha256_hexdigest (st_fs st) cfg m i e ∧
            status s = classify (matched_file sha256_hexdigest (st_fs st) cfg m i e) e) ∧
    NoDup (mf_filename <$> extras inv) ∧
    (∀ f, f ∈ extras inv ↔ ((mf_filename f ∉ filenames m) ∧ lookup (mf_filename f) = Some f)).
Proof.
  intros m lookup Hav.
  destruct (ensure_directories_total cfg m st Hav) as [st1 E1].
  pose proof (ensure_directories_only_mkdirs cfg (Some m) st) as Hgrow.
  unfold keeps in Hgrow. rewrite E1 in Hgrow. destruct Hgrow as (Hm1 & Hc1 & Hg). simpl in Hm1, Hc1, Hg.
  apply ensure_directories_ok in E1 as Hdirs. destruct Hdirs as [Hen Hdis].
  destruct (scan_files_spec sha256_hexdigest cfg m st1 Hen Hdis) as (files & E2 & Hnd & Hget).
  assert (Hlook : ∀ n, PyDict.getitem n files = lookup n).
  { intros n. rewrite Hget. apply scan_lookup_same_files.
    eapply FsFacts.grows_same_files, Hg. }
  destruct (match_entries_spec (m_mods m) [] files) as (sts & E3 & Hlen & Hith).
  exists (mkInventory sts (PyDict.values (consumed (e_filename <$> m_mods m) files))).
  exists st1.
  split_and!.
  - unfold inventory. erewrite bind_ok; [|reflexivity]. fold m.
    erewrite bind_ok; [|exact E1]. erewrite bind_ok; [|exact E2]. by rewrite E3.
  - done.
  - done.
  - intros i e Hi.
    exists ((match_entry e (consumed (e_filename <$> take i (m_mods m)) files)).1).
    split; [by apply Hith|]. split; [done|].
    assert (Hpop : PyDict.getitem (e_filename e)
                     (consumed (e_filename <$> take i (m_mods m)) files)
                   = matched_file sha256_hexdigest (st_fs st) cfg m i e).
    { rewrite getitem_consumed by done. unfold matched_file. by rewrite Hlook. }
    split_and!.
    + unfold match_entry, PyDict.pop. simpl. by rewrite Hpop.
    + unfold match_entry, PyDict.pop. simpl. by rewrite Hpop.
    + by rewrite status_match_entry, Hpop.
  - simpl. rewrite values_filenames; [by apply NoDup_keys_consumed|].
    intros k f Hin. apply PyDictFacts.elem_getitem in Hin; [|by apply NoDup_keys_consumed].
    rewrite getitem_consumed in Hin by done. case_bool_decide; [done|].
    rewrite Hlook in Hin. by eapply scan_lookup_filename.
  - intros f. simpl. unfold PyDict.values. rewrite list_elem_of_fmap. split.
    + intros ([k f'] & -> & Hin). simpl.
      apply PyDictFacts.elem_getitem in Hin; [|by apply NoDup_keys_consumed].
      rewrite getitem_consumed in Hin by done. case_bool_decide as Hk; [done|].
      rewrite Hlook in Hin. apply scan_lookup_filename in Hin as Hname. by subst k.
    + intros [Hk Hf]. exists (mf_filename f, f). split; [done|].
      apply PyDictFacts.getitem_Some_elem. rewrite getitem_consumed by done.
      rewrite bool_decide_eq_false_2 by done. by rewrite Hlook.
Qed.

End InventoryFacts.

(** ** Frame properties *)

Section Frame.
Variable sha256_hexdigest : string → string.
Variable model_dump_json : ModManifest → string.
Variable model_validate_json : string → res ModManifest.
Variable shutil_move : Path → Path → FS → res unit * FS.

Lemma sha256_readonly p : maintains eq (_sha256 sha256_hexdigest p).
Proof.
  unfold _sha256. apply maintains_bind; [apply _|apply maintains_get_fs; apply _|intros fs].
  apply maintains_bind; [apply _|apply maintains_lift_res; apply _|intros c].
  apply maintains_ret; apply _.
Qed.

Lemma iter_mod_files_readonly d : maintains eq (_iter_mod_files d).
Proof.
  unfold _iter_mod_files. apply maintains_bind; [apply _|apply maintains_get_fs; apply _|intros fs].
  destruct (negb _); [apply maintains_ret; apply _|].
  apply maintains_bind; [apply _|apply maintains_lift_res; apply _|intros l].
  apply maintains_ret; apply _.
Qed.

Lemma scan_into_readonly location listing files :
  maintains eq (scan_into sha256_hexdigest location listing files).
Proof.
  revert files. induction listing as [|p rest IH]; intros files; simpl.
  - apply maintains_ret; apply _.
  - apply maintains_bind; [apply _|apply sha256_readonly|intros digest]. apply IH.
Qed.

Lemma scan_files_readonly cfg m : maintains eq (_scan_files sha256_hexdigest cfg m).
Proof.
  unfold _scan_files.
  apply maintains_bind; [apply _|apply iter_mod_files_readonly|intros l1].
  apply maintains_bind; [apply _|apply scan_into_readonly|intros f1].
  apply maintains_bind; [apply _|apply iter_mod_files_readonly|intros l2].
  apply scan_into_readonly.
Qed.

Lemma inventory_only_mkdirs cfg st :
  only_mkdirs [mods_dir cfg (Some (st_manifest st)); disabled_dir cfg (Some (st_manifest st))]
    st (inventory sha256_hexdigest cfg st).2.
Proof.
  unfold inventory. rewrite (bind_ok get_manifest _ st (st_manifest st) st) by done.
  generalize (st_manifest st) at 1 2 3 4 5. intros m. revert st.
  apply maintains_bind; [apply _|apply ensure_directories_only_mkdirs|intros _].
  apply maintains_bind; [apply _| |intros files].
  - eapply maintains_weaken; [|apply scan_files_readonly]. by intros st st' <-.
  - destruct (match_entries _ _ _). apply maintains_ret; apply _.
Qed.

Lemma inventory_readonly_when_dirs_exist cfg st :
  dirs_exist cfg (st_manifest st) (st_fs st) = true →
  (inventory sha256_hexdigest cfg st).2 = st.
Proof.
  intros Hex. unfold inventory. rewrite (bind_ok get_manifest _ st (st_manifest st) st) by done.
  erewrite bind_ok; [|by apply ensure_directories_exist].
  pose proof (scan_files_readonly cfg (st_manifest st) st) as Hro. unfold keeps in Hro.
  unfold mbind, M_bind. destruct (_scan_files _ _ _ st) as [[files|e] st1]; simpl in Hro; subst st1.
  - by destruct (match_entries _ _ _).
  - done.
Qed.

(** ** Saving and loading the manifest *)

Lemma manifest_path_parts cfg : manifest_path cfg = data_dir cfg ++ ["mods"; ".mscmods.json"].
Proof. unfold manifest_path, joinpath. simpl. by rewrite <-app_assoc. Qed.

Lemma manifest_path_parent cfg : parent (manifest_path cfg) = data_dir cfg ++ ["mods"].
Proof.
  rewrite manifest_path_parts. unfold parent.
  replace (data_dir cfg ++ ["mods"; ".mscmods.json"])
    with ((data_dir cfg ++ ["mods"]) ++ [".mscmods.json"]) by by rewrite <-app_assoc.
  rewrite removelast_last.
  destruct (data_dir cfg ++ ["mods"]) as [|a [|b l]] eqn:E; simpl; try done.
Qed.

Lemma stat_manifest_path cfg fs : Fs.stat fs (manifest_path cfg) = fs !! manifest_path cfg.
Proof.
  rewrite manifest_path_parts. destruct (data_dir cfg) as [|a [|b l]]; simpl; try done.
Qed.

Lemma save_manifest_spec cfg st :
  Fs.clear_path [] (parent (manifest_path cfg)) (st_fs st) = true →
  Fs.is_dir (st_fs st) (manifest_path cfg) = false →
  ∃ fs1, Fs.grows_under [parent (manifest_path cfg)] (st_fs st) fs1 ∧
    save_manifest model_dump_json cfg st =
      (Ok tt, mkStore (<[manifest_path cfg := File (model_dump_json (st_manifest st))]> fs1)
                (st_manifest st) (st_clock st)).
Proof.
  intros Hclear Hnd. destruct (FsFacts.mkdirs_total _ _ _ Hclear) as [fs1 E1].
  pose proof (FsFacts.mkdirs_grows _ _ _ _ _ E1) as Hg. simpl in Hg.
  apply FsFacts.mkdirs_is_dir in E1 as Hpar; [|done]. simpl in Hpar.
  exists fs1. split; [done|].
  unfold save_manifest. rewrite (bind_ok get_manifest _ st (st_manifest st) st) by done.
  erewrite bind_ok; [|unfold lift_fs, Fs.mkdir_parents; by rewrite E1].
  unfold lift_fs, Fs.write_text. simpl. rewrite Hpar.
  assert (Hstat : Fs.stat fs1 (manifest_path cfg) ≠ Some Dir).
  { rewrite stat_manifest_path. intros Hd. unfold Fs.is_dir in Hnd.
    rewrite stat_manifest_path in Hnd.
    destruct (st_fs st !! manifest_path cfg) as [x|] eqn:E.
    - apply Hg in E as E'. rewrite E' in Hd. injection Hd as ->. done.
    - destruct Hg as [_ Hnew].
      destruct (Hnew _ _ E Hd) as (_ & d & ->%list_elem_of_singleton & Hpre).
      apply prefix_length in Hpre. rewrite manifest_path_parent, manifest_path_parts in Hpre.
      rewrite !length_app in Hpre. simpl in Hpre. lia. }
  destruct (Fs.stat fs1 (manifest_path cfg)) as [[c|]|]; done.
Qed.

End Frame.

Lemma grows_under_files ds fs fs' p content :
  Fs.grows_under ds fs fs' → fs' !! p = Some (File content) ↔ fs !! p = Some (File content).
Proof.
  intros [Hold Hnew]. split; [|by apply Hold].
  intros Hs. destruct (fs !! p) as [x|] eqn:E.
  - apply Hold in E. congruence.
  - by destruct (Hnew p _ E Hs) as [? _].
Qed.

(** ** The first entry with an id *)

Lemma find_entry_Some mod_id l entry :
  find_entry mod_id l = Some entry ↔
  ∃ i, l !! i = Some entry ∧ e_id entry = mod_id ∧
       ∀ j e, j < i → l !! j = Some e → e_id e ≠ mod_id.
Proof.
  unfold find_entry. induction l as [|x l IH]; simpl.
  - split; [done|]. by intros (i & Hi & _).
  - case_bool_decide as Hx.
    + split.
      * intros [= ->]. exists 0. split_and!; [done..|]. intros j e Hj. lia.
      * intros ([|i] & Hi & Hid & Hfirst); simpl in Hi; [congruence|].
        exfalso. apply (Hfirst 0 x); [lia|done|done].
    + rewrite IH. split.
      * intros (i & Hi & Hid & Hfirst). exists (S i). split_and!; [done..|].
        intros [|j] e Hj He; simpl in He; [congruence|]. apply (Hfirst j); [lia|done].
      * intros ([|i] & Hi & Hid & Hfirst); simpl in Hi; [congruence|].
        exists i. split_and!; [done..|]. intros j e Hj He. apply (Hfirst (S j)); [lia|done].
Qed.

Lemma assign_enabled_first mod_id enabled l i entry :
  l !! i = Some entry → e_id entry = mod_id →
  (∀ j e, j < i → l !! j = Some e → e_id e ≠ mod_id) →
  assign_enabled mod_id enabled l = <[i := set_enabled_flag enabled entry]> l.
Proof.
  revert i. induction l as [|x l IH]; intros i Hi Hid Hfirst; [done|]. simpl.
  destruct i as [|i]; simpl in Hi.
  - injection Hi as ->. by rewrite bool_decide_eq_true_2.
  - rewrite bool_decide_eq_false_2 by (apply (Hfirst 0 x); [lia|done]).
    simpl. f_equal. apply IH; [done..|].
    intros j e Hj He. apply (Hfirst (S j)); [lia|done].
Qed.

(** ** Claims about the frame of the operations *)

Section FrameClaims.
Variable sha256_hexdigest : string → string.
Variable model_dump_json : ModManifest → string.
Variable model_validate_json : string → res ModManifest.
Variable shutil_move : Path → Path → FS → res unit * FS.

(** C6 (as amended). Whether it returns or raises, an inventory leaves the
    manifest as it was, and every file and directory that was on disk is
    still there, unchanged. What it may add are directories: the enabled
    and the disabled directory and their missing ancestors, created by
    [ensure_directories] on entry. When these directories exist already the
    filesystem is left exactly as it was. *)
Theorem inventory_frame cfg st :
  st_manifest (inventory sha256_hexdigest cfg st).2 = st_manifest st ∧
  (∀ p x, st_fs st !! p = Some x → st_fs (inventory sha256_hexdigest cfg st).2 !! p = Some x) ∧
  (∀ p x, st_fs st !! p = None → st_fs (inventory sha256_hexdigest cfg st).2 !! p = Some x →
     x = Dir ∧ (p `prefix_of` mods_dir cfg (Some (st_manifest st)) ∨
                p `prefix_of` disabled_dir cfg (Some (st_manifest st)))) ∧
  (dirs_exist cfg (st_manifest st) (st_fs st) = true →
     (inventory sha256_hexdigest cfg st).2 = st).
Proof.
  destruct (inventory_only_mkdirs sha256_hexdigest cfg st) as (Hm & _ & Hold & Hnew).
  split_and!; [done|done| |apply inventory_readonly_when_dirs_exist].
  intros p x Hn Hs. destruct (Hnew p x Hn Hs) as (-> & d & Hd & Hp). split; [done|].
  apply elem_of_cons in Hd as [->|Hd]; [by left|].
  apply list_elem_of_singleton in Hd as ->. by right.
Qed.

(** C7. Enabling an entry that is already enabled (and disabling one that
    is already disabled) returns the entry and does nothing beyond the
    [ensure_directories] every operation starts with: the manifest object is
    unchanged, no file is moved, removed, created or rewritten (the
    manifest file included), and with both directories in place the store is
    left exactly as it was. *)
Theorem set_enabled_already_in_state cfg st mod_id enabled move_files entry :
  find_entry mod_id (m_mods (st_manifest st)) = Some entry →
  e_enabled entry = enabled →
  dirs_available cfg (st_manifest st) (st_fs st) = true →
  ∃ st', set_enabled model_dump_json shutil_move cfg mod_id enabled move_files st
         = (Ok entry, st') ∧
    st_manifest st' = st_manifest st ∧
    (∀ p x, st_fs st !! p = Some x → st_fs st' !! p = Some x) ∧
    (∀ p content, st_fs st' !! p = Some (File content) → st_fs st !! p = Some (File content)) ∧
    (dirs_exist cfg (st_manifest st) (st_fs st) = true → st' = st).
Proof.
  intros Hfind Hen Hav.
  destruct (ensure_directories_total cfg _ st Hav) as [st1 E1].
  pose proof (ensure_directories_only_mkdirs cfg (Some (st_manifest st)) st) as Hgrow.
  unfold keeps in Hgrow. rewrite E1 in Hgrow. destruct Hgrow as (Hm1 & Hc1 & Hold & Hnew). simpl in *.
  exists st1. split_and!; [|done|done| |].
  - unfold set_enabled. rewrite (bind_ok get_manifest _ st (st_manifest st) st) by done.
    erewrite bind_ok; [|exact E1].
    erewrite bind_ok.
    2:{ unfold find. rewrite (bind_ok get_manifest _ st1 (st_manifest st1) st1) by done.
        rewrite Hm1, Hfind. done. }
    by rewrite bool_decide_eq_true_2.
  - intros p content Hs. by apply (grows_under_files _ _ _ p content (conj Hold Hnew)).
  - intros Hex. apply ensure_directories_exist in Hex. congruence.
Qed.

(** C8. Enabling or disabling an entry whose file is not in the source
    directory succeeds: the result is the entry with its flag set to the
    requested value and every other field as it was, the manifest holds that
    entry in place of the old one (the first entry with the id) and is
    otherwise unchanged, the manifest file holds the updated manifest, and no
    other file appears, disappears or changes. (The hypotheses on the
    filesystem say that nothing stands in the way of the directories and of
    the manifest file.) *)
Theorem set_enabled_missing_file cfg st mod_id (enabled move_files : bool) entry :
  let src_dir := if enabled then disabled_dir cfg (Some (st_manifest st))
                 else mods_dir cfg (Some (st_manifest st)) in
  let st1 := (ensure_directories cfg (Some (st_manifest st)) st).2 in
  let flipped :=
    {| e_id := e_id entry; e_name := e_name entry; e_side := e_side entry;
       e_enabled := enabled; e_filename := e_filename entry; e_source := e_source entry;
       e_version := e_version entry; e_mc_version := e_mc_version entry;
       e_loader := e_loader entry; e_installed_at := e_installed_at entry;
       e_hashes := e_hashes entry; e_notes := e_notes entry |} in
  find_entry mod_id (m_mods (st_manifest st)) = Some entry →
  e_enabled entry ≠ enabled →
  dirs_available cfg (st_manifest st) (st_fs st) = true →
  Fs.exists_ (st_fs st1) (joinpath src_dir (e_filename entry)) = false →
  Fs.clear_path [] (parent (manifest_path cfg)) (st_fs st1) = true →
  Fs.is_dir (st_fs st1) (manifest_path cfg) = false →
  ∃ st' i,
    set_enabled model_dump_json shutil_move cfg mod_id enabled move_files st
      = (Ok flipped, st') ∧
    e_enabled flipped = enabled ∧
    m_mods (st_manifest st) !! i = Some entry ∧
    (∀ j e, j < i → m_mods (st_manifest st) !! j = Some e → e_id e ≠ mod_id) ∧
    st_manifest st' =
      {| m_schema_version := m_schema_version (st_manifest st);
         m_loader := m_loader (st_manifest st);
         m_minecraft_version := m_minecraft_version (st_manifest st);
         m_mods_dir := m_mods_dir (st_manifest st);
         m_mods := <[i := flipped]> (m_mods (st_manifest st)) |} ∧
    m_mods (st_manifest st') !! i = Some flipped ∧
    (∀ j e, j < i → m_mods (st_manifest st') !! j = Some e → e_id e ≠ mod_id) ∧
    st_fs st' !! manifest_path cfg = Some (File (model_dump_json (st_manifest st'))) ∧
    (∀ p content, p ≠ manifest_path cfg →
       st_fs st' !! p = Some (File content) ↔ st_fs st !! p = Some (File content)).
Proof.
  intros src_dir st1 flipped Hfind Hne Hav Hsrc Hclear Hnd.
  assert (Hflip : set_enabled_flag enabled entry = flipped) by done.
  apply find_entry_Some in Hfind as Hfirst. destruct Hfirst as (i & Hi & Hid & Hfirst).
  pose proof (assign_enabled_first mod_id enabled _ i entry Hi Hid Hfirst) as Hassign.
  rewrite Hflip in Hassign.
  destruct (ensure_directories_total cfg _ st Hav) as [st1' E1].
  assert (st1 = st1') as Hst1 by (unfold st1; by rewrite E1). clearbody st1. subst st1'.
  pose proof (ensure_directories_only_mkdirs cfg (Some (st_manifest st)) st) as Hgrow.
  unfold keeps in Hgrow. rewrite E1 in Hgrow.
  destruct Hgrow as (Hm1 & Hc1 & Hg1). simpl in Hm1, Hc1, Hg1.
  set (m' := with_mods (assign_enabled mod_id enabled (m_mods (st_manifest st))) (st_manifest st)).
  destruct (save_manifest_spec model_dump_json cfg (mkStore (st_fs st1) m' (st_clock st1)))
    as (fs2 & Hg2 & Esave); [done..|]. simpl in Hg2, Esave.
  eexists _, i. split_and!.
  - unfold set_enabled. rewrite (bind_ok get_manifest _ st (st_manifest st) st) by done.
    erewrite bind_ok; [|exact E1].
    erewrite bind_ok.
    2:{ unfold find. rewrite (bind_ok get_manifest _ st1 (st_manifest st1) st1) by done.
        rewrite Hm1, Hfind. done. }
    rewrite bool_decide_eq_false_2 by done.
    erewrite bind_ok.
    2:{ destruct move_files; [|done].
        rewrite (bind_ok get_fs _ st1 (st_fs st1) st1) by done.
        fold src_dir. rewrite Hsrc. done. }
    rewrite (bind_ok get_manifest _ st1 (st_manifest st1) st1) by done.
    erewrite bind_ok; [|done]. rewrite Hm1. fold m'.
    erewrite bind_ok; [|exact Esave]. by rewrite Hflip.
  - done.
  - done.
  - done.
  - simpl. unfold m', with_mods. by rewrite Hassign.
  - simpl. rewrite Hassign. apply list_lookup_insert_eq. by eapply lookup_lt_Some.
  - simpl. rewrite Hassign. intros j e Hj He.
    rewrite list_lookup_insert_ne in He by lia. by apply (Hfirst j).
  - simpl. apply lookup_insert_eq.
  - intros p content Hp. simpl. rewrite lookup_insert_ne by done.
    rewrite (grows_under_files _ _ _ p content Hg2). apply (grows_under_files _ _ _ p content Hg1).
Qed.

End FrameClaims.

(** ** Claims about the inventory *)

Section InventoryClaims.
Variable sha256_hexdigest : string → string.

(** C1 (as amended). Every manifest entry gets exactly one of the four
    statuses, in the order missing > moved > hash-mismatch > ok, computed
    from the file the entry is matched to: the record the scan holds for
    its filename, or nothing when no mod file of that name is in either
    directory or when an earlier entry with the same filename already
    consumed it. No match is "missing"; a match whose location differs from
    the directory the enabled flag calls for is "moved", whatever its hash;
    otherwise, when the entry records a sha256 that is not the empty string
    and that differs from the digest of the file, "hash-mismatch"; otherwise
    "ok". *)
Theorem inventory_classification cfg st :
  dirs_available cfg (st_manifest st) (st_fs st) = true →
  ∃ inv st', inventory sha256_hexdigest cfg st = (Ok inv, st') ∧
    length (entries inv) = length (m_mods (st_manifest st)) ∧
    ∀ i e, m_mods (st_manifest st) !! i = Some e →
      ∃ s, entries inv !! i = Some s ∧ s_entry s = e ∧
        status s ∈ ["missing"; "moved"; "hash-mismatch"; "ok"] ∧
        status s =
          match matched_file sha256_hexdigest (st_fs st) cfg (st_manifest st) i e with
          | None => "missing"
          | Some info =>
              if negb (bool_decide
                         (mf_location info = if e_enabled e then "mods" else "mods-disabled"))
              then "moved"
              else match e_hashes e ≫= sha256 with
                   | Some recorded =>
                       if bool_decide (recorded ≠ "")
                          && negb (bool_decide (mf_sha256 info = Some recorded))
                       then "hash-mismatch" else "ok"
                   | None => "ok"
                   end
          end.
Proof.
  intros Hav. destruct (inventory_spec sha256_hexdigest cfg st Hav)
    as (inv & st' & Hrun & _ & Hlen & Hith & _).
  exists inv, st'. split_and!; [done..|].
  intros i e Hi. destruct (Hith i e Hi) as (s & Hs & He & _ & _ & Hstatus).
  exists s. split_and!; [done..| |].
  - destruct (status_cases s) as [H|[H|[H|H]]]; rewrite H; set_solver.
  - rewrite Hstatus. unfold classify, expected_location, expected_sha256.
    destruct (matched_file _ _ _ _ _ _) as [info|]; [|done].
    destruct (negb (bool_decide (mf_location info = _))); [done|].
    destruct (e_hashes e) as [h|]; simpl; [|done].
    destruct (sha256 h) as [recorded|]; simpl; [|done].
    unfold PyStr.nonempty. destruct (decide (recorded = "")) as [->|Hne].
    + done.
    + rewrite (bool_decide_eq_false_2 (recorded = "")) by done. simpl.
      by rewrite (bool_decide_eq_true_2 (recorded ≠ "")).
Qed.

(** C2. When a filename is a mod file of both directories, the mapping the
    scan builds holds the disabled directory's file under that name, with
    location "mods-disabled" and the hash of that file's content: the loop
    over the enabled directory stored the enabled file first and the loop
    over the disabled directory overwrote it. *)
Theorem scan_files_collision_disabled_wins cfg m st n content_enabled content_disabled :
  Fs.stat (st_fs st) (mods_dir cfg (Some m)) = Some Dir →
  Fs.stat (st_fs st) (disabled_dir cfg (Some m)) = Some Dir →
  mod_file_at (st_fs st) (mods_dir cfg (Some m)) n = Some content_enabled →
  mod_file_at (st_fs st) (disabled_dir cfg (Some m)) n = Some content_disabled →
  (∃ listing files, _iter_mod_files (mods_dir cfg (Some m)) st = (Ok listing, st) ∧
     scan_into sha256_hexdigest "mods" listing [] st = (Ok files, st) ∧
     PyDict.getitem n files =
       Some {| mf_filename := n; mf_path := mods_dir cfg (Some m) ++ [n];
               mf_location := "mods";
               mf_sha256 := Some (sha256_hexdigest content_enabled) |}) ∧
  ∃ files, _scan_files sha256_hexdigest cfg m st = (Ok files, st) ∧
     PyDict.getitem n files =
       Some {| mf_filename := n; mf_path := disabled_dir cfg (Some m) ++ [n];
               mf_location := "mods-disabled";
               mf_sha256 := Some (sha256_hexdigest content_disabled) |}.
Proof.
  intros Hen Hdis Mn Md. split.
  - destruct (iter_mod_files_spec _ _ Hen) as (l1 & E1 & Hnd1 & Hin1).
    destruct (scan_into_spec sha256_hexdigest (mods_dir cfg (Some m)) "mods" l1 [] st Hnd1)
      as (f1 & R1 & _ & G1); [by intros p ?%Hin1|].
    exists l1, f1. split_and!; [done..|]. rewrite G1. unfold scanned.
    rewrite bool_decide_eq_true_2; [by rewrite Mn|]. apply Hin1. eauto.
  - destruct (scan_files_spec sha256_hexdigest cfg m st Hen Hdis) as (files & E & _ & Hget).
    exists files. split; [done|]. rewrite Hget. unfold scan_lookup. by rewrite Md.
Qed.

(** C3 (as amended). The four status counts of the summary add up to the
    number of manifest entries. A filename that no entry names and that is a
    mod file of at least one directory appears exactly once in the extras:
    with the disabled directory when a file of that name is there, with the
    enabled directory otherwise. A filename that is in neither directory, or
    that some entry names, does not appear. *)
Theorem inventory_totals_and_extras cfg st :
  dirs_available cfg (st_manifest st) (st_fs st) = true →
  ∃ inv st', inventory sha256_hexdigest cfg st = (Ok inv, st') ∧
    ok (summary inv) + missing (summary inv) + moved (summary inv)
      + hash_mismatch (summary inv) = length (m_mods (st_manifest st)) ∧
    total (summary inv) = length (m_mods (st_manifest st)) ∧
    (∀ n, n ∈ filenames (st_manifest st) →
          filter (λ x, mf_filename x = n) (extras inv) = []) ∧
    (∀ n, n ∉ filenames (st_manifest st) →
          filter (λ x, mf_filename x = n) (extras inv) =
          match scan_lookup sha256_hexdigest (st_fs st)
                  (mods_dir cfg (Some (st_manifest st)))
                  (disabled_dir cfg (Some (st_manifest st))) n with
          | Some f => [f]
          | None => []
          end).
Proof.
  intros Hav. destruct (inventory_spec sha256_hexdigest cfg st Hav)
    as (inv & st' & Hrun & _ & Hlen & _ & Hnd & Hex).
  exists inv, st'. split_and!; [done| | | |].
  - unfold summary. simpl. rewrite count_status_total. done.
  - done.
  - intros n Hn. apply filter_absent. intros (f & Hf & Hin)%list_elem_of_fmap_1.
    apply Hex in Hin as [Hno _]. by rewrite <-Hf in Hno.
  - intros n Hn.
    destruct (scan_lookup _ _ _ _ n) as [f|] eqn:E.
    + apply scan_lookup_filename in E as Hname. subst n.
      apply (filter_unique mf_filename); [done|]. apply Hex. done.
    + apply filter_absent. intros (f & Hf & Hin)%list_elem_of_fmap_1.
      apply Hex in Hin as [_ Hl]. rewrite <-Hf in Hl. congruence.
Qed.

(** C10. When several entries share a filename and one mod file of that
    name is on disk (in one of the two directories), the earliest of these
    entries in manifest order is matched to the file, every later entry
    with the filename is "missing", and the file is not an extra. *)
Theorem inventory_duplicate_filename_first_wins cfg st i e n content :
  dirs_available cfg (st_manifest st) (st_fs st) = true →
  m_mods (st_manifest st) !! i = Some e →
  e_filename e = n →
  n ∉ e_filename <$> take i (m_mods (st_manifest st)) →
  (mod_file_at (st_fs st) (mods_dir cfg (Some (st_manifest st))) n = Some content ∧
   mod_file_at (st_fs st) (disabled_dir cfg (Some (st_manifest st))) n = None) ∨
  (mod_file_at (st_fs st) (mods_dir cfg (Some (st_manifest st))) n = None ∧
   mod_file_at (st_fs st) (disabled_dir cfg (Some (st_manifest st))) n = Some content) →
  ∃ inv st', inventory sha256_hexdigest cfg st = (Ok inv, st') ∧
    (∃ s, entries inv !! i = Some s ∧ s_entry s = e ∧ s_present s = true ∧
          s_location s =
            Some (match mod_file_at (st_fs st) (mods_dir cfg (Some (st_manifest st))) n with
                  | Some _ => "mods"
                  | None => "mods-disabled"
                  end) ∧
          status s ≠ "missing") ∧
    (∀ j e', i < j → m_mods (st_manifest st) !! j = Some e' → e_filename e' = n →
       ∃ s', entries inv !! j = Some s' ∧ s_entry s' = e' ∧ s_present s' = false ∧
             status s' = "missing") ∧
    (∀ f, f ∈ extras inv → mf_filename f ≠ n).
Proof.
  intros Hav Hi Hname Hfirst Hdisk.
  destruct (inventory_spec sha256_hexdigest cfg st Hav)
    as (inv & st' & Hrun & _ & Hlen & Hith & Hnd & Hex).
  exists inv, st'. split_and!; [done| | |].
  - destruct (Hith i e Hi) as (s & Hs & He & Hp & Hl & Hst).
    assert (Hm : ∃ f, matched_file sha256_hexdigest (st_fs st) cfg (st_manifest st) i e = Some f ∧
                      mf_location f =
                        match mod_file_at (st_fs st) (mods_dir cfg (Some (st_manifest st))) n with
                        | Some _ => "mods"
                        | None => "mods-disabled"
                        end).
    { unfold matched_file. rewrite Hname, (bool_decide_eq_false_2 _ Hfirst).
      unfold scan_lookup. destruct Hdisk as [[H1 H2]|[H1 H2]]; rewrite H1, H2; eauto. }
    destruct Hm as (f & Hm & Hloc). rewrite Hm in Hp, Hl, Hst.
    exists s. split_and!; [done..| | |].
    + rewrite Hp. by apply bool_decide_eq_true_2.
    + rewrite Hl. simpl. by rewrite Hloc.
    + rewrite Hst. unfold classify. repeat case_match; done.
  - intros j e' Hij Hj Hn'.
    destruct (Hith j e' Hj) as (s & Hs & He & Hp & Hl & Hst).
    assert (Hm : matched_file sha256_hexdigest (st_fs st) cfg (st_manifest st) j e' = None).
    { unfold matched_file. rewrite bool_decide_eq_true_2; [done|].
      rewrite Hn', <-Hname. apply list_elem_of_fmap_2. apply elem_of_take. eauto. }
    exists s. split_and!; [done..| |].
    + by rewrite Hp, Hm.
    + by rewrite Hst, Hm.
  - intros f Hf Heq. apply Hex in Hf as [Hno _]. apply Hno. rewrite Heq, <-Hname.
    apply list_elem_of_fmap_2. by eapply list_elem_of_lookup_2.
Qed.

End InventoryClaims.

(** C1, counterexample to the claim as stated. Two entries name [a.jar]
    and one copy of it sits in the enabled directory. For the second entry
    the filename is found in the directory its enabled flag calls for and no
    hash is recorded, which the claim classifies "ok"; the inventory reports
    it "missing", the first entry having consumed the file. And the entry of
    [d.jar] records a sha256 (the empty string) that differs from the
    observed one, which the claim classifies "hash-mismatch"; the inventory
    reports it "ok", an empty digest counting as none. *)
Lemma inventory_classification_counterexample :
  ∃ inv e s e' s',
    (inventory Sample.sha Sample.cfg Sample.dup_store).1 = Ok inv ∧
    mods_dir Sample.cfg (Some (st_manifest Sample.dup_store)) = Sample.enabled_dir ∧
    (m_mods (st_manifest Sample.dup_store) !! 1 = Some e ∧
     entries inv !! 1 = Some s ∧
     mod_file_at (st_fs Sample.dup_store) Sample.enabled_dir (e_filename e) = Some "AAA" ∧
     e_enabled e = true ∧ e_hashes e = None ∧
     status s = "missing") ∧
    (m_mods (st_manifest Sample.dup_store) !! 4 = Some e' ∧
     entries inv !! 4 = Some s' ∧
     mod_file_at (st_fs Sample.dup_store) Sample.enabled_dir (e_filename e') = Some "DDD" ∧
     e_enabled e' = true ∧ (e_hashes e' ≫= sha256) = Some "" ∧
     Sample.sha "DDD" = "sha256:DDD" ∧
     status s' = "ok").
Proof. do 5 eexists. split_and!; vm_compute; reflexivity. Qed.

(** C1, witness: the sample manifest of five entries on the sample disk.
    The first entry of [a.jar] is "ok" and the second "missing"; [b.jar]
    does not have the recorded digest; [c.zip] is in the other directory
    (and does not have the recorded digest either); the recorded digest of
    [d.jar] is empty. *)
Lemma inventory_classification_witness :
  dirs_available Sample.cfg (st_manifest Sample.dup_store) (st_fs Sample.dup_store) = true ∧
  ∃ inv st', inventory Sample.sha Sample.cfg Sample.dup_store = (Ok inv, st') ∧
    length (entries inv) = 5 ∧
    ∃ s0 s1 s2 s3 s4,
      entries inv = [s0; s1; s2; s3; s4] ∧
      status s0 = "ok" ∧ status s1 = "missing" ∧ status s2 = "hash-mismatch" ∧
      status s3 = "moved" ∧ status s4 = "ok".
Proof.
  split; [reflexivity|].
  destruct (inventory_classification Sample.sha Sample.cfg Sample.dup_store eq_refl)
    as (inv & st' & Hrun & Hlen & Hith).
  exists inv, st'. split; [exact Hrun|]. split; [exact Hlen|].
  destruct (Hith 0 _ eq_refl) as (s0 & H0 & _ & _ & E0).
  destruct (Hith 1 _ eq_refl) as (s1 & H1 & _ & _ & E1).
  destruct (Hith 2 _ eq_refl) as (s2 & H2 & _ & _ & E2).
  destruct (Hith 3 _ eq_refl) as (s3 & H3 & _ & _ & E3).
  destruct (Hith 4 _ eq_refl) as (s4 & H4 & _ & _ & E4).
  exists s0, s1, s2, s3, s4. split; [|split_and!; [exact E0|exact E1|exact E2|exact E3|exact E4]].
  destruct (entries inv) as [|x0 [|x1 [|x2 [|x3 [|x4 [|x5 l]]]]]]; try discriminate Hlen.
  simpl in H0, H1, H2, H3, H4. congruence.
Defined.

(** C2, witness: [a.jar] in both directories of the sample disk. *)
Lemma scan_files_collision_disabled_wins_witness :
  mod_file_at (st_fs Sample.both_store) Sample.enabled_dir "a.jar" = Some "AAA" ∧
  mod_file_at (st_fs Sample.both_store) Sample.disabled_dir "a.jar" = Some "BBB" ∧
  ∃ files,
    _scan_files Sample.sha Sample.cfg (st_manifest Sample.both_store) Sample.both_store
    = (Ok files, Sample.both_store) ∧
    PyDict.getitem "a.jar" files =
      Some (mkModFile "a.jar" (Sample.disabled_dir ++ ["a.jar"]) "mods-disabled"
              (Some "sha256:BBB")).
Proof.
  split; [reflexivity|]. split; [reflexivity|].
  apply (scan_files_collision_disabled_wins Sample.sha Sample.cfg
           (st_manifest Sample.both_store) Sample.both_store "a.jar" "AAA" "BBB");
    reflexivity.
Defined.

(** C3, counterexample to the claim as stated. [a.jar] is a mod file of
    both directories and no entry names it: the extras hold it once, with
    the disabled directory; the file in the enabled directory is on disk,
    matched to no entry, and not reported. *)
Lemma inventory_extras_collision_hides_enabled_file :
  ∃ inv,
    (inventory Sample.sha Sample.cfg Sample.both_store).1 = Ok inv ∧
    mods_dir Sample.cfg (Some (st_manifest Sample.both_store)) = Sample.enabled_dir ∧
    mod_file_at (st_fs Sample.both_store) Sample.enabled_dir "a.jar" = Some "AAA" ∧
    filenames (st_manifest Sample.both_store) = [] ∧
    extras inv = [mkModFile "a.jar" (Sample.disabled_dir ++ ["a.jar"]) "mods-disabled"
                    (Some "sha256:BBB")] ∧
    filter (λ f, mf_location f = "mods") (extras inv) = [].
Proof. eexists. split_and!; vm_compute; reflexivity. Qed.

(** C3, witness: the unmatched [a.jar] of the sample disk is listed once. *)
Lemma inventory_totals_and_extras_witness :
  dirs_available Sample.cfg (st_manifest Sample.both_store) (st_fs Sample.both_store) = true ∧
  ∃ inv st', inventory Sample.sha Sample.cfg Sample.both_store = (Ok inv, st') ∧
    filter (λ x, mf_filename x = "a.jar") (extras inv) =
      [mkModFile "a.jar" (Sample.disabled_dir ++ ["a.jar"]) "mods-disabled"
         (Some "sha256:BBB")].
Proof.
  split; [reflexivity|].
  destruct (inventory_totals_and_extras Sample.sha Sample.cfg Sample.both_store eq_refl)
    as (inv & st' & Hrun & _ & _ & _ & Hex).
  exists inv, st'. split; [exact Hrun|]. apply (Hex "a.jar"). apply not_elem_of_nil.
Defined.

(** C10, witness: the two sample entries that name [a.jar]. *)
Lemma inventory_duplicate_filename_first_wins_witness :
  dirs_available Sample.cfg (st_manifest Sample.dup_store) (st_fs Sample.dup_store) = true ∧
  ∃ inv st', inventory Sample.sha Sample.cfg Sample.dup_store = (Ok inv, st') ∧
    (∃ s, entries inv !! 0 = Some s ∧ s_present s = true ∧ s_location s = Some "mods") ∧
    (∃ s', entries inv !! 1 = Some s' ∧ status s' = "missing") ∧
    (∀ f, f ∈ extras inv → mf_filename f ≠ "a.jar").
Proof.
  split; [reflexivity|].
  destruct (inventory_duplicate_filename_first_wins Sample.sha Sample.cfg Sample.dup_store
              0 (Sample.entry "a" "a.jar" true None) "a.jar" "AAA")
    as (inv & st' & Hrun & (s & Hs & _ & Hp & Hl & _) & Hlater & Hex);
    [reflexivity|reflexivity|reflexivity|apply not_elem_of_nil|left; split; reflexivity|].
  exists inv, st'. split; [exact Hrun|]. split; [|split; [|exact Hex]].
  - exists s. split; [exact Hs|]. split; [exact Hp|exact Hl].
  - destruct (Hlater 1 (Sample.entry "a-again" "a.jar" true None))
      as (s' & Hs' & _ & _ & Hst'); [lia|reflexivity|reflexivity|].
    exists s'. split; [exact Hs'|exact Hst'].
Defined.

(** ** Claims about the manifest file and the frame: runs *)

Section StoreClaims.
Variable model_dump_json : ModManifest → string.
Variable model_validate_json : string → res ModManifest.

Lemma save_manifest_inv cfg st st' :
  save_manifest model_dump_json cfg st = (Ok tt, st') →
  ∃ fs1, Fs.grows_under [parent (manifest_path cfg)] (st_fs st) fs1 ∧
    st' = mkStore (<[manifest_path cfg := File (model_dump_json (st_manifest st))]> fs1)
            (st_manifest st) (st_clock st).
Proof.
  unfold save_manifest. rewrite (bind_ok get_manifest _ st (st_manifest st) st) by done.
  intros H. apply bind_inv in H as [([] & st1 & H1 & H2)|(e & _ & ?)]; [|done].
  unfold lift_fs, Fs.mkdir_parents in H1.
  destruct (Fs.mkdirs [] (parent (manifest_path cfg)) (st_fs st)) as [r fs1] eqn:E1.
  injection H1 as -> <-. exists fs1. split; [exact (FsFacts.mkdirs_grows [] _ _ _ _ E1)|].
  unfold lift_fs, Fs.write_text in H2. simpl in H2.
  destruct (Fs.stat fs1 (parent (manifest_path cfg))) as [[c|]|]; try done.
  destruct (Fs.stat fs1 (manifest_path cfg)) as [[c|]|]; by simplify_eq.
Qed.

(** C5 (as amended). The manifest document is saved to and loaded from
    [<dataDir>/mods/.mscmods.json], whatever the manifest's [mods_dir] says:
    the path is computed from the configuration alone, with the default
    directory name. It is [<dataDir>/<modsDir>/.mscmods.json] exactly when
    the directory [<dataDir>/<modsDir>] is the directory [<dataDir>/mods],
    as it is when the manifest's [mods_dir] is the default, "mods" (as in
    every manifest [init_manifest] creates). *)
Theorem manifest_file_location cfg st :
  manifest_path cfg = data_dir cfg ++ ["mods"; ".mscmods.json"] ∧
  (manifest_path cfg = joinpath (mods_dir cfg (Some (st_manifest st))) MANIFEST_FILENAME ↔
   mods_dir cfg (Some (st_manifest st)) = data_dir cfg ++ ["mods"]) ∧
  (m_mods_dir (st_manifest st) = "mods" →
     manifest_path cfg = joinpath (mods_dir cfg (Some (st_manifest st))) MANIFEST_FILENAME) ∧
  (∀ st', save_manifest model_dump_json cfg st = (Ok tt, st') →
     st_fs st' !! manifest_path cfg = Some (File (model_dump_json (st_manifest st))) ∧
     ∀ p content, p ≠ manifest_path cfg →
       st_fs st' !! p = Some (File content) ↔ st_fs st !! p = Some (File content)) ∧
  (Fs.clear_path [] (parent (manifest_path cfg)) (st_fs st) = true →
   Fs.is_dir (st_fs st) (manifest_path cfg) = false →
   ∃ st', save_manifest model_dump_json cfg st = (Ok tt, st')) ∧
  (∀ text, st_fs st !! manifest_path cfg = Some (File text) →
     load_manifest model_validate_json cfg st =
       (match model_validate_json text with
        | Ok manifest =>
            if bool_decide (m_schema_version manifest ≠ SUPPORTED_SCHEMA_VERSION)
            then Raise (ManifestError ("Unsupported manifest schema version " +:+
                                       pretty (m_schema_version manifest) +:+ "."))
            else Ok manifest
        | Raise e => Raise e
        end, st)) ∧
  (st_fs st !! manifest_path cfg = None →
     load_manifest model_validate_json cfg st =
       (Raise (ManifestError "Mods manifest not found. Run 'msc mods init' first."), st)).
Proof.
  split_and!.
  - apply manifest_path_parts.
  - rewrite manifest_path_parts.
    change (joinpath (mods_dir cfg (Some (st_manifest st))) MANIFEST_FILENAME)
      with (mods_dir cfg (Some (st_manifest st)) ++ [".mscmods.json"]).
    change (data_dir cfg ++ ["mods"; ".mscmods.json"])
      with (data_dir cfg ++ ["mods"] ++ [".mscmods.json"]).
    rewrite app_assoc. split; [|by intros ->].
    intros H. symmetry. by apply app_inj_tail in H as [? _].
  - intros Hd. unfold mods_dir, dir_name. by rewrite Hd.
  - intros st' Hsave. apply save_manifest_inv in Hsave as (fs1 & Hg & ->). simpl. split.
    + apply lookup_insert_eq.
    + intros p content Hp. rewrite lookup_insert_ne by done.
      apply (grows_under_files _ _ _ p content Hg).
  - intros Hclear Hnd.
    destruct (save_manifest_spec model_dump_json cfg st Hclear Hnd) as (fs1 & _ & E). eauto.
  - intros text Hfile. unfold load_manifest.
    rewrite (bind_ok get_fs _ st (st_fs st) st) by done.
    unfold Fs.exists_, Fs.read. rewrite stat_manifest_path, Hfile.
    rewrite bool_decide_eq_true_2 by eauto. simpl.
    unfold mbind, M_bind, lift_res. simpl.
    destruct (model_validate_json text) as [manifest|e]; [|done].
    by case_bool_decide.
  - intros Hnone. unfold load_manifest.
    rewrite (bind_ok get_fs _ st (st_fs st) st) by done.
    unfold Fs.exists_. rewrite stat_manifest_path, Hnone.
    rewrite bool_decide_eq_false_2; [done|]. by intros [? ?].
Qed.

End StoreClaims.

(** C5, counterexample to the claim as stated. The manifest's [mods_dir] is
    "plugins"; the manifest is written under [mods], and nothing is written
    under [plugins]. *)
Lemma manifest_path_ignores_mods_dir :
  m_mods_dir (st_manifest Sample.plugins_store) = "plugins" ∧
  joinpath (mods_dir Sample.cfg (Some (st_manifest Sample.plugins_store))) MANIFEST_FILENAME
    = ["/"; "srv"; "data"; "plugins"; ".mscmods.json"] ∧
  manifest_path Sample.cfg = ["/"; "srv"; "data"; "mods"; ".mscmods.json"] ∧
  (save_manifest Sample.dump Sample.cfg Sample.plugins_store).1 = Ok tt ∧
  st_fs (save_manifest Sample.dump Sample.cfg Sample.plugins_store).2
    !! ["/"; "srv"; "data"; "mods"; ".mscmods.json"] = Some (File "{a+}") ∧
  st_fs (save_manifest Sample.dump Sample.cfg Sample.plugins_store).2
    !! ["/"; "srv"; "data"; "plugins"; ".mscmods.json"] = None.
Proof. split_and!; vm_compute; reflexivity. Qed.

(** C5, witness: a manifest whose [mods_dir] is the default. *)
Lemma manifest_file_location_witness :
  m_mods_dir (st_manifest Sample.dup_store) = "mods" ∧
  manifest_path Sample.cfg
  = joinpath (mods_dir Sample.cfg (Some (st_manifest Sample.dup_store))) MANIFEST_FILENAME.
Proof.
  split; [reflexivity|].
  apply (manifest_file_location Sample.dump Sample.validate Sample.cfg Sample.dup_store).
  reflexivity.
Defined.

(** C6, counterexample to the claim as stated. On an empty disk the
    inventory returns normally and leaves the enabled and the disabled
    directory behind. *)
Lemma inventory_creates_directories :
  is_ok (inventory Sample.sha Sample.cfg Sample.blank_store).1 = true ∧
  st_fs Sample.blank_store !! Sample.enabled_dir = None ∧
  st_fs Sample.blank_store !! Sample.disabled_dir = None ∧
  st_fs (inventory Sample.sha Sample.cfg Sample.blank_store).2 !! Sample.enabled_dir
    = Some Dir ∧
  st_fs (inventory Sample.sha Sample.cfg Sample.blank_store).2 !! Sample.disabled_dir
    = Some Dir.
Proof. split_and!; vm_compute; reflexivity. Qed.

(** C6, witness: with both directories in place the store is untouched. *)
Lemma inventory_frame_witness :
  dirs_exist Sample.cfg (st_manifest Sample.dup_store) (st_fs Sample.dup_store) = true ∧
  (inventory Sample.sha Sample.cfg Sample.dup_store).2 = Sample.dup_store.
Proof.
  split; [reflexivity|].
  apply (inventory_frame Sample.sha Sample.cfg Sample.dup_store). reflexivity.
Defined.

(** C7, witness: enabling the sample entry [b], which is enabled. *)
Lemma set_enabled_already_in_state_witness :
  dirs_available Sample.cfg (st_manifest Sample.dup_store) (st_fs Sample.dup_store) = true ∧
  ∃ st', set_enabled Sample.dump Sample.move Sample.cfg "b" true true Sample.dup_store
         = (Ok (Sample.entry "b" "b.jar" true (Some "sha256:other")), st') ∧
    st_manifest st' = st_manifest Sample.dup_store.
Proof.
  split; [reflexivity|].
  destruct (set_enabled_already_in_state Sample.dump Sample.move Sample.cfg Sample.dup_store
              "b" true true (Sample.entry "b" "b.jar" true (Some "sha256:other")))
    as (st' & Hrun & Hm & _); [reflexivity..|].
  exists st'. split; [exact Hrun|exact Hm].
Defined.

(** C8, witness: disabling the sample entry [c], whose file is not in the
    enabled directory, and enabling the sample entry [e], whose file is not
    in the disabled directory. *)
Lemma set_enabled_missing_file_witness :
  Fs.exists_ (st_fs Sample.dup_store) (Sample.enabled_dir ++ ["c.zip"]) = false ∧
  (∃ st', set_enabled Sample.dump Sample.move Sample.cfg "c" false true Sample.dup_store
          = (Ok (Sample.entry "c" "c.zip" false (Some "sha256:other")), st') ∧
     m_mods (st_manifest st') !! 3 = Some (Sample.entry "c" "c.zip" false (Some "sha256:other")) ∧
     st_fs st' !! manifest_path Sample.cfg = Some (File (Sample.dump (st_manifest st')))) ∧
  Fs.exists_ (st_fs Sample.off_store) (Sample.disabled_dir ++ ["e.jar"]) = false ∧
  (∃ st', set_enabled Sample.dump Sample.move Sample.cfg "e" true true Sample.off_store
          = (Ok (Sample.entry "e" "e.jar" true None), st') ∧
     m_mods (st_manifest st') = [Sample.entry "a" "a.jar" true None;
                                 Sample.entry "e" "e.jar" true None] ∧
     st_fs st' !! manifest_path Sample.cfg = Some (File "{a+,e+}")).
Proof.
  split; [reflexivity|]. split; [|split; [reflexivity|]].
  - destruct (set_enabled_missing_file Sample.dump Sample.move Sample.cfg Sample.dup_store
                "c" false true (Sample.entry "c" "c.zip" true (Some "sha256:other")))
      as (st' & i & Hrun & _ & Hi & _ & _ & Hflipped & _ & Hfile & _);
      [reflexivity|discriminate|reflexivity|reflexivity|reflexivity|reflexivity|].
    exists st'. split; [exact Hrun|].
    assert (i = 3) as ->.
    { destruct i as [|[|[|[|[|i]]]]]; simpl in Hi; try discriminate Hi; reflexivity. }
    split; [exact Hflipped|exact Hfile].
  - destruct (set_enabled_missing_file Sample.dump Sample.move Sample.cfg Sample.off_store
                "e" true true (Sample.entry "e" "e.jar" false None))
      as (st' & i & Hrun & _ & Hi & _ & Hm & _ & _ & Hfile & _);
      [reflexivity|discriminate|reflexivity|reflexivity|reflexivity|reflexivity|].
    exists st'. split; [exact Hrun|].
    assert (i = 1) as ->.
    { destruct i as [|[|[|i]]]; simpl in Hi; try discriminate Hi; reflexivity. }
    rewrite Hfile, Hm. split; reflexivity.
Defined.

(** ** Stepping through a computation *)

Lemma keeps_bind {A B} (R : Store → Store → Prop) `{!PreOrder R}
    (c : M A) (k : A → M B) st :
  keeps R c st → (∀ a st1, c st = (Ok a, st1) → keeps R (k a) st1) → keeps R (c ≫= k) st.
Proof.
  unfold keeps, mbind, M_bind. intros Hc Hk.
  destruct (c st) as [[a|e] st1] eqn:E; simpl in *; [|done].
  etrans; [exact Hc|]. by apply Hk.
Qed.

Lemma keeps_get_manifest_bind {B} (R : Store → Store → Prop) (k : ModManifest → M B) st :
  keeps R (k (st_manifest st)) st → keeps R (get_manifest ≫= k) st.
Proof. done. Qed.

Lemma keeps_get_fs_bind {B} (R : Store → Store → Prop) (k : FS → M B) st :
  keeps R (k (st_fs st)) st → keeps R (get_fs ≫= k) st.
Proof. done. Qed.

(** Relations that look at the entries of the manifest only *)
Section ModsOnly.
Context (R : Store → Store → Prop) `{!PreOrder R}.
Hypothesis R_mods : ∀ st st', m_mods (st_manifest st') = m_mods (st_manifest st) → R st st'.

Lemma R_of_same_manifest st st' : st_manifest st' = st_manifest st → R st st'.
Proof. intros H. apply R_mods. by rewrite H. Qed.

Lemma keeps_put_same_mods m' st :
  m_mods m' = m_mods (st_manifest st) → keeps R (put_manifest m') st.
Proof. intros H. unfold keeps. simpl. by apply R_mods. Qed.

Lemma maintains_ensure_directories cfg manifest : maintains R (ensure_directories cfg manifest).
Proof.
  unfold ensure_directories.
  apply maintains_bind; [apply _..|(apply maintains_lift_fs; [apply _..|apply R_of_same_manifest])|intros _].
  apply maintains_lift_fs; [apply _..|apply R_of_same_manifest].
Qed.

Lemma maintains_save_manifest dump cfg : maintains R (save_manifest dump cfg).
Proof.
  unfold save_manifest. apply maintains_bind; [apply _..|apply maintains_get_manifest; apply _|].
  intros m. apply maintains_bind; [apply _..| |intros _];
    (apply maintains_lift_fs; [apply _..|apply R_of_same_manifest]).
Qed.

Lemma maintains_find mod_id : maintains R (find mod_id).
Proof.
  unfold find. apply maintains_bind; [apply _..|apply maintains_get_manifest; apply _|].
  intros m. destruct (find_entry mod_id (m_mods m)).
  - apply maintains_ret; apply _.
  - apply maintains_raise; apply _.
Qed.

Lemma maintains_sha256 sha p : maintains R (_sha256 sha p).
Proof.
  eapply maintains_weaken; [|apply sha256_readonly]. intros st st' <-. reflexivity.
Qed.

Lemma maintains_iter_mod_files d : maintains R (_iter_mod_files d).
Proof.
  eapply maintains_weaken; [|apply iter_mod_files_readonly]. intros st st' <-. reflexivity.
Qed.

Lemma maintains_unlink_existing candidate_paths deleted_files :
  maintains R (unlink_existing candidate_paths deleted_files).
Proof.
  revert deleted_files. induction candidate_paths as [|path rest IH]; intros deleted_files; simpl.
  - apply maintains_ret; apply _.
  - apply maintains_bind; [apply _..|apply maintains_get_fs; apply _|intros fs].
    destruct (Fs.exists_ fs path); [|apply IH].
    apply maintains_bind; [apply _..| |intros _; apply IH].
    apply maintains_lift_fs; [apply _..|apply R_of_same_manifest].
Qed.

Lemma maintains_infer_source_type expanduser str_lower source :
  maintains R (_infer_source_type expanduser str_lower source).
Proof.
  unfold _infer_source_type. repeat (case_match; [apply maintains_ret; apply _|]).
  apply maintains_bind; [apply _..|apply maintains_get_fs; apply _|intros fs].
  case_match; apply maintains_ret; apply _.
Qed.

Lemma maintains_add_mod_resolve resolvers expanduser str_lower str_strip cfg source mod_id name source_type
    manifest_only filename_override loader_hint mc_version_hint version_hint project_id :
  maintains R (add_mod_resolve resolvers expanduser str_lower str_strip cfg source mod_id name source_type
                 manifest_only filename_override loader_hint mc_version_hint version_hint
                 project_id).
Proof.
  intros st. unfold add_mod_resolve. apply keeps_get_manifest_bind.
  apply keeps_bind; [apply _..|apply maintains_ensure_directories|intros _ st1 _].
  case_match; [apply maintains_raise; apply _|].
  apply keeps_bind; [apply _..| |intros inferred st2 _].
  { destruct source_type; [apply maintains_ret; apply _|apply maintains_infer_source_type]. }
  case_match; [apply maintains_raise; apply _|].
  apply keeps_bind; [apply _..|apply maintains_lift_res; apply _|intros [normalized inline] st3 _].
  apply keeps_bind; [apply _..| |intros _ st4 _].
  { case_match; [|apply maintains_ret; apply _].
    apply keeps_get_manifest_bind. by apply keeps_put_same_mods. }
  apply keeps_bind; [apply _..| |intros _ st5 _].
  { case_match; [|apply maintains_ret; apply _].
    apply keeps_get_manifest_bind. by apply keeps_put_same_mods. }
  case_match; [apply maintains_ret; apply _|].
  apply keeps_bind; [apply _..|apply maintains_lift_res; apply _|intros resolver st6 _].
  apply keeps_get_manifest_bind.
  apply keeps_bind; [apply _..| |intros resolved st7 _].
  { apply maintains_lift_fs; [apply _..|apply R_of_same_manifest]. }
  apply keeps_bind; [apply _..|apply maintains_lift_res; apply _|intros _ st8 _].
  apply maintains_ret; apply _.
Qed.

End ModsOnly.

(** ** Entry ids *)

Lemma keeps_ids_unique_mods st st' :
  m_mods (st_manifest st') = m_mods (st_manifest st) → keeps_ids_unique st st'.
Proof. unfold keeps_ids_unique, ids_unique, ids. by intros ->. Qed.

Lemma same_mods_mods st st' :
  m_mods (st_manifest st') = m_mods (st_manifest st) → same_mods st st'.
Proof. done. Qed.

Lemma existsb_id i l :
  existsb (λ mod_, bool_decide (e_id mod_ = i)) l = bool_decide (i ∈ e_id <$> l).
Proof.
  induction l as [|e l IH]; [done|].
  cbn [existsb]. rewrite IH, fmap_cons.
  destruct (decide (e_id e = i)) as [He|He].
  - rewrite (bool_decide_eq_true_2 _ He). simpl. symmetry.
    apply bool_decide_eq_true_2. rewrite He. apply list_elem_of_here.
  - rewrite (bool_decide_eq_false_2 _ He). simpl. apply bool_decide_ext.
    rewrite elem_of_cons. split; [by auto|]. by intros [?|?].
Qed.

Lemma add_run entry st :
  add entry st =
  if bool_decide (e_id entry ∈ ids (st_manifest st))
  then (Raise (ManifestError ("Mod '" +:+ e_id entry +:+ "' already exists in manifest")), st)
  else (Ok tt, mkStore (st_fs st)
                 (with_mods (m_mods (st_manifest st) ++ [entry]) (st_manifest st))
                 (st_clock st)).
Proof.
  unfold add. rewrite (bind_ok get_manifest _ st (st_manifest st) st) by done.
  rewrite existsb_id. unfold ids. by case_bool_decide.
Qed.

Lemma ids_unique_snoc m entry :
  ids_unique m → e_id entry ∉ ids m → ids_unique (with_mods (m_mods m ++ [entry]) m).
Proof.
  unfold ids_unique, ids. simpl. intros Hnd Hfresh. rewrite fmap_app. simpl.
  apply NoDup_app. split_and!; [done| |apply NoDup_singleton].
  intros x Hx ->%list_elem_of_singleton. done.
Qed.

Lemma maintains_add entry : maintains keeps_ids_unique (add entry).
Proof.
  intros st. unfold keeps. rewrite add_run. case_bool_decide as Hin; simpl.
  - by intros ?.
  - intros Hnd. by apply ids_unique_snoc.
Qed.

Lemma ids_assign_enabled mod_id enabled l :
  e_id <$> assign_enabled mod_id enabled l = e_id <$> l.
Proof.
  induction l as [|e l IH]; simpl; [done|].
  case_bool_decide; csimpl; [done|]. by rewrite IH.
Qed.

Lemma ids_filter_sublist mod_id l :
  (e_id <$> filter (λ mod_, e_id mod_ ≠ mod_id) l) `sublist_of` (e_id <$> l).
Proof. apply fmap_sublist, sublist_filter. Qed.

Lemma maintains_remove mod_id : maintains keeps_ids_unique (remove mod_id).
Proof.
  intros st. unfold keeps, remove.
  rewrite (bind_ok get_manifest _ st (st_manifest st) st) by done.
  unfold mbind, M_bind, put_manifest. simpl.
  case_bool_decide; simpl; intros Hnd; unfold ids_unique, ids in *; simpl;
    (eapply sublist_NoDup; [exact Hnd|apply ids_filter_sublist]).
Qed.

Section IdsUnique.
Variable sha256_hexdigest : string → string.
Variable model_dump_json : ModManifest → string.
Variable clock : nat → string.
Variable SOURCE_RESOLVERS : gmap string SourceResolver.
Variable shutil_move : Path → Path → FS → res unit * FS.
Variable expanduser : Path → Path.
Variable str_lower str_title str_strip : string → string.

Local Abbreviation R := keeps_ids_unique.

Lemma maintains_set_enabled cfg mod_id enabled move_files :
  maintains R (set_enabled model_dump_json shutil_move cfg mod_id enabled move_files).
Proof.
  intros st. unfold set_enabled. apply keeps_get_manifest_bind.
  apply keeps_bind; [apply _..|apply maintains_ensure_directories; [apply _..|apply keeps_ids_unique_mods]|].
  intros _ st1 _.
  apply keeps_bind; [apply _..|apply maintains_find; apply _|intros entry st2 _].
  case_match; [apply maintains_ret; apply _|].
  apply keeps_bind; [apply _..| |intros _ st3 _].
  { case_match; [|apply maintains_ret; apply _]. apply keeps_get_fs_bind.
    case_match; [|apply maintains_ret; apply _].
    apply keeps_bind; [apply _..| |intros _ st3 _];
      (apply maintains_lift_fs; [apply _..|apply R_of_same_manifest; [apply _..|apply keeps_ids_unique_mods]]). }
  apply keeps_get_manifest_bind.
  apply keeps_bind; [apply _..| |intros _ st4 _].
  { unfold keeps, keeps_ids_unique, ids_unique, ids. simpl. by rewrite ids_assign_enabled. }
  apply keeps_bind; [apply _..| |intros _ st5 _].
  { apply maintains_save_manifest; [apply _..|apply keeps_ids_unique_mods]. }
  apply maintains_ret; apply _.
Qed.

Lemma maintains_remove_mod cfg mod_id remove_files :
  maintains R (remove_mod model_dump_json cfg mod_id remove_files).
Proof.
  intros st. unfold remove_mod. apply keeps_get_manifest_bind.
  apply keeps_bind; [apply _..|apply maintains_ensure_directories; [apply _..|apply keeps_ids_unique_mods]|].
  intros _ st1 _.
  apply keeps_bind; [apply _..|apply maintains_find; apply _|intros entry st2 _].
  apply keeps_bind; [apply _..| |intros deleted st3 _].
  { case_match; [|apply maintains_ret; apply _].
    apply maintains_unlink_existing; [apply _..|apply keeps_ids_unique_mods]. }
  apply keeps_bind; [apply _..|apply maintains_remove|intros _ st4 _].
  apply keeps_bind; [apply _..| |intros _ st5 _].
  { apply maintains_save_manifest; [apply _..|apply keeps_ids_unique_mods]. }
  apply maintains_ret; apply _.
Qed.

Lemma maintains_purge_loop cfg remove_files snapshot removed_count deleted :
  maintains R (purge_loop model_dump_json cfg remove_files snapshot removed_count deleted).
Proof.
  revert removed_count deleted.
  induction snapshot as [|entry rest IH]; intros removed_count deleted; simpl.
  - apply maintains_ret; apply _.
  - apply maintains_bind; [apply _..|apply maintains_remove_mod|intros [e paths]]. apply IH.
Qed.

Lemma maintains_purge_mods cfg remove_files :
  maintains R (purge_mods model_dump_json cfg remove_files).
Proof.
  intros st. unfold purge_mods. apply keeps_get_manifest_bind.
  apply keeps_bind; [apply _..|apply maintains_ensure_directories; [apply _..|apply keeps_ids_unique_mods]|].
  intros _ st1 _. apply maintains_purge_loop.
Qed.

Lemma maintains_adopt_loop files adopted :
  maintains R (adopt_loop sha256_hexdigest clock str_lower files adopted).
Proof.
  revert adopted. induction files as [|file rest IH]; intros adopted; simpl.
  - apply maintains_ret; apply _.
  - apply maintains_bind; [apply _..|apply maintains_get_manifest; apply _|intros m].
    apply maintains_bind; [apply _..| |intros installed_at].
    { apply maintains_now_iso; [apply _..|apply R_of_same_manifest; [apply _..|apply keeps_ids_unique_mods]]. }
    apply maintains_bind; [apply _..| |intros digest].
    { apply maintains_sha256; apply _. }
    apply maintains_bind; [apply _..| |intros adopted'; apply IH].
    apply maintains_except; [apply _..| |apply maintains_ret; apply _].
    apply maintains_bind; [apply _..|apply maintains_add|intros _].
    apply maintains_ret; apply _.
Qed.

Lemma maintains_init_manifest cfg force adopt_existing :
  maintains R (init_manifest sha256_hexdigest model_dump_json clock str_lower cfg force adopt_existing).
Proof.
  intros st. unfold init_manifest. apply keeps_get_fs_bind.
  case_match; [apply maintains_raise; apply _|].
  apply keeps_bind; [apply _..| |intros _ st1 _].
  { unfold keeps, keeps_ids_unique, ids_unique, ids. simpl. intros _. apply NoDup_nil_2. }
  apply keeps_bind; [apply _..|apply maintains_ensure_directories; [apply _..|apply keeps_ids_unique_mods]|].
  intros _ st2 _.
  apply keeps_bind; [apply _..| |intros adopted st3 _].
  { case_match; [|apply maintains_ret; apply _].
    unfold _adopt_existing_mods. apply keeps_get_manifest_bind.
    apply keeps_bind; [apply _..|apply maintains_iter_mod_files; apply _|intros files st3 _].
    apply maintains_adopt_loop. }
  apply keeps_bind; [apply _..| |intros _ st4 _].
  { apply maintains_save_manifest; [apply _..|apply keeps_ids_unique_mods]. }
  apply keeps_get_manifest_bind. apply maintains_ret; apply _.
Qed.

Lemma maintains_add_mod_commit cfg mod_id name enabled x :
  maintains R (add_mod_commit model_dump_json clock str_lower str_title cfg mod_id name enabled x).
Proof.
  intros st. unfold add_mod_commit.
  case_match; [|apply maintains_raise; apply _].
  case_match; [apply maintains_raise; apply _|].
  apply keeps_get_manifest_bind.
  case_match; [apply maintains_raise; apply _|].
  apply keeps_bind; [apply _..| |intros installed_at st1 _].
  { apply maintains_now_iso; [apply _..|apply R_of_same_manifest; [apply _..|apply keeps_ids_unique_mods]]. }
  apply keeps_bind; [apply _..|apply maintains_add|intros _ st2 _].
  apply keeps_bind; [apply _..| |intros _ st3 _].
  { apply maintains_save_manifest; [apply _..|apply keeps_ids_unique_mods]. }
  apply maintains_ret; apply _.
Qed.

Lemma maintains_add_mod cfg source mod_id name enabled source_type manifest_only
    filename_override loader_hint mc_version_hint version_hint project_id :
  maintains R (add_mod model_dump_json clock SOURCE_RESOLVERS expanduser str_lower str_title str_strip cfg source mod_id name
                 enabled source_type manifest_only filename_override loader_hint
                 mc_version_hint version_hint project_id).
Proof.
  unfold add_mod. apply maintains_bind; [apply _..| |intros x; apply maintains_add_mod_commit].
  apply maintains_add_mod_resolve; [apply _..|apply keeps_ids_unique_mods].
Qed.

End IdsUnique.

Section AddCollision.
Variable model_dump_json : ModManifest → string.
Variable clock : nat → string.
Variable SOURCE_RESOLVERS : gmap string SourceResolver.
Variable expanduser : Path → Path.
Variable str_lower str_title str_strip : string → string.

Lemma final_mod_id_explicit i x filename :
  PyStr.nonempty i = true → final_mod_id str_lower (Some i) x filename = i.
Proof.
  intros Hi. unfold final_mod_id, PyStr.or_else, PyStr.truthy. rewrite Hi. simpl.
  by rewrite Hi.
Qed.

Lemma add_mod_commit_collision cfg mod_id name enabled x filename st :
  target_filename x = Some filename →
  PyStr.nonempty filename = true →
  final_mod_id str_lower mod_id x filename ∈ ids (st_manifest st) →
  add_mod_commit model_dump_json clock str_lower str_title cfg mod_id name enabled x st =
    (Raise (ManifestError ("Mod '" +:+ final_mod_id str_lower mod_id x filename +:+
                           "' already exists in manifest.")), st).
Proof.
  intros Hf Hne Hin. unfold add_mod_commit. rewrite Hf, Hne. simpl.
  rewrite (bind_ok get_manifest _ st (st_manifest st) st) by done.
  rewrite existsb_id. by rewrite bool_decide_eq_true_2.
Qed.

Lemma add_mod_existing_id cfg source i name enabled source_type manifest_only
    filename_override loader_hint mc_version_hint version_hint project_id st :
  PyStr.nonempty i = true →
  i ∈ ids (st_manifest st) →
  is_ok (add_mod model_dump_json clock SOURCE_RESOLVERS expanduser str_lower str_title str_strip cfg source (Some i) name
           enabled source_type manifest_only filename_override loader_hint mc_version_hint
           version_hint project_id st).1 = false ∧
  m_mods (st_manifest
            (add_mod model_dump_json clock SOURCE_RESOLVERS expanduser str_lower str_title str_strip cfg source (Some i) name
               enabled source_type manifest_only filename_override loader_hint
               mc_version_hint version_hint project_id st).2)
  = m_mods (st_manifest st).
Proof.
  intros Hi Hin. unfold add_mod.
  pose proof (maintains_add_mod_resolve same_mods same_mods_mods SOURCE_RESOLVERS expanduser
                str_lower str_strip
                cfg source (Some i) name source_type manifest_only filename_override
                loader_hint mc_version_hint version_hint project_id st) as Hres.
  unfold keeps, same_mods in Hres. unfold mbind, M_bind.
  destruct (add_mod_resolve _ _ _ _ _ _ _ _ _ _ _ _ _ _ _ st) as [[x|e] st1]; simpl in Hres;
    [|done].
  destruct (target_filename x) as [filename|] eqn:Hf.
  - destruct (PyStr.nonempty filename) eqn:Hne.
    + rewrite (add_mod_commit_collision cfg (Some i) name enabled x filename st1 Hf Hne).
      * done.
      * rewrite final_mod_id_explicit by done. unfold ids. by rewrite Hres.
    + unfold add_mod_commit. rewrite Hf, Hne. done.
  - unfold add_mod_commit. rewrite Hf. done.
Qed.

End AddCollision.

(** ** Claim about entry ids *)

Section IdsClaim.
Variable sha256_hexdigest : string → string.
Variable model_dump_json : ModManifest → string.
Variable clock : nat → string.
Variable SOURCE_RESOLVERS : gmap string SourceResolver.
Variable shutil_move : Path → Path → FS → res unit * FS.
Variable expanduser : Path → Path.
Variable str_lower str_title str_strip : string → string.

(** C9. From a manifest whose entry ids are pairwise distinct, every
    operation (init with or without adoption, add, enable / disable,
    remove, purge) leaves a manifest whose entry ids are pairwise distinct,
    whether it returns or raises. Adding an entry whose id is already in
    the manifest raises a [ManifestError] and leaves the store as it was,
    both in [ModManifest.add] and at the id check of [add_mod]; and an
    [add_mod] called with such an id never returns normally and never
    changes the list of entries. *)
Theorem entry_ids_stay_unique cfg st :
  ids_unique (st_manifest st) →
  (∀ force adopt_existing,
     ids_unique (st_manifest
       (init_manifest sha256_hexdigest model_dump_json clock str_lower cfg force adopt_existing st).2)) ∧
  (∀ source mod_id name enabled source_type manifest_only filename_override loader_hint
     mc_version_hint version_hint project_id,
     ids_unique (st_manifest
       (add_mod model_dump_json clock SOURCE_RESOLVERS expanduser str_lower str_title str_strip cfg source mod_id name
          enabled source_type manifest_only filename_override loader_hint mc_version_hint
          version_hint project_id st).2)) ∧
  (∀ mod_id enabled move_files,
     ids_unique (st_manifest
       (set_enabled model_dump_json shutil_move cfg mod_id enabled move_files st).2)) ∧
  (∀ mod_id remove_files,
     ids_unique (st_manifest (remove_mod model_dump_json cfg mod_id remove_files st).2)) ∧
  (∀ remove_files,
     ids_unique (st_manifest (purge_mods model_dump_json cfg remove_files st).2)) ∧
  (∀ entry, e_id entry ∈ ids (st_manifest st) →
     add entry st =
       (Raise (ManifestError ("Mod '" +:+ e_id entry +:+ "' already exists in manifest")), st)) ∧
  (∀ mod_id name enabled x filename,
     target_filename x = Some filename → PyStr.nonempty filename = true →
     final_mod_id str_lower mod_id x filename ∈ ids (st_manifest st) →
     add_mod_commit model_dump_json clock str_lower str_title cfg mod_id name enabled x st =
       (Raise (ManifestError ("Mod '" +:+ final_mod_id str_lower mod_id x filename +:+
                              "' already exists in manifest.")), st)) ∧
  (∀ i source name enabled source_type manifest_only filename_override loader_hint
     mc_version_hint version_hint project_id,
     PyStr.nonempty i = true → i ∈ ids (st_manifest st) →
     is_ok (add_mod model_dump_json clock SOURCE_RESOLVERS expanduser str_lower str_title str_strip cfg source (Some i) name
              enabled source_type manifest_only filename_override loader_hint mc_version_hint
              version_hint project_id st).1 = false ∧
     m_mods (st_manifest
               (add_mod model_dump_json clock SOURCE_RESOLVERS expanduser str_lower str_title str_strip cfg source (Some i)
                  name enabled source_type manifest_only filename_override loader_hint
                  mc_version_hint version_hint project_id st).2)
     = m_mods (st_manifest st)).
Proof.
  intros Hnd. split_and!.
  - intros. by apply maintains_init_manifest.
  - intros. by apply maintains_add_mod.
  - intros. by apply maintains_set_enabled.
  - intros. by apply maintains_remove_mod.
  - intros. by apply maintains_purge_mods.
  - intros entry Hin. rewrite add_run. by rewrite bool_decide_eq_true_2.
  - intros. by apply add_mod_commit_collision.
  - intros. by apply add_mod_existing_id.
Qed.

End IdsClaim.

(** ** The compatibility check *)



Lemma occurs_in_middle (before needle after : string) :
  occurs_in needle (before +:+ needle +:+ after).
Proof. by exists before, after. Qed.





Section Compatibility.
Variable str_lower : string → string.





End Compatibility.

Section AddChecks.
Variable model_dump_json : ModManifest → string.
Variable clock : nat → string.
Variable SOURCE_RESOLVERS : gmap string SourceResolver.
Variable expanduser : Path → Path.
Variable str_lower str_title str_strip : string → string.




End AddChecks.



(** With the ASCII stand-in for [str.lower], loaders and versions that
    differ in letter case only are compatible. *)
Example compatibility_check_ignores_ascii_case :
  _assert_version_compatibility Sample.lower "lithium" (Some "Fabric") ["1.21"; "1.21.1-RC1"]
    (Some "FABRIC") (Some "1.21.1-rc1") = Ok tt.
Proof. vm_compute. reflexivity. Qed.

(** The two scenarios of the specification, run through [add_mod] *)
Example add_mod_rejects_other_loader :
  (add_mod Sample.dump Sample.clock Sample.resolvers Sample.expand Sample.lower Sample.title
       Sample.strip Sample.cfg
     "https://example.org/lithium.jar" None None true None false None None None None None
     Sample.both_store).1
  = Raise (ManifestError
             "lithium targets loader 'forge' which does not match the server loader 'fabric'.").
Proof. vm_compute. reflexivity. Qed.

Example add_mod_rejects_other_version :
  (add_mod Sample.dump Sample.clock Sample.resolvers Sample.expand Sample.lower Sample.title
       Sample.strip Sample.cfg
     "modrinth:lithium" None None true None false None None (Some "1.20") None None
     Sample.both_store).1
  = Raise (ManifestError "lithium is tagged for Minecraft 1.21, 1.21.1 but the server is 1.20.").
Proof. vm_compute. reflexivity. Qed.

Example add_mod_accepts_compatible :
  e_id <$> m_mods (st_manifest
    (add_mod Sample.dump Sample.clock Sample.resolvers Sample.expand Sample.lower Sample.title
       Sample.strip Sample.cfg
       "modrinth:lithium" None None true None false None None None None None
       Sample.both_store).2)
  = ["lithium"].
Proof. vm_compute. reflexivity. Qed.

(** C9, witness: the sample manifest, an [add_mod] on it, and an [add] of
    an id it already holds. *)
Lemma entry_ids_stay_unique_witness :
  ids_unique (st_manifest Sample.dup_store) ∧
  ids_unique (st_manifest
    (add_mod Sample.dump Sample.clock Sample.resolvers Sample.expand Sample.lower Sample.title
       Sample.strip Sample.cfg
       "modrinth:lithium" None None true None false None None None None None
       Sample.dup_store).2) ∧
  add (Sample.entry "a" "other.jar" true None) Sample.dup_store
  = (Raise (ManifestError "Mod 'a' already exists in manifest"), Sample.dup_store).
Proof.
  assert (Hnd : ids_unique (st_manifest Sample.dup_store)).
  { apply (bool_decide_unpack _). vm_compute. exact I. }
  destruct (entry_ids_stay_unique Sample.sha Sample.dump Sample.clock Sample.resolvers
              Sample.move Sample.expand Sample.lower Sample.title Sample.strip Sample.cfg Sample.dup_store Hnd)
    as (_ & Hadd & _ & _ & _ & Hdup & _).
  split; [exact Hnd|]. split; [apply Hadd|].
  apply (Hdup (Sample.entry "a" "other.jar" true None)).
  apply (bool_decide_unpack _). vm_compute. exact I.
Defined.

(** * The remaining operations *)

(** ** The manifest object: find, add, remove *)

Lemma with_mods_same m : with_mods (m_mods m) m = m.
Proof. by destruct m. Qed.

Lemma put_manifest_same st : mkStore (st_fs st) (st_manifest st) (st_clock st) = st.
Proof. by destruct st. Qed.

Lemma find_entry_None mod_id l : find_entry mod_id l = None ↔ mod_id ∉ e_id <$> l.
Proof.
  unfold find_entry. induction l as [|x l IH]; csimpl.
  - split; [intros _; apply not_elem_of_nil|done].
  - rewrite not_elem_of_cons. case_bool_decide as Hx.
    + split; [done|]. intros [Hne _]. congruence.
    + rewrite IH. split; [|by intros [_ ?]]. intros H. split; [congruence|done].
Qed.

Lemma find_run mod_id st :
  find mod_id st =
  (match find_entry mod_id (m_mods (st_manifest st)) with
   | Some entry => Ok entry
   | None => Raise (ManifestError ("Mod '" +:+ mod_id +:+ "' not found in manifest"))
   end, st).
Proof.
  unfold find. rewrite (bind_ok get_manifest _ st (st_manifest st) st) by done.
  by destruct (find_entry _ _).
Qed.

(** X1. [find] changes nothing. It returns the first entry of the manifest with
    the id, and raises the [ManifestError] that names the id exactly when no
    entry has it. *)
Theorem find_first_match mod_id st :
  (find mod_id st).2 = st ∧
  match (find mod_id st).1 with
  | Ok entry =>
      ∃ i, m_mods (st_manifest st) !! i = Some entry ∧ e_id entry = mod_id ∧
           ∀ j e, j < i → m_mods (st_manifest st) !! j = Some e → e_id e ≠ mod_id
  | Raise e =>
      e = ManifestError ("Mod '" +:+ mod_id +:+ "' not found in manifest") ∧
      mod_id ∉ ids (st_manifest st)
  end.
Proof.
  rewrite find_run. simpl. split; [done|].
  destruct (find_entry mod_id (m_mods (st_manifest st))) as [entry|] eqn:E.
  - by apply find_entry_Some.
  - split; [done|]. by apply find_entry_None.
Qed.

Lemma find_entry_app_fresh mod_id l entry :
  find_entry mod_id (l ++ [entry]) =
  match find_entry mod_id l with
  | Some e => Some e
  | None => if bool_decide (e_id entry = mod_id) then Some entry else None
  end.
Proof.
  unfold find_entry. induction l as [|x l IH]; simpl; [done|].
  destruct (bool_decide (e_id x = mod_id)); [done|]. apply IH.
Qed.

(** X2. Adding an entry whose id is new appends it to the manifest and touches
    no file; afterwards [find] returns it for its id, and answers as before
    for every other id. *)
Theorem add_then_find entry st :
  e_id entry ∉ ids (st_manifest st) →
  ∃ st', add entry st = (Ok tt, st') ∧
    m_mods (st_manifest st') = m_mods (st_manifest st) ++ [entry] ∧
    st_fs st' = st_fs st ∧
    find (e_id entry) st' = (Ok entry, st') ∧
    ∀ mod_id, mod_id ≠ e_id entry → (find mod_id st').1 = (find mod_id st).1.
Proof.
  intros Hfresh. rewrite add_run, bool_decide_eq_false_2 by done.
  eexists. split; [done|]. simpl. split_and!; [done..| |].
  - rewrite find_run. simpl. rewrite find_entry_app_fresh.
    apply find_entry_None in Hfresh. rewrite Hfresh. by rewrite bool_decide_eq_true_2.
  - intros mod_id Hne. rewrite !find_run. simpl. rewrite find_entry_app_fresh.
    destruct (find_entry mod_id (m_mods (st_manifest st))); [done|].
    by rewrite bool_decide_eq_false_2.
Qed.

Lemma filter_ids_fresh mod_id (l : list ModEntry) :
  mod_id ∉ e_id <$> l → filter (λ mod_, e_id mod_ ≠ mod_id) l = l.
Proof.
  induction l as [|x l IH]; csimpl; [done|]. rewrite not_elem_of_cons. intros [Hx Hl].
  rewrite filter_cons, decide_True by done. by rewrite IH.
Qed.

Lemma filter_length_same {A} (P : A → Prop) `{∀ x, Decision (P x)} (l : list A) :
  length (filter P l) = length l → filter P l = l.
Proof.
  induction l as [|x l IH]; [done|]. rewrite filter_cons. case_decide; simpl.
  - intros [= Hl]. by rewrite IH.
  - intros Hl. pose proof (length_filter P l). lia.
Qed.

Lemma remove_run mod_id st :
  remove mod_id st =
  if bool_decide (mod_id ∈ ids (st_manifest st))
  then (Ok tt, mkStore (st_fs st)
                 (with_mods (filter (λ mod_, e_id mod_ ≠ mod_id) (m_mods (st_manifest st)))
                    (st_manifest st))
                 (st_clock st))
  else (Raise (ManifestError ("Mod '" +:+ mod_id +:+ "' not found in manifest")), st).
Proof.
  unfold remove. rewrite (bind_ok get_manifest _ st (st_manifest st) st) by done.
  unfold mbind, M_bind, put_manifest. simpl. unfold ids.
  case_bool_decide as Hlen.
  - apply filter_length_same in Hlen.
    rewrite bool_decide_eq_false_2.
    + rewrite Hlen, with_mods_same. by destruct st.
    + intros Hin. apply list_elem_of_fmap in Hin as (e & -> & Hin).
      rewrite <-Hlen in Hin. by apply list_elem_of_filter in Hin as [? _].
  - rewrite bool_decide_eq_true_2; [done|].
    destruct (decide (mod_id ∈ e_id <$> m_mods (st_manifest st))) as [|Hno]; [done|].
    by rewrite filter_ids_fresh in Hlen.
Qed.



(** X4. Adding an entry with a new id and then removing that id gives the
    store back. *)
Theorem add_then_remove entry st :
  e_id entry ∉ ids (st_manifest st) →
  (add entry ;; remove (e_id entry)) st = (Ok tt, st).
Proof.
  intros Hfresh. erewrite bind_ok; [|by rewrite add_run, bool_decide_eq_false_2].
  rewrite remove_run. simpl. rewrite bool_decide_eq_true_2.
  2:{ unfold ids. simpl. rewrite fmap_app. apply elem_of_app. right. apply list_elem_of_here. }
  rewrite filter_app, filter_ids_fresh by done.
  rewrite filter_cons, decide_False by (by intros ?). rewrite filter_nil, app_nil_r.
  destruct st as [fs [] k]. done.
Qed.

(** ** Creating the directories again *)

Lemma all_dirs_grows ds pre rest fs fs' :
  Fs.grows_under ds fs fs' → Fs.all_dirs pre rest fs = true → Fs.all_dirs pre rest fs' = true.
Proof.
  intros Hg. revert pre. induction rest as [|c rest IH]; intros pre; simpl; [done|].
  intros [Hd Hr]%andb_true_iff. rewrite IH by done. rewrite andb_true_r.
  unfold Fs.is_dir in *. destruct (Fs.stat fs (pre ++ [c])) as [[x|]|] eqn:E; try done.
  by rewrite (FsFacts.stat_grows _ _ _ _ _ Hg E).
Qed.

Lemma mkdirs_made pre rest fs fs' :
  Fs.mkdirs pre rest fs = (Ok tt, fs') → Fs.all_dirs pre rest fs' = true.
Proof.
  revert pre fs. induction rest as [|c rest IH]; intros pre fs; simpl; [done|].
  destruct (Fs.stat fs (pre ++ [c])) as [[x|]|] eqn:E; [done| |]; intros H.
  - rewrite (IH _ _ H), andb_true_r. unfold Fs.is_dir.
    by rewrite (FsFacts.stat_grows _ _ _ _ _ (FsFacts.mkdirs_grows _ _ _ _ _ H) E).
  - rewrite (IH _ _ H), andb_true_r. unfold Fs.is_dir.
    by rewrite (FsFacts.stat_grows _ _ _ _ _ (FsFacts.mkdirs_grows _ _ _ _ _ H)
                  (FsFacts.stat_insert_Dir fs (pre ++ [c]))).
Qed.

Lemma mkdirs_again pre rest fs r fs' :
  Fs.mkdirs pre rest fs = (r, fs') → Fs.mkdirs pre rest fs' = (r, fs').
Proof.
  revert pre fs. induction rest as [|c rest IH]; intros pre fs; simpl.
  - by intros [= <- <-].
  - destruct (Fs.stat fs (pre ++ [c])) as [[x|]|] eqn:E; intros H.
    + injection H as <- <-. by rewrite E.
    + rewrite (FsFacts.stat_grows _ _ _ _ _ (FsFacts.mkdirs_grows _ _ _ _ _ H) E). eauto.
    + rewrite (FsFacts.stat_grows _ _ _ _ _ (FsFacts.mkdirs_grows _ _ _ _ _ H)
                 (FsFacts.stat_insert_Dir fs (pre ++ [c]))). eauto.
Qed.

Lemma mkdirs_raises pre rest fs e fs' :
  Fs.mkdirs pre rest fs = (Raise e, fs') →
  Fs.clear_path pre rest fs = false ∧ ∃ p, e = FileExistsError p ∨ e = NotADirectoryError p.
Proof.
  intros H. split.
  - destruct (Fs.clear_path pre rest fs) eqn:E; [|done].
    destruct (FsFacts.mkdirs_total _ _ _ E) as [fs1 E1]. congruence.
  - revert pre fs H. induction rest as [|c rest IH]; intros pre fs; simpl; [done|].
    destruct (Fs.stat fs (pre ++ [c])) as [[x|]|]; [|by eauto..].
    intros [= <- _]. destruct rest; eauto.
Qed.

Lemma ensure_directories_again cfg manifest st r st' :
  ensure_directories cfg manifest st = (r, st') → ensure_directories cfg manifest st' = (r, st').
Proof.
  unfold ensure_directories, mbind, M_bind, lift_fs, Fs.mkdir_parents.
  destruct (Fs.mkdirs [] (mods_dir cfg manifest) (st_fs st)) as [[[]|e] fs1] eqn:E1.
  - destruct (Fs.mkdirs [] (disabled_dir cfg manifest) fs1) as [r2 fs2] eqn:E2.
    simpl. rewrite E2. intros [= <- <-]. simpl.
    apply mkdirs_made in E1 as D1.
    rewrite (FsFacts.mkdirs_all_dirs _ _ _
               (all_dirs_grows _ _ _ _ _ (FsFacts.mkdirs_grows _ _ _ _ _ E2) D1)).
    simpl. by rewrite (mkdirs_again _ _ _ _ _ E2).
  - intros [= <- <-]. simpl. by rewrite (mkdirs_again _ _ _ _ _ E1).
Qed.

(** X5. [ensure_directories] returns exactly when nothing but directories
    stands on the way to the two mod directories, and then both exist;
    otherwise it raises [FileExistsError] or [NotADirectoryError]. Either
    way, a second run on the store it left gives the same outcome and
    changes nothing more. *)
Theorem ensure_directories_outcome cfg m st :
  match ensure_directories cfg (Some m) st with
  | (Ok _, st') =>
      dirs_available cfg m (st_fs st) = true ∧ dirs_exist cfg m (st_fs st') = true ∧
      ensure_directories cfg (Some m) st' = (Ok tt, st')
  | (Raise e, st') =>
      dirs_available cfg m (st_fs st) = false ∧
      (∃ p, e = FileExistsError p ∨ e = NotADirectoryError p) ∧
      ensure_directories cfg (Some m) st' = (Raise e, st')
  end.
Proof.
  destruct (ensure_directories cfg (Some m) st) as [r st'] eqn:E.
  pose proof (ensure_directories_again _ _ _ _ _ E) as Hagain. revert E.
  unfold ensure_directories, mbind, M_bind, lift_fs, Fs.mkdir_parents, dirs_available, dirs_exist.
  destruct (Fs.mkdirs [] (mods_dir cfg (Some m)) (st_fs st)) as [[[]|e1] fs1] eqn:E1; simpl.
  - pose proof (FsFacts.grows_same_files _ _ _ (FsFacts.mkdirs_grows _ _ _ _ _ E1)) as Hsf.
    rewrite (FsFacts.mkdirs_clear _ _ _ _ E1), (FsFacts.clear_path_ext _ _ _ _ Hsf). simpl.
    destruct (Fs.mkdirs [] (disabled_dir cfg (Some m)) fs1) as [[[]|e2] fs2] eqn:E2;
      intros [= <- <-]; simpl.
    + split_and!; [by eapply FsFacts.mkdirs_clear| |done].
      rewrite (mkdirs_made _ _ _ _ E2), andb_true_r.
      eapply all_dirs_grows; [by eapply FsFacts.mkdirs_grows|by eapply mkdirs_made].
    + split_and!; [by eapply mkdirs_raises|by eapply mkdirs_raises|done].
  - intros [= <- <-]. split_and!; [|by eapply mkdirs_raises|done].
    apply andb_false_iff. left. by eapply mkdirs_raises.
Qed.

Section Again.
Variable sha256_hexdigest : string → string.

(** X6. An inventory taken again, on the store the first one left, gives the
    same result and changes nothing: the only effect of [inventory] is
    creating the directories, once. *)
Theorem inventory_again cfg st :
  let '(r, st') := inventory sha256_hexdigest cfg st in
  inventory sha256_hexdigest cfg st' = (r, st').
Proof.
  destruct (inventory sha256_hexdigest cfg st) as [r st'] eqn:E. revert E.
  unfold inventory. rewrite (bind_ok get_manifest _ st (st_manifest st) st) by done.
  destruct (ensure_directories cfg (Some (st_manifest st)) st) as [[[]|e] st1] eqn:E1.
  - pose proof (ensure_directories_only_mkdirs cfg (Some (st_manifest st)) st) as Hm.
    unfold keeps in Hm. rewrite E1 in Hm. destruct Hm as (Hm & _). simpl in Hm.
    apply ensure_directories_again in E1 as E1'.
    erewrite bind_ok; [|exact E1]. intros E.
    assert (st' = st1) as ->.
    { pose proof (scan_files_readonly sha256_hexdigest cfg (st_manifest st) st1) as Hro.
      unfold keeps in Hro. revert E. unfold mbind, M_bind.
      destruct (_scan_files _ _ _ st1) as [[files|e] st2]; simpl in Hro; subst st2.
      - destruct (match_entries _ _ _). by intros [= _ <-].
      - by intros [= _ <-]. }
    rewrite (bind_ok get_manifest _ st1 (st_manifest st1) st1) by done.
    rewrite Hm. erewrite bind_ok; [|exact E1']. exact E.
  - erewrite bind_raise; [|exact E1]. intros [= <- <-].
    pose proof (ensure_directories_only_mkdirs cfg (Some (st_manifest st)) st) as Hm.
    unfold keeps in Hm. rewrite E1 in Hm. destruct Hm as (Hm & _). simpl in Hm.
    apply ensure_directories_again in E1 as E1'.
    rewrite (bind_ok get_manifest _ st1 (st_manifest st1) st1) by done.
    rewrite Hm. by erewrite bind_raise.
Qed.

End Again.

(** ** What an inventory records *)

Section InventoryRecords.
Variable sha256_hexdigest : string → string.

Lemma mod_file_at_Some fs d n content :
  mod_file_at fs d n = Some content ↔
  Fs.stat fs (d ++ [n]) = Some (File content) ∧ is_mod_suffix (suffix (d ++ [n])) = true.
Proof.
  unfold mod_file_at. destruct (Fs.stat fs (d ++ [n])) as [[c|]|]; [|by split; [|intros []]..].
  destruct (is_mod_suffix _); split; try done; try (by intros []).
  - intros [= ->]. done.
  - by intros [[= ->] _].
Qed.

Lemma scan_lookup_Some cfg m fs n f :
  scan_lookup sha256_hexdigest fs (mods_dir cfg (Some m)) (disabled_dir cfg (Some m)) n = Some f →
  mf_filename f = n ∧ mf_location f ∈ ["mods"; "mods-disabled"] ∧
  mf_path f = directory_of cfg m (mf_location f) ++ [n] ∧
  is_mod_suffix (suffix (mf_path f)) = true ∧
  ∃ content, Fs.stat fs (mf_path f) = Some (File content) ∧
             mf_sha256 f = Some (sha256_hexdigest content).
Proof.
  unfold scan_lookup.
  destruct (mod_file_at fs (disabled_dir _ _) n) as [c2|] eqn:E2.
  - intros [= <-]. simpl. apply mod_file_at_Some in E2 as [E2 S2].
    split_and!; [done|apply list_elem_of_further, list_elem_of_here|done|done|by eauto].
  - destruct (mod_file_at fs (mods_dir _ _) n) as [c1|] eqn:E1; [|done].
    intros [= <-]. simpl. apply mod_file_at_Some in E1 as [E1 S1].
    split_and!; [done|apply list_elem_of_here|done|done|by eauto].
Qed.

Lemma manifest_filename_suffix d : suffix (d ++ [MANIFEST_FILENAME]) = ".json".
Proof.
  unfold suffix, name. rewrite last_snoc. reflexivity.
Qed.

(** The records of an inventory, field by field *)
Lemma inventory_records cfg st :
  let m := st_manifest st in
  dirs_available cfg m (st_fs st) = true →
  ∃ inv st', inventory sha256_hexdigest cfg st = (Ok inv, st') ∧
    ∀ i e, m_mods m !! i = Some e →
      entries inv !! i =
        Some (match_entry e
                (match matched_file sha256_hexdigest (st_fs st) cfg m i e with
                 | Some f => [(e_filename e, f)]
                 | None => []
                 end)).1.
Proof.
  intros m Hav.
  destruct (ensure_directories_total cfg m st Hav) as [st1 E1].
  pose proof (ensure_directories_only_mkdirs cfg (Some m) st) as Hgrow.
  unfold keeps in Hgrow. rewrite E1 in Hgrow. destruct Hgrow as (_ & _ & Hg). simpl in Hg.
  apply ensure_directories_ok in E1 as Hdirs. destruct Hdirs as [Hen Hdis].
  destruct (scan_files_spec sha256_hexdigest cfg m st1 Hen Hdis) as (files & E2 & Hnd & Hget).
  destruct (match_entries_spec (m_mods m) [] files) as (sts & E3 & Hlen & Hith).
  eexists _, st1. split.
  - unfold inventory. erewrite bind_ok; [|reflexivity]. fold m.
    erewrite bind_ok; [|exact E1]. erewrite bind_ok; [|exact E2]. by rewrite E3.
  - intros i e Hi. simpl. rewrite (Hith i e Hi). f_equal.
    assert (Hpop : PyDict.getitem (e_filename e)
                     (consumed (e_filename <$> take i (m_mods m)) files)
                   = matched_file sha256_hexdigest (st_fs st) cfg m i e).
    { rewrite getitem_consumed by done. unfold matched_file. rewrite Hget.
      case_bool_decide; [done|]. apply scan_lookup_same_files.
      eapply FsFacts.grows_same_files, Hg. }
    unfold match_entry, PyDict.pop. simpl. rewrite Hpop.
    destruct (matched_file _ _ _ _ _ _); simpl; [by rewrite decide_True|done].
Qed.

(** X7. The record of an entry in the inventory. Its location is that of the
    file the entry is matched to. With a location, the entry is present, the
    location is one of the two labels, a regular file of the entry's
    filename is on disk in the directory the label stands for, and
    [hash_ok] is unset when the entry records no sha256 or an empty one, and
    otherwise tells whether the digest of that file is the recorded one.
    Without a location the entry is not present and [hash_ok] is unset. *)
Theorem inventory_hash_verdict cfg st :
  dirs_available cfg (st_manifest st) (st_fs st) = true →
  ∃ inv st', inventory sha256_hexdigest cfg st = (Ok inv, st') ∧
    ∀ i e, m_mods (st_manifest st) !! i = Some e →
      ∃ s, entries inv !! i = Some s ∧ s_entry s = e ∧
        s_location s =
          mf_location <$> matched_file sha256_hexdigest (st_fs st) cfg (st_manifest st) i e ∧
        match s_location s with
        | Some location =>
            s_present s = true ∧ location ∈ ["mods"; "mods-disabled"] ∧
            ∃ content,
              Fs.stat (st_fs st) (directory_of cfg (st_manifest st) location ++ [e_filename e])
                = Some (File content) ∧
              s_hash_ok s =
                match e_hashes e ≫= sha256 with
                | Some recorded =>
                    if bool_decide (recorded = "") then None
                    else Some (bool_decide (sha256_hexdigest content = recorded))
                | None => None
                end
        | None => s_present s = false ∧ s_hash_ok s = None
        end.
Proof.
  intros Hav. destruct (inventory_records cfg st Hav) as (inv & st' & Hrun & Hith).
  exists inv, st'. split; [done|]. intros i e Hi. eexists. split; [by apply Hith|].
  split; [done|]. unfold match_entry, PyDict.pop.
  destruct (matched_file _ _ _ _ _ _) as [f|] eqn:E; simpl.
  - rewrite decide_True by done. simpl. split; [done|]. unfold matched_file in E.
    case_bool_decide; [done|].
    apply scan_lookup_Some in E as (_ & Hloc & Hpath & _ & content & Hstat & Hsha).
    split_and!; [done|done|]. exists content.
    rewrite <-Hpath. split; [done|]. unfold expected_sha256.
    destruct (e_hashes e) as [h|]; simpl; [|done].
    destruct (sha256 h) as [recorded|]; simpl; [|done].
    unfold PyStr.nonempty. case_bool_decide; simpl; [done|].
    rewrite Hsha. f_equal. apply bool_decide_ext. split; congruence.
  - done.
Qed.

(** X8. Every extra of an inventory is a file on disk: a regular file with a
    mod suffix, in the directory its location stands for, whose filename no
    manifest entry has, listed with the digest of its content; the manifest
    file itself is never among the extras. *)
Theorem inventory_extras_are_mod_files cfg st :
  dirs_available cfg (st_manifest st) (st_fs st) = true →
  ∃ inv st', inventory sha256_hexdigest cfg st = (Ok inv, st') ∧
    ∀ f, f ∈ extras inv →
      (mf_filename f ∉ filenames (st_manifest st)) ∧ mf_filename f ≠ MANIFEST_FILENAME ∧
      mf_location f ∈ ["mods"; "mods-disabled"] ∧
      mf_path f = directory_of cfg (st_manifest st) (mf_location f) ++ [mf_filename f] ∧
      is_mod_suffix (suffix (mf_path f)) = true ∧
      ∃ content, Fs.stat (st_fs st) (mf_path f) = Some (File content) ∧
                 mf_sha256 f = Some (sha256_hexdigest content).
Proof.
  intros Hav. destruct (inventory_spec sha256_hexdigest cfg st Hav)
    as (inv & st' & Hrun & _ & _ & _ & _ & Hex).
  exists inv, st'. split; [done|]. intros f [Hno Hl]%Hex.
  apply scan_lookup_Some in Hl as (_ & Hloc & Hpath & Hsuf & Hfile).
  split_and!; [done| |done..].
  intros Hname. rewrite Hpath, Hname, manifest_filename_suffix in Hsuf. done.
Qed.

End InventoryRecords.

(** ** Files and directories under the primitive operations *)

Lemma stat_insert_ne fs p q x : q ≠ p → Fs.stat (<[p := x]> fs) q = Fs.stat fs q.
Proof.
  intros Hne. destruct q as [|r [|]]; simpl; [done| |by rewrite lookup_insert_ne].
  destruct (is_root r); [done|]. by rewrite lookup_insert_ne.
Qed.

Lemma stat_delete_ne fs p q : q ≠ p → Fs.stat (delete p fs) q = Fs.stat fs q.
Proof.
  intros Hne. destruct q as [|r [|]]; simpl; [done| |by rewrite lookup_delete_ne].
  destruct (is_root r); [done|]. by rewrite lookup_delete_ne.
Qed.

Lemma stat_not_dir_lookup fs p : Fs.stat fs p ≠ Some Dir → Fs.stat fs p = fs !! p.
Proof.
  destruct p as [|r [|]]; simpl; try done. by destruct (is_root r).
Qed.

Lemma stat_insert_file fs p c :
  Fs.stat fs p ≠ Some Dir → Fs.stat (<[p := File c]> fs) p = Some (File c).
Proof.
  intros Hnd. destruct p as [|r [|]]; simpl in *; [done| |apply lookup_insert_eq].
  destruct (is_root r); [done|apply lookup_insert_eq].
Qed.

Lemma same_dirs_refl fs : same_dirs fs fs.
Proof. done. Qed.

Lemma same_dirs_trans fs1 fs2 fs3 : same_dirs fs1 fs2 → same_dirs fs2 fs3 → same_dirs fs1 fs3.
Proof. intros H1 H2 p. by rewrite H2, H1. Qed.

Lemma same_dirs_insert_file fs p c :
  Fs.stat fs p ≠ Some Dir → same_dirs fs (<[p := File c]> fs).
Proof.
  intros Hnd q. unfold Fs.is_dir. destruct (decide (q = p)) as [->|Hne].
  - rewrite stat_insert_file by done. by destruct (Fs.stat fs p) as [[]|].
  - by rewrite stat_insert_ne.
Qed.

Lemma same_dirs_delete_file fs p c :
  Fs.stat fs p = Some (File c) → same_dirs fs (delete p fs).
Proof.
  intros Hf q. unfold Fs.is_dir. destruct (decide (q = p)) as [->|Hne].
  - rewrite Hf.
    assert (Fs.stat (delete p fs) p = None) as ->; [|done].
    destruct p as [|r [|]]; simpl in *; [done| |by rewrite lookup_delete_eq].
    destruct (is_root r); [done|by rewrite lookup_delete_eq].
  - by rewrite stat_delete_ne.
Qed.

Lemma all_dirs_ext fs fs' pre rest :
  same_dirs fs fs' → Fs.all_dirs pre rest fs' = Fs.all_dirs pre rest fs.
Proof.
  intros Hsd. revert pre. induction rest as [|c rest IH]; intros pre; simpl; [done|].
  by rewrite Hsd, IH.
Qed.

Lemma manifest_ready_ext cfg fs fs' :
  same_dirs fs fs' → manifest_ready cfg fs' = manifest_ready cfg fs.
Proof. intros Hsd. unfold manifest_ready. by rewrite (all_dirs_ext fs fs'), Hsd. Qed.

Lemma healthy_ext cfg m m' fs fs' :
  same_dirs fs fs' → m_mods_dir m' = m_mods_dir m → healthy cfg m' fs' = healthy cfg m fs.
Proof.
  intros Hsd Hm. unfold healthy, dirs_exist, mods_dir, disabled_dir, dir_name.
  by rewrite Hm, !(all_dirs_ext fs fs'), (manifest_ready_ext cfg fs fs').
Qed.

Lemma all_dirs_stat p fs : Fs.all_dirs [] p fs = true → Fs.stat fs p = Some Dir.
Proof.
  intros H. apply FsFacts.mkdirs_all_dirs in H.
  by apply (FsFacts.mkdirs_is_dir [] p fs fs) in H.
Qed.

Lemma ensure_directories_healthy cfg st :
  healthy cfg (st_manifest st) (st_fs st) = true →
  ensure_directories cfg (Some (st_manifest st)) st = (Ok tt, st).
Proof. intros [H _]%andb_true_iff. by apply ensure_directories_exist. Qed.

Section Runs.
Variable model_dump_json : ModManifest → string.

Lemma save_manifest_ready cfg st :
  manifest_ready cfg (st_fs st) = true →
  save_manifest model_dump_json cfg st =
    (Ok tt, mkStore (<[manifest_path cfg := File (model_dump_json (st_manifest st))]> (st_fs st))
              (st_manifest st) (st_clock st)) ∧
  same_dirs (st_fs st)
    (<[manifest_path cfg := File (model_dump_json (st_manifest st))]> (st_fs st)).
Proof.
  intros [Hpar Hnd]%andb_true_iff. apply negb_true_iff in Hnd.
  assert (Hstat : Fs.stat (st_fs st) (manifest_path cfg) ≠ Some Dir).
  { unfold Fs.is_dir in Hnd. by destruct (Fs.stat _ _) as [[]|]. }
  split; [|by apply same_dirs_insert_file].
  unfold save_manifest. rewrite (bind_ok get_manifest _ st (st_manifest st) st) by done.
  erewrite bind_ok.
  2:{ unfold lift_fs, Fs.mkdir_parents. rewrite (FsFacts.mkdirs_all_dirs _ _ _ Hpar).
      by destruct st. }
  unfold lift_fs, Fs.write_text. rewrite (all_dirs_stat _ _ Hpar).
  by destruct (Fs.stat (st_fs st) (manifest_path cfg)) as [[]|].
Qed.

(** The candidates of [remove_mod] that were there are gone, nothing else changed. *)
Lemma unlink_existing_spec candidate_paths deleted_files st :
  (∀ p, p ∈ candidate_paths → Fs.is_dir (st_fs st) p = false) →
  ∃ deleted fs',
    unlink_existing candidate_paths deleted_files st =
      (Ok (deleted_files ++ deleted), mkStore fs' (st_manifest st) (st_clock st)) ∧
    same_dirs (st_fs st) fs' ∧
    (∀ p, p ∈ deleted → p ∈ candidate_paths ∧ is_Some (st_fs st !! p)) ∧
    (∀ p, p ∈ candidate_paths → is_Some (st_fs st !! p) → p ∈ deleted) ∧
    (∀ p, p ∈ candidate_paths → fs' !! p = None) ∧
    (∀ p, p ∉ candidate_paths → fs' !! p = st_fs st !! p).
Proof.
  destruct st as [fs m k]. simpl. revert deleted_files fs.
  induction candidate_paths as [|path rest IH]; intros deleted_files fs Hnd.
  - exists [], fs. rewrite app_nil_r. split_and!; try done.
    + intros p Hp. by apply elem_of_nil in Hp.
    + intros p Hp. by apply elem_of_nil in Hp.
  - assert (Hpath : Fs.stat fs path = fs !! path).
    { apply stat_not_dir_lookup. pose proof (Hnd path (list_elem_of_here _ _)) as H.
      unfold Fs.is_dir in H. by destruct (Fs.stat fs path) as [[]|]. }
    simpl. rewrite (bind_ok get_fs _ (mkStore fs m k) fs (mkStore fs m k)) by done.
    unfold Fs.exists_.
    destruct (Fs.stat fs path) as [x|] eqn:E.
    + rewrite bool_decide_eq_true_2 by eauto.
      assert (∃ c, x = File c) as [c ->].
      { pose proof (Hnd path (list_elem_of_here _ _)) as H. unfold Fs.is_dir in H.
        rewrite E in H. destruct x; [by eauto|done]. }
      pose proof (same_dirs_delete_file _ _ _ E) as Hsd.
      erewrite bind_ok; [|unfold lift_fs, Fs.unlink; simpl; by rewrite E].
      destruct (IH (deleted_files ++ [path]) (delete path fs))
        as (deleted & fs' & Hrun & Hsd' & Hsub & Hall & Hgone & Hkeep).
      { intros p Hp. rewrite Hsd. apply Hnd. by apply list_elem_of_further. }
      exists (path :: deleted), fs'. split_and!.
      * rewrite Hrun. by rewrite <-app_assoc.
      * by eapply same_dirs_trans.
      * intros p [->|Hp]%elem_of_cons.
        -- split; [apply list_elem_of_here|]. rewrite <-Hpath. eauto.
        -- destruct (Hsub p Hp) as [Hin [y Hy]]. split; [by apply list_elem_of_further|].
           destruct (decide (p = path)) as [->|Hne]; [by rewrite lookup_delete_eq in Hy|].
           rewrite lookup_delete_ne in Hy by done. eauto.
      * intros p [->|Hp]%elem_of_cons Hsome; [apply list_elem_of_here|].
        destruct (decide (p = path)) as [->|Hne]; [apply list_elem_of_here|].
        apply list_elem_of_further, Hall; [done|]. by rewrite lookup_delete_ne.
      * intros p [->|Hp]%elem_of_cons; [|by apply Hgone].
        destruct (decide (path ∈ rest)) as [Hin|Hno]; [by apply Hgone|].
        rewrite Hkeep by done. apply lookup_delete_eq.
      * intros p [Hne Hno]%not_elem_of_cons. rewrite Hkeep by done.
        by rewrite lookup_delete_ne.
    + rewrite bool_decide_eq_false_2 by (by intros [? ?]).
      destruct (IH deleted_files fs) as (deleted & fs' & Hrun & Hsd' & Hsub & Hall & Hgone & Hkeep).
      { intros p Hp. apply Hnd. by apply list_elem_of_further. }
      exists deleted, fs'. split_and!; [done|done| | | |].
      * intros p Hp. destruct (Hsub p Hp). split; [by apply list_elem_of_further|done].
      * intros p [->|Hp]%elem_of_cons Hsome; [rewrite <-Hpath in Hsome; by destruct Hsome|].
        by apply Hall.
      * intros p [->|Hp]%elem_of_cons; [|by apply Hgone].
        destruct (decide (path ∈ rest)) as [Hin|Hno]; [by apply Hgone|].
        by rewrite Hkeep.
      * intros p [Hne Hno]%not_elem_of_cons. by apply Hkeep.
Qed.

End Runs.

(** ** Removing entries *)

Section RemoveRuns.
Variable model_dump_json : ModManifest → string.

Lemma candidate_paths_ext cfg m m' entry :
  m_mods_dir m' = m_mods_dir m → candidate_paths cfg m' entry = candidate_paths cfg m entry.
Proof. intros H. unfold candidate_paths, mods_dir, disabled_dir, dir_name. by rewrite H. Qed.

Lemma remove_mod_step cfg mod_id (remove_files : bool) st entry :
  let m := st_manifest st in
  let looked_at := if remove_files then candidate_paths cfg m entry else [] in
  let m' := with_mods (filter (λ mod_, e_id mod_ ≠ mod_id) (m_mods m)) m in
  healthy cfg m (st_fs st) = true →
  find_entry mod_id (m_mods m) = Some entry →
  (∀ p, p ∈ looked_at → Fs.is_dir (st_fs st) p = false) →
  ∃ deleted fs1,
    remove_mod model_dump_json cfg mod_id remove_files st =
      (Ok (entry, deleted),
       mkStore (<[manifest_path cfg := File (model_dump_json m')]> fs1) m' (st_clock st)) ∧
    same_dirs (st_fs st) fs1 ∧
    same_dirs (st_fs st) (<[manifest_path cfg := File (model_dump_json m')]> fs1) ∧
    (∀ p, p ∈ deleted ↔ p ∈ looked_at ∧ is_Some (st_fs st !! p)) ∧
    (∀ p, p ∈ looked_at → fs1 !! p = None) ∧
    (∀ p, p ∉ looked_at → fs1 !! p = st_fs st !! p).
Proof.
  intros m looked_at m' Hh Hfind Hnd. subst m.
  set (m := st_manifest st) in looked_at, m'.
  assert (Hin : mod_id ∈ ids (st_manifest st)).
  { destruct (decide (mod_id ∈ ids (st_manifest st))) as [|Hno]; [done|].
    apply find_entry_None in Hno. by rewrite Hfind in Hno. }
  assert (Hunlink : ∃ deleted fs1,
    (if remove_files then unlink_existing (candidate_paths cfg m entry) [] else mret []) st =
      (Ok deleted, mkStore fs1 (st_manifest st) (st_clock st)) ∧
    same_dirs (st_fs st) fs1 ∧
    (∀ p, p ∈ deleted ↔ p ∈ looked_at ∧ is_Some (st_fs st !! p)) ∧
    (∀ p, p ∈ looked_at → fs1 !! p = None) ∧
    (∀ p, p ∉ looked_at → fs1 !! p = st_fs st !! p)).
  { unfold looked_at in *. destruct remove_files.
    - destruct (unlink_existing_spec (candidate_paths cfg m entry) [] st Hnd)
        as (deleted & fs1 & Hrun & Hsd & Hsub & Hall & Hgone & Hkeep).
      exists deleted, fs1. split_and!; [done|done| |done|done].
      intros p. split; [by apply Hsub|]. intros [? ?]. by apply Hall.
    - exists [], (st_fs st). split_and!; [by rewrite put_manifest_same|done| | |done].
      + intros p. split; [by intros ?%elem_of_nil|]. by intros [?%elem_of_nil _].
      + by intros p ?%elem_of_nil. }
  destruct Hunlink as (deleted & fs1 & Hrun & Hsd & Hdel & Hgone & Hkeep).
  assert (Hready : manifest_ready cfg fs1 = true).
  { rewrite (manifest_ready_ext cfg (st_fs st)) by done. by apply andb_true_iff in Hh as [_ ?]. }
  destruct (save_manifest_ready model_dump_json cfg (mkStore fs1 m' (st_clock st)) Hready)
    as [Hsave Hsd'].
  exists deleted, fs1. split_and!; [|done|by eapply same_dirs_trans|done..].
  unfold remove_mod. rewrite (bind_ok get_manifest _ st (st_manifest st) st) by done.
  erewrite bind_ok; [|by apply ensure_directories_healthy].
  erewrite bind_ok; [|by rewrite find_run, Hfind].
  erewrite bind_ok; [|exact Hrun].
  erewrite bind_ok; [|by rewrite remove_run, bool_decide_eq_true_2].
  erewrite bind_ok; [|exact Hsave]. done.
Qed.

(** X9. [remove_mod] on a healthy tree, for an id the manifest has (and, when
    files are to be removed, no directory where a file of the entry would
    be): it returns the first entry with the id and the paths it deleted,
    which are exactly the candidates that existed: the entry's filename in
    the enabled and in the disabled directory, or none when files are kept.
    Every entry with the id is gone from the manifest, the manifest file
    holds the new manifest, the candidates are gone from the disk, every
    other file is as it was, and the tree is still healthy. *)
Theorem remove_mod_outcome cfg mod_id (remove_files : bool) st entry :
  let m := st_manifest st in
  let looked_at := if remove_files then candidate_paths cfg m entry else [] in
  healthy cfg m (st_fs st) = true →
  find_entry mod_id (m_mods m) = Some entry →
  (∀ p, p ∈ looked_at → Fs.is_dir (st_fs st) p = false) →
  ∃ deleted st',
    remove_mod model_dump_json cfg mod_id remove_files st = (Ok (entry, deleted), st') ∧
    m_mods (st_manifest st') = filter (λ mod_, e_id mod_ ≠ mod_id) (m_mods m) ∧
    (mod_id ∉ ids (st_manifest st')) ∧
    st_fs st' !! manifest_path cfg = Some (File (model_dump_json (st_manifest st'))) ∧
    (∀ p, p ∈ deleted ↔ p ∈ looked_at ∧ is_Some (st_fs st !! p)) ∧
    (∀ p, p ∈ looked_at → p ≠ manifest_path cfg → st_fs st' !! p = None) ∧
    (∀ p, p ∉ looked_at → p ≠ manifest_path cfg → st_fs st' !! p = st_fs st !! p) ∧
    healthy cfg (st_manifest st') (st_fs st') = true.
Proof.
  intros m looked_at Hh Hfind Hnd.
  destruct (remove_mod_step cfg mod_id remove_files st entry Hh Hfind Hnd)
    as (deleted & fs1 & Hrun & Hsd1 & Hsd & Hdel & Hgone & Hkeep).
  eexists deleted, _. split; [exact Hrun|]. simpl. split_and!; [done| | |done| | |].
  - unfold ids. simpl. intros (e & Heq & He)%list_elem_of_fmap.
    by apply list_elem_of_filter in He as [? _].
  - apply lookup_insert_eq.
  - intros p Hp Hne. rewrite lookup_insert_ne by done. by apply Hgone.
  - intros p Hp Hne. rewrite lookup_insert_ne by done. by apply Hkeep.
  - by rewrite (healthy_ext cfg m _ (st_fs st)).
Qed.

Lemma filter_filter_ids (D : list string) mod_id (l : list ModEntry) :
  filter (λ mod_, e_id mod_ ≠ mod_id) (filter (λ e, e_id e ∉ D) l) =
  filter (λ e, e_id e ∉ mod_id :: D) l.
Proof.
  induction l as [|x l IH]; [done|]. rewrite !filter_cons.
  destruct (decide (e_id x ∉ D)) as [HD|HD].
  - rewrite filter_cons. destruct (decide (e_id x ≠ mod_id)) as [Hx|Hx].
    + rewrite decide_True by (by apply not_elem_of_cons). by rewrite IH.
    + rewrite decide_False; [done|]. intros [? _]%not_elem_of_cons. done.
  - rewrite decide_False; [done|]. intros [_ ?]%not_elem_of_cons. done.
Qed.

Lemma purge_loop_spec cfg remove_files snapshot (D : list string) st n deleted :
  healthy cfg (st_manifest st) (st_fs st) = true →
  m_mods (st_manifest st) = filter (λ e, e_id e ∉ D) snapshot →
  (remove_files = true →
   ∀ e p, e ∈ snapshot → p ∈ candidate_paths cfg (st_manifest st) e →
          Fs.is_dir (st_fs st) p = false) →
  match purge_loop model_dump_json cfg remove_files snapshot n deleted st with
  | (Ok (n', deleted'), st') =>
      NoDup (e_id <$> snapshot) ∧ (∀ e, e ∈ snapshot → e_id e ∉ D) ∧
      n' = n + length snapshot ∧ m_mods (st_manifest st') = [] ∧
      healthy cfg (st_manifest st') (st_fs st') = true ∧
      (remove_files = false →
       deleted' = deleted ∧ ∀ p, p ≠ manifest_path cfg → st_fs st' !! p = st_fs st !! p) ∧
      (snapshot ≠ [] →
       st_fs st' !! manifest_path cfg = Some (File (model_dump_json (st_manifest st'))))
  | (Raise e, st') =>
      (¬ NoDup (e_id <$> snapshot) ∨ ∃ x, x ∈ snapshot ∧ e_id x ∈ D) ∧
      ∃ mod_id, e = ManifestError ("Mod '" +:+ mod_id +:+ "' not found in manifest")
  end.
Proof.
  revert D st n deleted. induction snapshot as [|x rest IH]; intros D st n deleted Hh Hm Hnd.
  - simpl. split_and!; [apply NoDup_nil_2| |lia|done|done|done|done].
    intros e He. by apply elem_of_nil in He.
  - simpl. destruct (decide (e_id x ∈ D)) as [HD|HD].
    + (* the id was removed already: [find] fails *)
      assert (Hfind : find_entry (e_id x) (m_mods (st_manifest st)) = None).
      { apply find_entry_None. rewrite Hm. intros (e & Heq & He)%list_elem_of_fmap.
        apply list_elem_of_filter in He as [He _]. congruence. }
      erewrite bind_raise.
      2:{ unfold remove_mod. rewrite (bind_ok get_manifest _ st (st_manifest st) st) by done.
          erewrite bind_ok; [|by apply ensure_directories_healthy].
          erewrite bind_raise; [done|]. by rewrite find_run, Hfind. }
      split; [|by eauto]. right. exists x. split; [apply list_elem_of_here|done].
    + assert (Hfind : find_entry (e_id x) (m_mods (st_manifest st)) = Some x).
      { rewrite Hm, filter_cons, decide_True by done. unfold find_entry. simpl.
        by rewrite bool_decide_eq_true_2. }
      destruct (remove_mod_step cfg (e_id x) remove_files st x Hh Hfind)
        as (removed & fs1 & Hrun & Hsd1 & Hsd & Hdel & Hgone & Hkeep).
      { destruct remove_files; [|by intros p ?%elem_of_nil].
        intros p Hp. apply (Hnd eq_refl x); [apply list_elem_of_here|done]. }
      erewrite bind_ok; [|exact Hrun].
      set (m' := with_mods _ (st_manifest st)) in *.
      set (st1 := mkStore _ m' (st_clock st)) in *.
      assert (Hh1 : healthy cfg (st_manifest st1) (st_fs st1) = true).
      { unfold st1. simpl. by rewrite (healthy_ext cfg (st_manifest st) _ (st_fs st)). }
      assert (Hm1 : m_mods (st_manifest st1) = filter (λ e, e_id e ∉ e_id x :: D) rest).
      { unfold st1, m'. simpl. rewrite Hm, filter_cons, decide_True by done.
        rewrite filter_cons, decide_False by (by intros ?). apply filter_filter_ids. }
      assert (Hnd1 : remove_files = true →
                ∀ e p, e ∈ rest → p ∈ candidate_paths cfg (st_manifest st1) e →
                       Fs.is_dir (st_fs st1) p = false).
      { intros -> e p He Hp. unfold st1. simpl. rewrite Hsd.
        rewrite (candidate_paths_ext cfg (st_manifest st)) in Hp by done.
        apply (Hnd eq_refl e); [by apply list_elem_of_further|done]. }
      specialize (IH (e_id x :: D) st1 (n + 1) (deleted ++ removed) Hh1 Hm1 Hnd1).
      destruct (purge_loop _ _ _ rest _ _ st1) as [[[n' deleted']|e] st'] eqn:Eloop.
      * destruct IH as (Hnodup & Hfresh & Hn & Hempty & Hh' & Hkept & Hfile).
        rewrite Eloop. split_and!.
        -- apply NoDup_cons. split; [|done].
           intros (e & Heq & He)%list_elem_of_fmap. apply (Hfresh e He).
           rewrite <-Heq. apply list_elem_of_here.
        -- intros e [->|He]%elem_of_cons; [done|]. intros Hin. apply (Hfresh e He).
           by apply list_elem_of_further.
        -- simpl. lia.
        -- done.
        -- done.
        -- intros ->. destruct (Hkept eq_refl) as [-> Hfs]. split.
           ++ assert (removed = []) as ->; [|by rewrite app_nil_r].
              apply elem_of_nil_inv. intros p [Hp _]%Hdel. by apply elem_of_nil in Hp.
           ++ intros p Hp. rewrite Hfs by done. unfold st1. simpl.
              rewrite lookup_insert_ne by done. apply Hkeep. apply not_elem_of_nil.
        -- intros _. destruct rest as [|y rest']; [|by apply Hfile].
           injection Eloop as _ _ <-. apply lookup_insert_eq.
      * rewrite Eloop. destruct IH as ([Hdup|(y & Hy & HyD)] & Hmsg).
        -- split; [|done]. left. intros [_ ?]%NoDup_cons. done.
        -- split; [|done]. apply elem_of_cons in HyD as [Heq|HyD].
           ++ left. intros [Hx _]%NoDup_cons. apply Hx.
              rewrite <-Heq. by apply (list_elem_of_fmap_2 e_id).
           ++ right. exists y. split; [by apply list_elem_of_further|done].
Qed.

End RemoveRuns.

Lemma filter_none_excluded (l : list ModEntry) : filter (λ e, e_id e ∉ []) l = l.
Proof.
  induction l as [|e l IH]; [done|].
  rewrite filter_cons, decide_True by apply not_elem_of_nil. by rewrite IH.
Qed.

Section PurgeClaims.
Variable model_dump_json : ModManifest → string.

(** X10. [purge_mods] on a healthy tree returns exactly when the ids of the
    manifest are pairwise distinct: the count is the number of entries, the
    manifest is left empty and, unless it was empty already, written to the
    manifest file; when files are kept, nothing is deleted and no other file
    changes. With a repeated id it raises the [ManifestError] of [find], at
    the second entry with that id, which the removal of the first one took
    out of the manifest. *)
Theorem purge_mods_outcome cfg (remove_files : bool) st :
  let m := st_manifest st in
  healthy cfg m (st_fs st) = true →
  (remove_files = true →
   ∀ e p, e ∈ m_mods m → p ∈ candidate_paths cfg m e → Fs.is_dir (st_fs st) p = false) →
  match purge_mods model_dump_json cfg remove_files st with
  | (Ok (removed_count, deleted), st') =>
      ids_unique m ∧ removed_count = length (m_mods m) ∧ m_mods (st_manifest st') = [] ∧
      (remove_files = false →
       deleted = [] ∧ ∀ p, p ≠ manifest_path cfg → st_fs st' !! p = st_fs st !! p) ∧
      (m_mods m ≠ [] →
       st_fs st' !! manifest_path cfg = Some (File (model_dump_json (st_manifest st'))))
  | (Raise e, st') =>
      ¬ ids_unique m ∧
      ∃ mod_id, e = ManifestError ("Mod '" +:+ mod_id +:+ "' not found in manifest")
  end.
Proof.
  intros m Hh Hnd. subst m. unfold purge_mods.
  rewrite (bind_ok get_manifest _ st (st_manifest st) st) by done.
  erewrite bind_ok; [|by apply ensure_directories_healthy].
  assert (Hm : m_mods (st_manifest st) = filter (λ e, e_id e ∉ []) (m_mods (st_manifest st))).
  { symmetry. apply filter_none_excluded. }
  pose proof (purge_loop_spec model_dump_json cfg remove_files (m_mods (st_manifest st)) []
                st 0 [] Hh Hm Hnd) as Hloop.
  destruct (purge_loop _ _ _ _ _ _ st) as [[[n deleted]|e] st'].
  - destruct Hloop as (Hnodup & _ & Hn & Hempty & _ & Hkept & Hfile).
    split_and!; done.
  - destruct Hloop as ([Hdup|(x & _ & Hx)] & Hmsg); [done|]. by apply elem_of_nil in Hx.
Qed.

End PurgeClaims.

(** ** The sample world, once more *)

(** X2, witness: the entry [z] is new to the sample manifest. *)
Lemma add_then_find_witness :
  ∃ st', add (Sample.entry "z" "z.jar" true None) Sample.dup_store = (Ok tt, st') ∧
    find "z" st' = (Ok (Sample.entry "z" "z.jar" true None), st') ∧
    (find "b" st').1 = Ok (Sample.entry "b" "b.jar" true (Some "sha256:other")).
Proof.
  destruct (add_then_find (Sample.entry "z" "z.jar" true None) Sample.dup_store)
    as (st' & Hadd & _ & _ & Hfind & Hother).
  { apply (bool_decide_unpack _). vm_compute. exact I. }
  exists st'. split; [exact Hadd|]. split; [exact Hfind|].
  rewrite (Hother "b") by discriminate. reflexivity.
Defined.

(** X4, witness: the same entry, added and removed. *)
Lemma add_then_remove_witness :
  (add (Sample.entry "z" "z.jar" true None) ;; remove "z") Sample.dup_store
  = (Ok tt, Sample.dup_store).
Proof.
  apply (add_then_remove (Sample.entry "z" "z.jar" true None) Sample.dup_store).
  apply (bool_decide_unpack _). vm_compute. exact I.
Defined.

(** X7, witness: the sample entry [b] records a digest that is not that of [b.jar]; the
    entry [d] records an empty one. *)
Lemma inventory_hash_verdict_witness :
  dirs_available Sample.cfg (st_manifest Sample.dup_store) (st_fs Sample.dup_store) = true ∧
  ∃ inv st' b d, inventory Sample.sha Sample.cfg Sample.dup_store = (Ok inv, st') ∧
    entries inv !! 2 = Some b ∧ s_location b = Some "mods" ∧ s_hash_ok b = Some false ∧
    entries inv !! 4 = Some d ∧ s_location d = Some "mods" ∧ s_hash_ok d = None.
Proof.
  split; [reflexivity|].
  destruct (inventory_hash_verdict Sample.sha Sample.cfg Sample.dup_store eq_refl)
    as (inv & st' & Hrun & Hith).
  destruct (Hith 2 _ eq_refl) as (b & Hb & _ & Hbl & Hbrec).
  destruct (Hith 4 _ eq_refl) as (d & Hd & _ & Hdl & Hdrec).
  exists inv, st', b, d.
  change (s_location b = Some "mods") in Hbl. change (s_location d = Some "mods") in Hdl.
  rewrite Hbl in Hbrec. rewrite Hdl in Hdrec.
  destruct Hbrec as (_ & _ & content & Hstat & Hok).
  destruct Hdrec as (_ & _ & content' & _ & Hdok).
  vm_compute in Hstat. injection Hstat as <-.
  split_and!; [exact Hrun|exact Hb|exact Hbl|exact Hok|exact Hd|exact Hdl|exact Hdok].
Defined.

(** X8, witness: in [both_store] no entry names [a.jar]. *)
Lemma inventory_extras_are_mod_files_witness :
  dirs_available Sample.cfg (st_manifest Sample.both_store) (st_fs Sample.both_store) = true ∧
  ∃ inv st', inventory Sample.sha Sample.cfg Sample.both_store = (Ok inv, st') ∧
    ∀ f, f ∈ extras inv →
      mf_filename f ≠ MANIFEST_FILENAME ∧
      ∃ content, Fs.stat (st_fs Sample.both_store) (mf_path f) = Some (File content) ∧
                 mf_sha256 f = Some (Sample.sha content).
Proof.
  split; [reflexivity|].
  destruct (inventory_extras_are_mod_files Sample.sha Sample.cfg Sample.both_store eq_refl)
    as (inv & st' & Hrun & Hex).
  exists inv, st'. split; [exact Hrun|]. intros f Hf.
  destruct (Hex f Hf) as (_ & Hname & _ & _ & _ & Hfile). split; [exact Hname|exact Hfile].
Defined.

(** X9, witness: removing the sample entry [c] with its file, which sits in the disabled
    directory. *)
Lemma remove_mod_outcome_witness :
  healthy Sample.cfg (st_manifest Sample.dup_store) (st_fs Sample.dup_store) = true ∧
  ∃ deleted st',
    remove_mod Sample.dump Sample.cfg "c" true Sample.dup_store
      = (Ok (Sample.entry "c" "c.zip" true (Some "sha256:other"), deleted), st') ∧
    e_id <$> m_mods (st_manifest st') = ["a"; "a-again"; "b"; "d"] ∧
    (∀ p, p ∈ deleted ↔ p = Sample.disabled_dir ++ ["c.zip"]) ∧
    st_fs st' !! (Sample.disabled_dir ++ ["c.zip"]) = None ∧
    st_fs st' !! (Sample.enabled_dir ++ ["a.jar"]) = Some (File "AAA").
Proof.
  split; [reflexivity|].
  destruct (remove_mod_outcome Sample.dump Sample.cfg "c" true Sample.dup_store
              (Sample.entry "c" "c.zip" true (Some "sha256:other")))
    as (deleted & st' & Hrun & Hm & _ & _ & Hdel & Hgone & Hkeep & _);
    [reflexivity|reflexivity| |].
  { intros p Hp. apply elem_of_cons in Hp as [->|Hp]; [reflexivity|].
    apply list_elem_of_singleton in Hp as ->. reflexivity. }
  exists deleted, st'. split; [exact Hrun|]. split; [rewrite Hm; reflexivity|]. split_and!.
  - intros p. rewrite Hdel. split.
    + intros [Hp Hsome]. apply elem_of_cons in Hp as [->|Hp].
      * destruct Hsome as [x Hx]. discriminate Hx.
      * apply list_elem_of_singleton in Hp as ->. reflexivity.
    + intros ->. split; [apply list_elem_of_further, list_elem_of_here|]. eexists. reflexivity.
  - apply Hgone; [apply list_elem_of_further, list_elem_of_here|discriminate].
  - rewrite Hkeep; [reflexivity| |discriminate].
    apply (bool_decide_unpack _). vm_compute. exact I.
Defined.

(** X10, witness: purging the manifest of [off_store], whose two ids differ. *)
Lemma purge_mods_outcome_witness :
  healthy Sample.cfg (st_manifest Sample.off_store) (st_fs Sample.off_store) = true ∧
  match purge_mods Sample.dump Sample.cfg true Sample.off_store with
  | (Ok (removed_count, deleted), st') =>
      removed_count = 2 ∧ m_mods (st_manifest st') = [] ∧
      st_fs st' !! manifest_path Sample.cfg = Some (File "{}")
  | (Raise e, st') => False
  end.
Proof.
  split; [reflexivity|].
  assert (Hnd : true = true →
            ∀ e p, e ∈ m_mods (st_manifest Sample.off_store) →
                   p ∈ candidate_paths Sample.cfg (st_manifest Sample.off_store) e →
                   Fs.is_dir (st_fs Sample.off_store) p = false).
  { intros _ e p He Hp. apply elem_of_cons in He as [->|He].
    - apply elem_of_cons in Hp as [->|Hp]; [reflexivity|].
      apply list_elem_of_singleton in Hp as ->. reflexivity.
    - apply list_elem_of_singleton in He as ->.
      apply elem_of_cons in Hp as [->|Hp]; [reflexivity|].
      apply list_elem_of_singleton in Hp as ->. reflexivity. }
  generalize (purge_mods_outcome Sample.dump Sample.cfg true Sample.off_store eq_refl Hnd).
  destruct (purge_mods Sample.dump Sample.cfg true Sample.off_store) as [[[n deleted]|e] st'].
  - intros (_ & Hn & Hempty & _ & Hfile). split; [exact Hn|]. split; [exact Hempty|].
    rewrite Hfile by discriminate. unfold Sample.dump. rewrite Hempty. reflexivity.
  - intros [Hdup _]. apply Hdup. apply (bool_decide_unpack _). vm_compute. exact I.
Defined.
